(** * Fork lifecycle orchestration: a shallow embedding

    The development follows three source units of the fork terminal:

    - [ForkWebSocket] (api/client): the reconnecting push channel;
    - [useForks] (hooks/useForks): the list of forks mirrored from the
      Gateway and the four push-event handlers that rewrite it;
    - [ForkTerminalUI] (components/ForkTerminalUI.tsx): the local fork
      registry, the admission check, the launch paths, cancel, retry,
      the merged view and the activity log.

    Conventions of the embedding.

    - Wall-clock reads ([new Date()], [Date.now()]) and [Math.random()]
      are inputs of the operation that performs them.  Timestamps are
      milliseconds in [Z]; an ISO string and the instant it denotes are
      identified.
    - A React state cell is a field of [State]; [setX (prev => ...)] is a
      function applied to the current state.  A [useCallback] closure
      reads the values of the render that created it, so every operation
      that runs after a timer or an [await] takes two states: the render
      it was created in ([cap], for "captured") and the state it updates.
    - Text is a byte string holding UTF-8; where the source counts
      UTF-16 units, so does the embedding.
    - A number is a double.  Its value is a rational; a sum or a product
      is the exact result rounded to the nearest double ([fl]), a decimal
      literal is the double nearest to it, and comparisons are exact.
    - [obj[key]] on a plain object finds its own entries and, for the
      names of [Object.prototype], an inherited member ([inherited]).
    - [playSound] and the console output touch no state cell and are left
      out; a push message is modelled once parsed, a malformed one being
      dropped by [onmessage] before any handler sees it.  *)

From Stdlib Require Import ZArith QArith Qminmax Qround Qpower Lia Lqa.
From stdpp Require Import base list strings gmap pretty.

Open Scope string_scope.
Open Scope list_scope.
Open Scope Z_scope.

(** ** Shared vocabulary (types) *)

Inductive ForkStatus :=
  | queued | spawning | running | completed | failed | cancelled | terminated.

Inductive ModelTier := fast | default | heavy.

Inductive Theme := cyberpunk | minimal | matrix.

#[global] Instance ForkStatus_eq_dec : EqDecision ForkStatus.
Proof. solve_decision. Defined.

#[global] Instance ModelTier_eq_dec : EqDecision ModelTier.
Proof. solve_decision. Defined.

(** [['running', 'spawning', 'queued'].includes(f.status)] *)
Definition is_active (s : ForkStatus) : bool :=
  match s with
  | running | spawning | queued => true
  | _ => false
  end.

(** [['completed', 'failed', 'cancelled', 'terminated'].includes(f.status)] *)
Definition is_terminal (s : ForkStatus) : bool :=
  match s with
  | completed | failed | cancelled | terminated => true
  | _ => false
  end.

(** One entry of [Fork.output]: [{ time: Date; text: string }].  [text]
    is [None] when the code stored [undefined] there, which
    [getRandomOutput] can return. *)
Record OutputLine := mkOutputLine { time : Z; text : option string }.

Module Fork.
Record t := mk {
  id : string;
  agent : string;
  model : string;
  modelTier : ModelTier;
  status : ForkStatus;
  task : string;
  prompt : string;
  startedAt : Z;
  completedAt : option Z;
  duration : option Z;
  progress : Q;
  pid : option Z;
  output : list OutputLine;
  includeSummary : bool;
  workflowId : option string
}.
End Fork.

Module TerminalLine.
Inductive kind := system | info | success | error | warning | spawn | workflow.
Record t := mk { type : kind; text : string; time : Z }.
End TerminalLine.

(** [{ success: boolean; data?: T; error?: string }] *)
Record ApiResponse (T : Type) := mkApiResponse {
  success : bool;
  data : option T;
  error : option string
}.
Arguments mkApiResponse {T} _ _ _.
Arguments success {T} _.
Arguments data {T} _.
Arguments error {T} _.

(** [s || d] on a possibly missing string: the empty string is falsy. *)
Definition or_default (s : option string) (d : string) : string :=
  match s with
  | Some EmptyString | None => d
  | Some s' => s'
  end.

(** ** JavaScript objects and numbers *)

(** The members every plain object inherits from [Object.prototype]. *)
Definition object_prototype_members : list string :=
  [ "constructor"; "hasOwnProperty"; "isPrototypeOf"; "propertyIsEnumerable";
    "toLocaleString"; "toString"; "valueOf"; "__defineGetter__"; "__defineSetter__";
    "__lookupGetter__"; "__lookupSetter__"; "__proto__" ].

(** [obj[key]] on a plain object with the own properties [obj] finds an
    inherited member: [key] is no own property and names a member of
    [Object.prototype].  What it finds is a function or, for
    [__proto__], the prototype itself: never nullish, always truthy. *)
Definition inherited {A} (obj : gmap string A) (key : string) : bool :=
  bool_decide (obj !! key = None) && bool_decide (key ∈ object_prototype_members).

(** A number is an IEEE 754 binary64 value.  The finite ones are
    rationals, and [+] and [*] give the exact result rounded to the
    nearest of them, ties to the even mantissa: [fl].  Magnitudes stay
    below [2^1024] here, so nothing overflows, and the two zeros are not
    told apart. *)
Definition pow2 (e : Z) : Q := (2 ^ e)%Q.

(** The [e] with [2^e <= x < 2^(e+1)], for [0 < x]. *)
Definition binade (x : Q) : Z :=
  let e0 := Z.log2 (Qnum x) - Z.log2 (Zpos (Qden x)) in
  if Qle_bool (pow2 e0) x then e0 else e0 - 1.

(** The nearest integer, the even one at a tie. *)
Definition rne (q : Q) : Z :=
  let f := Qfloor q in
  match (q - inject_Z f ?= 1 # 2)%Q with
  | Lt => f
  | Gt => f + 1
  | Eq => if Z.even f then f else f + 1
  end.

(** The spacing of the doubles around [x]: 52 bits below the leading
    one, and no finer than [2^-1074]. *)
Definition ulp (x : Q) : Q := pow2 (Z.max (binade x) (-1022) - 52).

Definition fl_pos (x : Q) : Q := (inject_Z (rne (x / ulp x)) * ulp x)%Q.

Definition fl (x : Q) : Q :=
  match (x ?= 0)%Q with
  | Eq => 0%Q
  | Gt => fl_pos x
  | Lt => (- fl_pos (- x))%Q
  end.

(** [x] is a double. *)
Definition is_double (x : Q) : Prop := (fl x == x)%Q.

(** [r] is a value of [Math.random()]: a double in [[0, 1)]. *)
Definition is_draw (r : Q) : Prop := is_double r /\ (0 <= r)%Q /\ (r < 1)%Q.

(** ** The activity log *)

(** [prev.slice(-n)]: the last [n] elements, all of them when there are
    fewer. *)
Definition slice_last {A} (n : nat) (l : list A) : list A :=
  drop (length l - n) l.

(** [setTerminalOutput(prev => [...prev.slice(-100), { type, text: `> ${text}`, time: new Date() }])] *)
Definition addTerminalLine (type : TerminalLine.kind) (text : string) (now : Z)
    (prev : list TerminalLine.t) : list TerminalLine.t :=
  slice_last 100 prev ++ [TerminalLine.mk type ("> " +:+ text) now].

(** The three lines the log is initialised with. *)
Definition initialTerminalOutput (now : Z) : list TerminalLine.t :=
  [ TerminalLine.mk TerminalLine.system "> Fork Terminal v2.0.0 initialized" now;
    TerminalLine.mk TerminalLine.system "> Agent orchestration layer online" now;
    TerminalLine.mk TerminalLine.info "> Ready to spawn parallel agents..." now ].

(** ** The event channel: [class ForkWebSocket] *)

Module ForkWebSocket.

(** [ws] records whether a socket object is held; the listener table
    plays no part in reconnection and lives in [useForks] below. *)
Record t := mk {
  ws : bool;
  reconnectAttempts : nat
}.

Definition maxReconnectAttempts : nat := 5%nat.
Definition reconnectDelay : Z := 1000.

(** [private reconnectAttempts = 0], [ws = null] *)
Definition new : t := mk false 0%nat.

(** [this.reconnectDelay * Math.pow(2, this.reconnectAttempts - 1)],
    read after the increment that made the counter [n]. *)
Definition delay (n : nat) : Z := reconnectDelay * 2 ^ (Z.of_nat n - 1).

(** The body of [attemptReconnect]; the second component is the delay
    handed to [setTimeout(() => this.connect(), delay)], if any. *)
Definition attemptReconnect (s : t) : t * option Z :=
  if (reconnectAttempts s <? maxReconnectAttempts)%nat then
    let n := S (reconnectAttempts s) in
    (mk (ws s) n, Some (delay n))
  else (s, None).

(** [connect()]: [throws] says whether [new WebSocket(url)] raised. *)
Definition connect (throws : bool) (s : t) : t * option Z :=
  if throws then attemptReconnect s
  else (mk true (reconnectAttempts s), None).

Definition onopen (s : t) : t := mk (ws s) 0%nat.
Definition onclose (s : t) : t * option Z := attemptReconnect s.

(** [disconnect()]: closes and drops the socket.  The browser reports the
    close through [onclose] afterwards, like any other. *)
Definition disconnect (s : t) : t := mk false (reconnectAttempts s).

(** What the browser can report about the channel. *)
Inductive event :=
  | Opened                       (* [onopen] *)
  | Closed                       (* [onclose] *)
  | Connect (throws : bool).     (* [connect()] runs, from a timer or a caller *)

Definition step (e : event) (s : t) : t * option Z :=
  match e with
  | Opened => (onopen s, None)
  | Closed => onclose s
  | Connect throws => connect throws s
  end.

(** Runs a trace and collects, in order, the delays of the reconnect
    attempts it scheduled. *)
Fixpoint run (es : list event) (s : t) : t * list Z :=
  match es with
  | [] => (s, [])
  | e :: es' =>
      let '(s1, d) := step e s in
      let '(s2, ds) := run es' s1 in
      (s2, match d with Some x => x :: ds | None => ds end)
  end.

Definition is_open (e : event) : bool :=
  match e with Opened => true | _ => false end.

(** The failure loop: the link closes; when [onclose] schedules an
    attempt, its timer fires, [connect()] builds a socket, and that
    socket closes in turn.  [n] bounds the number of closures observed;
    the loop ends by itself once nothing is scheduled. *)
Fixpoint closures (n : nat) (s : t) : t * list Z :=
  match n with
  | O => (s, [])
  | S n' =>
      match onclose s with
      | (s1, Some d) =>
          let '(s2, ds) := closures n' (fst (connect false s1)) in
          (s2, d :: ds)
      | (s1, None) => (s1, [])
      end
  end.

End ForkWebSocket.

(** ** Records of the component *)

Module AgentConfig.
Record models_t := mkModels { fast_model : string; default_model : string; heavy_model : string }.
Record t := mk {
  id : string;
  name : string;
  icon : string;
  color : string;
  enabled : bool;
  models : models_t;
  commandTemplate : string;
  flags : list string
}.
(** [agentConfig.models[tier]] *)
Definition model_of (c : t) (tier : ModelTier) : string :=
  match tier with
  | fast => fast_model (models c)
  | default => default_model (models c)
  | heavy => heavy_model (models c)
  end.
End AgentConfig.

Module Settings.
Record t := mk {
  autoFocus : bool;
  soundEnabled : bool;
  maxConcurrent : Z;
  defaultModel : ModelTier;
  theme : Theme
}.
End Settings.

Module QueueItem.
Record t := mk {
  id : Z;
  agent : string;
  modelTier : ModelTier;
  prompt : string;
  includeSummary : bool
}.
End QueueItem.

Module WorkflowFork.
Record t := mk { agent : string; modelTier : ModelTier; prompt : string }.
End WorkflowFork.

Module WorkflowTemplate.
Record t := mk {
  id : string;
  name : string;
  description : string;
  icon : string;
  forks : list WorkflowFork.t
}.
End WorkflowTemplate.

(** The body of a Gateway create call. *)
Module ForkCreateRequest.
Record t := mk {
  agent : string;
  modelTier : ModelTier;
  prompt : string;
  includeSummary : bool;
  autoFocus : bool
}.
End ForkCreateRequest.

(** The state cells of the [useForks] hook. *)
Module UseForks.
Record t := mk {
  forks : list Fork.t;
  loading : bool;
  error : option string
}.
End UseForks.

(** The state cells of [ForkTerminalUI] the fork logic reads or writes,
    with the hook's cells and the [forkIdCounter] ref. *)
Module State.
Record t := mk {
  settings : Settings.t;
  agents : gmap string AgentConfig.t;
  selectedAgent : string;
  modelTier : ModelTier;
  prompt : string;
  includeSummary : bool;
  showLaunchAnimation : bool;
  multiForkQueue : list QueueItem.t;
  terminalOutput : list TerminalLine.t;
  localForks : list Fork.t;
  forkIdCounter : nat;
  useForks : UseForks.t
}.
End State.

(** [const { forks: apiForks, ... } = useForks()] *)
Definition apiForks (st : State.t) : list Fork.t := UseForks.forks (State.useForks st).

(** *** State setters, one per [setX] of the source *)

Definition setLocalForks (g : list Fork.t -> list Fork.t) (st : State.t) : State.t :=
  State.mk (State.settings st) (State.agents st) (State.selectedAgent st)
    (State.modelTier st) (State.prompt st) (State.includeSummary st)
    (State.showLaunchAnimation st) (State.multiForkQueue st)
    (State.terminalOutput st) (g (State.localForks st))
    (State.forkIdCounter st) (State.useForks st).

Definition setTerminalOutput (g : list TerminalLine.t -> list TerminalLine.t)
    (st : State.t) : State.t :=
  State.mk (State.settings st) (State.agents st) (State.selectedAgent st)
    (State.modelTier st) (State.prompt st) (State.includeSummary st)
    (State.showLaunchAnimation st) (State.multiForkQueue st)
    (g (State.terminalOutput st)) (State.localForks st)
    (State.forkIdCounter st) (State.useForks st).

Definition setShowLaunchAnimation (b : bool) (st : State.t) : State.t :=
  State.mk (State.settings st) (State.agents st) (State.selectedAgent st)
    (State.modelTier st) (State.prompt st) (State.includeSummary st)
    b (State.multiForkQueue st)
    (State.terminalOutput st) (State.localForks st)
    (State.forkIdCounter st) (State.useForks st).

Definition setPrompt (p : string) (st : State.t) : State.t :=
  State.mk (State.settings st) (State.agents st) (State.selectedAgent st)
    (State.modelTier st) p (State.includeSummary st)
    (State.showLaunchAnimation st) (State.multiForkQueue st)
    (State.terminalOutput st) (State.localForks st)
    (State.forkIdCounter st) (State.useForks st).

Definition setMultiForkQueue (q : list QueueItem.t) (st : State.t) : State.t :=
  State.mk (State.settings st) (State.agents st) (State.selectedAgent st)
    (State.modelTier st) (State.prompt st) (State.includeSummary st)
    (State.showLaunchAnimation st) q
    (State.terminalOutput st) (State.localForks st)
    (State.forkIdCounter st) (State.useForks st).

(** [forkIdCounter.current = n] *)
Definition setForkIdCounter (n : nat) (st : State.t) : State.t :=
  State.mk (State.settings st) (State.agents st) (State.selectedAgent st)
    (State.modelTier st) (State.prompt st) (State.includeSummary st)
    (State.showLaunchAnimation st) (State.multiForkQueue st)
    (State.terminalOutput st) (State.localForks st)
    n (State.useForks st).

Definition setUseForks (g : UseForks.t -> UseForks.t) (st : State.t) : State.t :=
  State.mk (State.settings st) (State.agents st) (State.selectedAgent st)
    (State.modelTier st) (State.prompt st) (State.includeSummary st)
    (State.showLaunchAnimation st) (State.multiForkQueue st)
    (State.terminalOutput st) (State.localForks st)
    (State.forkIdCounter st) (g (State.useForks st)).

(** [setForks(prev => ...)] of the hook *)
Definition setForks (g : list Fork.t -> list Fork.t) (u : UseForks.t) : UseForks.t :=
  UseForks.mk (g (UseForks.forks u)) (UseForks.loading u) (UseForks.error u).

(** [setError(e)] of the hook *)
Definition setError (e : option string) (u : UseForks.t) : UseForks.t :=
  UseForks.mk (UseForks.forks u) (UseForks.loading u) e.

(** [setLoading(b)] of the hook *)
Definition setLoading (b : bool) (u : UseForks.t) : UseForks.t :=
  UseForks.mk (UseForks.forks u) b (UseForks.error u).

(** The component's [addTerminalLine], as a state update. *)
Definition logLine (type : TerminalLine.kind) (text : string) (now : Z)
    (st : State.t) : State.t :=
  setTerminalOutput (addTerminalLine type text now) st.

(** ** Text helpers *)

(** The double-quote character, for message templates. *)
Definition dquote : string := String (Ascii.ascii_of_nat 34) EmptyString.

(** One-byte white space and line terminators: U+0009..U+000D, U+0020. *)
Definition ws1 (a : Ascii.ascii) : bool :=
  let n := Ascii.nat_of_ascii a in
  ((9 <=? n)%nat && (n <=? 13)%nat) || (n =? 32)%nat.

(** U+00A0 in UTF-8. *)
Definition ws2 (a b : Ascii.ascii) : bool :=
  (Ascii.nat_of_ascii a =? 194)%nat && (Ascii.nat_of_ascii b =? 160)%nat.

(** The three-byte ones: U+1680, U+2000..U+200A, U+2028, U+2029, U+202F,
    U+205F, U+3000, U+FEFF. *)
Definition ws3 (a b c : Ascii.ascii) : bool :=
  let x := Ascii.nat_of_ascii a in
  let y := Ascii.nat_of_ascii b in
  let z := Ascii.nat_of_ascii c in
  ((x =? 225) && (y =? 154) && (z =? 128))%nat
  || ((x =? 226) && (y =? 128) && ((128 <=? z) && (z <=? 138) || (z =? 168) || (z =? 169) || (z =? 175)))%nat
  || ((x =? 226) && (y =? 129) && (z =? 159))%nat
  || ((x =? 227) && (y =? 128) && (z =? 128))%nat
  || ((x =? 239) && (y =? 187) && (z =? 191))%nat.

(** [!s.trim()]: the string holds nothing but white space. *)
Fixpoint blank (s : string) : bool :=
  match s with
  | EmptyString => true
  | String a r =>
      if ws1 a then blank r
      else
        match r with
        | String b r2 =>
            if ws2 a b then blank r2
            else
              match r2 with
              | String c r3 => if ws3 a b c then blank r3 else false
              | EmptyString => false
              end
        | EmptyString => false
        end
  end.

(** Text is UTF-8 here, and [length] and [slice] of the source count
    UTF-16 units.  A byte from 128 to 191 continues a character; a lead
    byte from 240 on starts a character of two units, any other lead byte
    one of a single unit. *)
Definition is_continuation (b : Ascii.ascii) : bool :=
  let n := Ascii.nat_of_ascii b in ((128 <=? n) && (n <? 192))%nat.

Definition units (b : Ascii.ascii) : nat :=
  if is_continuation b then 0%nat
  else if (240 <=? Ascii.nat_of_ascii b)%nat then 2%nat else 1%nat.

(** [s.length] *)
Fixpoint js_length (s : string) : nat :=
  match s with
  | EmptyString => 0%nat
  | String b r => (units b + js_length r)%nat
  end.

(** The first unit, a high surrogate, of the character whose bytes start
    with [b0 b1 b2]; a lone surrogate is written in the three-byte form. *)
Definition high_surrogate (b0 b1 b2 : Ascii.ascii) : string :=
  let top := ((Ascii.N_of_ascii b0 mod 8) * 256 + (Ascii.N_of_ascii b1 mod 64) * 4
              + (Ascii.N_of_ascii b2 mod 64) / 16)%N in
  let hs := (55296 + top - 64)%N in
  String (Ascii.ascii_of_nat 237)
    (String (Ascii.ascii_of_N (128 + (hs / 64) mod 64))
       (String (Ascii.ascii_of_N (128 + hs mod 64)) EmptyString)).

(** [s.slice(0, n)]: the cut may fall inside a character of two units,
    whose first unit is then kept alone. *)
Fixpoint js_slice_to (n : nat) (s : string) : string :=
  match s with
  | EmptyString => EmptyString
  | String b r =>
      if is_continuation b then String b (js_slice_to n r)
      else
        match n with
        | O => EmptyString
        | S n' =>
            if (240 <=? Ascii.nat_of_ascii b)%nat then
              match n' with
              | O =>
                  match r with
                  | String b1 (String b2 _) => high_surrogate b b1 b2
                  | _ => EmptyString
                  end
              | S n'' => String b (js_slice_to n'' r)
              end
            else String b (js_slice_to n' r)
        end
  end.

(** [`${task.slice(0, 60)}${task.length > 60 ? '...' : ''}`] *)
Definition task_preview (task : string) : string :=
  js_slice_to 60 task +:+ (if (60 <? js_length task)%nat then "..." else EmptyString).

(** ** The local registry: [ForkTerminalUI] *)

(** [f.id === id ? g(f) : f] under [prev.map]. *)
Definition mapFork (id : string) (g : Fork.t -> Fork.t) (l : list Fork.t) : list Fork.t :=
  (fun f => if decide (Fork.id f = id) then g f else f) <$> l.

(** The admission check.  It is a [useCallback] over
    [[localForks, settings.maxConcurrent]]: it counts the registry of the
    render that created it, [cap], not the registry at the time it runs. *)
Definition canLaunchFork (cap : State.t) : bool :=
  let runningCount :=
    length (filter (fun f => is_active (Fork.status f) = true) (State.localForks cap)) in
  Z.of_nat runningCount <? Settings.maxConcurrent (State.settings cap).

(** [createLocalFork] raises a [TypeError] in [agentConfig?.models[tier]]
    when [agents[agent]] finds an inherited member: it is not nullish, its
    [models] is [undefined], and indexing [undefined] throws.  The counter
    has moved by then. *)
Definition createLocalFork_throws (cap : State.t) (agent : string) : bool :=
  inherited (State.agents cap) agent.

(** [agentConfig?.models[tier] || 'N/A'], when it does not throw. *)
Definition model_name (agents : gmap string AgentConfig.t) (agent : string)
    (tier : ModelTier) : string :=
  or_default ((fun c => AgentConfig.model_of c tier) <$> agents !! agent) "N/A".

(** [`local-${n}`] *)
Definition local_id (n : nat) : string := "local-" +:+ pretty n.

(** [createLocalFork]: [agents] comes from the render, the counter from
    the ref; returns the record and the incremented counter.  This is the
    call that returns; [createLocalFork_throws] tells the one that does
    not.  [launchSingleFork], the queue and the workflows hand it an
    agent picked among the own entries of the table or written in a
    template; [retryFork] hands it whatever the fork carries. *)
Definition createLocalFork (cap : State.t) (agent : string) (tier : ModelTier)
    (taskPrompt : string) (opt_includeSummary : option bool)
    (opt_workflowId : option string) (now : Z) (counter : nat) : Fork.t * nat :=
  (Fork.mk (local_id counter) agent (model_name (State.agents cap) agent tier) tier
     queued taskPrompt taskPrompt now None None 0%Q None []
     (match opt_includeSummary with Some b => b | None => false end)
     opt_workflowId,
   S counter).

(** [{ ...f, status: 'spawning', startedAt: new Date().toISOString() }] *)
Definition to_spawning (now : Z) (f : Fork.t) : Fork.t :=
  Fork.mk (Fork.id f) (Fork.agent f) (Fork.model f) (Fork.modelTier f) spawning
    (Fork.task f) (Fork.prompt f) now (Fork.completedAt f) (Fork.duration f)
    (Fork.progress f) (Fork.pid f) (Fork.output f) (Fork.includeSummary f)
    (Fork.workflowId f).

(** [{ ...f, id: result.id, status: 'running', progress: 5, pid }] *)
Definition to_running (new_id : string) (new_pid : Z) (f : Fork.t) : Fork.t :=
  Fork.mk new_id (Fork.agent f) (Fork.model f) (Fork.modelTier f) running
    (Fork.task f) (Fork.prompt f) (Fork.startedAt f) (Fork.completedAt f)
    (Fork.duration f) 5%Q (Some new_pid) (Fork.output f) (Fork.includeSummary f)
    (Fork.workflowId f).

(** [{ ...f, status: s }] *)
Definition with_status (s : ForkStatus) (f : Fork.t) : Fork.t :=
  Fork.mk (Fork.id f) (Fork.agent f) (Fork.model f) (Fork.modelTier f) s
    (Fork.task f) (Fork.prompt f) (Fork.startedAt f) (Fork.completedAt f)
    (Fork.duration f) (Fork.progress f) (Fork.pid f) (Fork.output f)
    (Fork.includeSummary f) (Fork.workflowId f).

(** [{ ...f, status: 'cancelled', completedAt: new Date().toISOString() }] *)
Definition to_cancelled (now : Z) (f : Fork.t) : Fork.t :=
  Fork.mk (Fork.id f) (Fork.agent f) (Fork.model f) (Fork.modelTier f) cancelled
    (Fork.task f) (Fork.prompt f) (Fork.startedAt f) (Some now)
    (Fork.duration f) (Fork.progress f) (Fork.pid f) (Fork.output f)
    (Fork.includeSummary f) (Fork.workflowId f).

(** [pid] is truthy: present and not zero. *)
Definition truthy_pid (p : option Z) : option Z :=
  match p with
  | Some 0 | None => None
  | Some n => Some n
  end.

(** [Math.floor(Math.random() * 90000) + 10000], [r] being the draw. *)
Definition random_pid (r : Q) : Z := Qfloor (fl (r * 90000)) + 10000.

(** The hook's [createFork], after the Gateway answered [resp]. *)
Definition apiCreateFork (resp : ApiResponse Fork.t) (u : UseForks.t)
    : UseForks.t * option Fork.t :=
  match success resp, data resp with
  | true, Some d => (setForks (cons d) u, Some d)
  | _, _ => (setError (Some (or_default (error resp) "Failed to create fork")) u, None)
  end.

(** The hook's [terminateFork], after the Gateway answered [resp]. *)
Definition terminateFork (id : string) (resp : ApiResponse string) (u : UseForks.t)
    : UseForks.t * bool :=
  if success resp then (setForks (mapFork id (with_status terminated)) u, true)
  else (setError (Some (or_default (error resp) "Failed to terminate fork")) u, false).

(** The argument of [apiCreateFork] in [launchFork]; [autoFocus] is the
    setting of the render. *)
Definition createRequest (cap : State.t) (fork : Fork.t) : ForkCreateRequest.t :=
  ForkCreateRequest.mk (Fork.agent fork) (Fork.modelTier fork) (Fork.prompt fork)
    (Fork.includeSummary fork) (Settings.autoFocus (State.settings cap)).

(** [launchFork], up to the [await]: the admission check, then the move
    to [spawning] with its two log lines.  The result carries the body of
    the Gateway create call when one is made. *)
Definition launchFork_begin (cap : State.t) (fork : Fork.t) (now : Z) (st : State.t)
    : State.t * option ForkCreateRequest.t :=
  if negb (canLaunchFork cap) then
    (logLine TerminalLine.warning
       ("Max concurrent forks (" +:+ pretty (Settings.maxConcurrent (State.settings cap))
          +:+ ") reached. Waiting...") now st,
     None)
  else
    let st1 := setLocalForks (mapFork (Fork.id fork) (to_spawning now)) st in
    let agentName :=
      if inherited (State.agents cap) (Fork.agent fork)
         && bool_decide (Fork.agent fork = "constructor")
      then "Object"
      else or_default (AgentConfig.name <$> State.agents cap !! Fork.agent fork)
             (Fork.agent fork) in
    let st2 := logLine TerminalLine.spawn
                 ("Spawning " +:+ agentName +:+ " [" +:+ Fork.model fork +:+ "]...") now st1 in
    let st3 := logLine TerminalLine.info
                 ("Task: " +:+ dquote +:+ task_preview (Fork.task fork) +:+ dquote) now st2 in
    (st3, Some (createRequest cap fork)).

(** [launchFork], from the [await] on: [resp] is the Gateway's answer,
    [r] the draw used when the answer carries no pid. *)
Definition launchFork_resume (fork : Fork.t) (resp : ApiResponse Fork.t) (r : Q)
    (now : Z) (st : State.t) : State.t :=
  let '(u, result) := apiCreateFork resp (State.useForks st) in
  let st1 := setUseForks (fun _ => u) st in
  match result with
  | Some res =>
      let new_pid := match truthy_pid (Fork.pid res) with
                     | Some p => p
                     | None => random_pid r
                     end in
      let st2 := setLocalForks (mapFork (Fork.id fork) (to_running (Fork.id res) new_pid)) st1 in
      logLine TerminalLine.success
        ("✓ Fork #" +:+ Fork.id res +:+ " launched [PID: "
           +:+ match truthy_pid (Fork.pid res) with Some p => pretty p | None => "N/A" end
           +:+ "]") now st2
  | None =>
      let st2 := setLocalForks (mapFork (Fork.id fork) (with_status failed)) st1 in
      logLine TerminalLine.error "✗ Failed to launch fork" now st2
  end.

(** What the environment supplies to one run of [launchFork]. *)
Record LaunchInput := mkLaunchInput {
  t_begin : Z;                    (* clock at the admission check *)
  response : ApiResponse Fork.t;  (* the Gateway's answer to the create call *)
  pid_draw : Q;                   (* [Math.random()] for the fallback pid *)
  t_end : Z                       (* clock when the answer is handled *)
}.

(** One whole run of [launchFork], with nothing interleaved at the
    [await]. *)
Definition launchFork (cap : State.t) (fork : Fork.t) (inp : LaunchInput)
    (st : State.t) : State.t * option ForkCreateRequest.t :=
  match launchFork_begin cap fork (t_begin inp) st with
  | (st1, Some req) =>
      (launchFork_resume fork (response inp) (pid_draw inp) (t_end inp) st1, Some req)
  | (st1, None) => (st1, None)
  end.

(** *** Launch paths *)

(** [launchSingleFork], the synchronous part: nothing happens on a blank
    prompt; otherwise the fork is created and put in front of the
    registry.  The timer that follows runs [launchSingleFork_timer] with
    the state of this call as its captured render. *)
Definition launchSingleFork_begin (now : Z) (st : State.t) : option (State.t * Fork.t) :=
  if blank (State.prompt st) then None
  else
    let st1 := setShowLaunchAnimation true st in
    let '(fork, n) :=
      createLocalFork st (State.selectedAgent st) (State.modelTier st) (State.prompt st)
        (Some (State.includeSummary st)) None now (State.forkIdCounter st) in
    let st2 := setForkIdCounter n st1 in
    Some (setLocalForks (cons fork) st2, fork).

(** The body of the 300 ms timer of [launchSingleFork].  The timer was
    set by the [launchSingleFork] of the render [cap], so the
    [launchFork] it calls, and the [canLaunchFork] inside, are those of
    [cap]: the fork just created is not in the registry they read. *)
Definition launchSingleFork_timer (cap : State.t) (fork : Fork.t) (inp : LaunchInput)
    (st : State.t) : State.t * option ForkCreateRequest.t :=
  let '(st1, req) := launchFork cap fork inp st in
  (setPrompt EmptyString (setShowLaunchAnimation false st1), req).

(** A single launch from click to settled fork, nothing interleaved. *)
Definition launchSingleFork (now : Z) (inp : LaunchInput) (st : State.t)
    : State.t * option ForkCreateRequest.t :=
  match launchSingleFork_begin now st with
  | Some (st1, fork) => launchSingleFork_timer st fork inp st1
  | None => (st, None)
  end.

(** A launch specification handed to [createLocalFork] by a batch. *)
Record LaunchSpec := mkLaunchSpec {
  spec_agent : string;
  spec_tier : ModelTier;
  spec_prompt : string;
  spec_includeSummary : option bool;
  spec_workflowId : option string
}.

(** [specs.map(item => createLocalFork(...))]: the counter advances once
    per item, in order. *)
Fixpoint createLocalForks (cap : State.t) (specs : list LaunchSpec) (now : Z)
    (counter : nat) : list Fork.t * nat :=
  match specs with
  | [] => ([], counter)
  | s :: rest =>
      let '(f, n) := createLocalFork cap (spec_agent s) (spec_tier s) (spec_prompt s)
                       (spec_includeSummary s) (spec_workflowId s) now counter in
      let '(fs, n') := createLocalForks cap rest now n in
      (f :: fs, n')
  end.

(** The staggered loop [for (i ...) { await delay; await launchFork(newForks[i]) }].
    Every iteration calls the [launchFork] of the render that started the
    batch.  [inps i] is what the environment supplies to iteration [i];
    the result lists the Gateway create calls made, one slot per item. *)
Fixpoint dispatchAll (cap : State.t) (forks : list Fork.t) (inps : nat -> LaunchInput)
    (i : nat) (st : State.t) : State.t * list (option ForkCreateRequest.t) :=
  match forks with
  | [] => (st, [])
  | f :: rest =>
      let '(st1, req) := launchFork cap f (inps i) st in
      let '(st2, reqs) := dispatchAll cap rest inps (S i) st1 in
      (st2, req :: reqs)
  end.

Definition spec_of_queue_item (item : QueueItem.t) : LaunchSpec :=
  mkLaunchSpec (QueueItem.agent item) (QueueItem.modelTier item) (QueueItem.prompt item)
    (Some (QueueItem.includeSummary item)) None.

Definition spec_of_workflow_fork (workflowId : string) (item : WorkflowFork.t) : LaunchSpec :=
  mkLaunchSpec (WorkflowFork.agent item) (WorkflowFork.modelTier item)
    (WorkflowFork.prompt item) None (Some workflowId).

(** [launchMultiFork] up to the loop. *)
Definition launchMultiFork_begin (now : Z) (st : State.t) : option (State.t * list Fork.t) :=
  match State.multiForkQueue st with
  | [] => None
  | q =>
      let st1 := setShowLaunchAnimation true st in
      let st2 := logLine TerminalLine.workflow
                   ("Launching " +:+ pretty (length q) +:+ " forks in sequence...") now st1 in
      let '(newForks, n) :=
        createLocalForks st (spec_of_queue_item <$> q) now (State.forkIdCounter st) in
      let st3 := setForkIdCounter n st2 in
      Some (setLocalForks (fun prev => newForks ++ prev) st3, newForks)
  end.

(** [launchMultiFork], nothing interleaved between its steps. *)
Definition launchMultiFork (now : Z) (inps : nat -> LaunchInput) (st : State.t)
    : State.t * list (option ForkCreateRequest.t) :=
  match launchMultiFork_begin now st with
  | Some (st1, newForks) =>
      let '(st2, reqs) := dispatchAll st newForks inps 0 st1 in
      (setMultiForkQueue [] (setShowLaunchAnimation false st2), reqs)
  | None => (st, [])
  end.

(** [launchWorkflow] up to the loop. *)
Definition launchWorkflow_begin (workflow : WorkflowTemplate.t) (now : Z) (st : State.t)
    : State.t * list Fork.t :=
  let st1 := setShowLaunchAnimation true st in
  let st2 := logLine TerminalLine.workflow
               ("Launching workflow: " +:+ WorkflowTemplate.name workflow) now st1 in
  let '(newForks, n) :=
    createLocalForks st
      (spec_of_workflow_fork (WorkflowTemplate.id workflow) <$> WorkflowTemplate.forks workflow)
      now (State.forkIdCounter st) in
  let st3 := setForkIdCounter n st2 in
  (setLocalForks (fun prev => newForks ++ prev) st3, newForks).

(** [launchWorkflow], nothing interleaved between its steps. *)
Definition launchWorkflow (workflow : WorkflowTemplate.t) (now : Z)
    (inps : nat -> LaunchInput) (st : State.t)
    : State.t * list (option ForkCreateRequest.t) :=
  let '(st1, newForks) := launchWorkflow_begin workflow now st in
  let '(st2, reqs) := dispatchAll st newForks inps 0 st1 in
  (setShowLaunchAnimation false st2, reqs).

(** *** Cancel, retry, history *)

(** The local half of [cancelFork]: the guarded move to [cancelled]. *)
Definition cancelFork_local (forkId : string) (now : Z) (l : list Fork.t) : list Fork.t :=
  (fun f => if bool_decide (Fork.id f = forkId) && is_active (Fork.status f)
            then to_cancelled now f else f) <$> l.

(** [cancelFork(forkId)]: the hook's [terminateFork] first, then the
    local registry, then the log line. *)
Definition cancelFork (forkId : string) (resp : ApiResponse string) (now : Z)
    (st : State.t) : State.t :=
  let st1 := setUseForks (fun u => fst (terminateFork forkId resp u)) st in
  let st2 := setLocalForks (cancelFork_local forkId now) st1 in
  logLine TerminalLine.warning ("Fork #" +:+ forkId +:+ " cancelled") now st2.

(** [retryFork(fork)], the synchronous part; its timer then runs
    [launchFork] on the new fork with the state of this call as its
    captured render.  The agent is the fork's own, which no table
    vouches for: when [createLocalFork] throws, the counter has moved and
    nothing else happens. *)
Definition retryFork_begin (fork : Fork.t) (now : Z) (st : State.t)
    : State.t * option Fork.t :=
  if createLocalFork_throws st (Fork.agent fork) then
    (setForkIdCounter (S (State.forkIdCounter st)) st, None)
  else
    let '(newFork, n) :=
      createLocalFork st (Fork.agent fork) (Fork.modelTier fork) (Fork.task fork)
        (Some (Fork.includeSummary fork)) (Fork.workflowId fork) now (State.forkIdCounter st) in
    (setLocalForks (cons newFork) (setForkIdCounter n st), Some newFork).


Definition clearHistory (now : Z) (st : State.t) : State.t :=
  logLine TerminalLine.system "Fork history cleared" now
    (setLocalForks (filter (fun f => is_active (Fork.status f) = true)) st).

(** *** The merged view *)

(** [allForks]: the local registry, then every Gateway fork whose id no
    local record carries.  [Fork.output] already has the canonical shape
    by its type, so the normalising [map] is the identity. *)
Definition allForks (st : State.t) : list Fork.t :=
  State.localForks st ++
  filter (fun apiFork =>
            ~ Exists (fun lf => Fork.id lf = Fork.id apiFork) (State.localForks st))
         (apiForks st).

(** [allForks.find(f => f.id === id)] *)
Definition findFork (id : string) (l : list Fork.t) : option Fork.t :=
  List.find (fun f => bool_decide (Fork.id f = id)) l.

(** *** The progress tick *)

Definition Qltb (a b : Q) : bool := negb (Qle_bool b a).

(** [getRandomOutput(agent)], [r] being the draw.  [outputs[agent]] is
    an own table for the four agents; for a name inherited from
    [Object.prototype] it is a function or the prototype, which is truthy
    and holds nothing at the index computed from its [length], so the
    result is [undefined]; any other name gets the [raw] table.  A table
    indexed out of its range gives [undefined] too. *)
Definition getRandomOutput (r : Q) (agent : string) : option string :=
  let claude_out := [ "Analyzing code structure..."; "Identifying patterns...";
                      "Generating suggestions..."; "Running static analysis...";
                      "Checking dependencies..." ] in
  let codex_out := [ "Parsing AST..."; "Evaluating complexity..."; "Generating tests...";
                     "Optimizing logic..."; "Validating syntax..." ] in
  let gemini_out := [ "Processing request..."; "Analyzing context...";
                      "Generating documentation..."; "Reviewing structure...";
                      "Compiling results..." ] in
  let raw_out := [ "Executing command..."; "Processing output...";
                   "Waiting for response..." ] in
  let list :=
    if decide (agent = "claude") then Some claude_out
    else if decide (agent = "codex") then Some codex_out
    else if decide (agent = "gemini") then Some gemini_out
    else if decide (agent = "raw") then Some raw_out
    else if bool_decide (agent ∈ object_prototype_members) then None
    else Some raw_out in
  match list with
  | Some list =>
      let i := Qfloor (fl (r * inject_Z (Z.of_nat (length list)))) in
      if i <? 0 then None else list !! Z.to_nat i
  | None => None
  end.

(** What the environment supplies to one fork in a tick: the four
    [Math.random()] draws it may consume, in the order of the source, and
    its three clock reads. *)
Record TickRandom := mkTickRandom {
  r_increment : Q;
  r_emit : Q;
  r_pick : Q;
  r_outcome : Q;
  t_output : Z;      (* [new Date()] of the output line *)
  t_completedAt : Z; (* [new Date()] of [completedAt] *)
  t_duration : Z     (* [Date.now()] of [duration] *)
}.

(** The body of the [map] callback of the 1500 ms interval.  The
    literals [0.7] and [0.1] are the doubles nearest to them. *)
Definition tickFork (rnd : TickRandom) (fork : Fork.t) : Fork.t :=
  if bool_decide (Fork.status fork = running) && Qltb (Fork.progress fork) 100 then
    let increment := fl (fl (r_increment rnd * 8) + 2) in
    let newProgress := Qmin 100 (fl (Fork.progress fork + increment)) in
    let newOutput :=
      if Qltb (fl 0.7) (r_emit rnd)
      then Fork.output fork
             ++ [mkOutputLine (t_output rnd) (getRandomOutput (r_pick rnd) (Fork.agent fork))]
      else Fork.output fork in
    if Qle_bool 100 newProgress then
      Fork.mk (Fork.id fork) (Fork.agent fork) (Fork.model fork) (Fork.modelTier fork)
        (if Qltb (fl 0.1) (r_outcome rnd) then completed else failed)
        (Fork.task fork) (Fork.prompt fork) (Fork.startedAt fork) (Some (t_completedAt rnd))
        (Some (t_duration rnd - Fork.startedAt fork)) 100%Q (Fork.pid fork) newOutput
        (Fork.includeSummary fork) (Fork.workflowId fork)
    else
      Fork.mk (Fork.id fork) (Fork.agent fork) (Fork.model fork) (Fork.modelTier fork)
        (Fork.status fork) (Fork.task fork) (Fork.prompt fork) (Fork.startedAt fork)
        (Fork.completedAt fork) (Fork.duration fork) newProgress (Fork.pid fork) newOutput
        (Fork.includeSummary fork) (Fork.workflowId fork)
  else fork.

(** [setLocalForks(prev => prev.map(tick))]; [rnd i] holds the draws and
    clock reads of the fork at position [i]. *)
Definition progressTick (rnd : nat -> TickRandom) (st : State.t) : State.t :=
  setLocalForks (imap (fun i f => tickFork (rnd i) f)) st.

(** ** The Gateway mirror: [useForks] *)

(** The messages of the push channel; [config_update] has no handler. *)
Inductive WebSocketMessage :=
  | fork_update (updatedFork : Fork.t)
  | fork_output (forkId : string) (output : string)
  | fork_completed (forkId : string)
  | fork_failed (forkId : string) (forkError : string)
  | config_update.

(** [{ ...f, output: [...f.output, { time: new Date(), text }] }] *)
Definition append_output (now : Z) (text : string) (f : Fork.t) : Fork.t :=
  Fork.mk (Fork.id f) (Fork.agent f) (Fork.model f) (Fork.modelTier f) (Fork.status f)
    (Fork.task f) (Fork.prompt f) (Fork.startedAt f) (Fork.completedAt f)
    (Fork.duration f) (Fork.progress f) (Fork.pid f)
    (Fork.output f ++ [mkOutputLine now (Some text)]) (Fork.includeSummary f)
    (Fork.workflowId f).

(** [{ ...f, status: 'completed', progress: 100, completedAt: new Date().toISOString() }] *)
Definition to_completed (now : Z) (f : Fork.t) : Fork.t :=
  Fork.mk (Fork.id f) (Fork.agent f) (Fork.model f) (Fork.modelTier f) completed
    (Fork.task f) (Fork.prompt f) (Fork.startedAt f) (Some now)
    (Fork.duration f) 100%Q (Fork.pid f) (Fork.output f) (Fork.includeSummary f)
    (Fork.workflowId f).

(** [{ ...f, status: 'failed', output: [...f.output, { time, text: `Error: ${forkError}` }] }] *)
Definition to_failed (now : Z) (forkError : string) (f : Fork.t) : Fork.t :=
  with_status failed (append_output now ("Error: " +:+ forkError) f).

Definition on_fork_update (updatedFork : Fork.t) (prev : list Fork.t) : list Fork.t :=
  mapFork (Fork.id updatedFork) (fun _ => updatedFork) prev.

Definition on_fork_output (forkId output : string) (now : Z) (prev : list Fork.t)
    : list Fork.t :=
  mapFork forkId (append_output now output) prev.

Definition on_fork_completed (forkId : string) (now : Z) (prev : list Fork.t)
    : list Fork.t :=
  mapFork forkId (to_completed now) prev.

Definition on_fork_failed (forkId forkError : string) (now : Z) (prev : list Fork.t)
    : list Fork.t :=
  mapFork forkId (to_failed now forkError) prev.

(** What the registered handlers do to the hook's list on one message. *)
Definition handleMessage (m : WebSocketMessage) (now : Z) (prev : list Fork.t)
    : list Fork.t :=
  match m with
  | fork_update updatedFork => on_fork_update updatedFork prev
  | fork_output forkId output => on_fork_output forkId output now prev
  | fork_completed forkId => on_fork_completed forkId now prev
  | fork_failed forkId forkError => on_fork_failed forkId forkError now prev
  | config_update => prev
  end.

(** A message delivered to the mounted component. *)
Definition receive (m : WebSocketMessage) (now : Z) (st : State.t) : State.t :=
  setUseForks (setForks (handleMessage m now)) st.

(** [fetchForks], after the Gateway answered [resp]. *)
Definition fetchForks (resp : ApiResponse (list Fork.t)) (u : UseForks.t) : UseForks.t :=
  setLoading false
    match success resp, data resp with
    | true, Some d => setError None (setForks (fun _ => d) u)
    | _, _ => setError (Some (or_default (error resp) "Failed to fetch forks")) u
    end.

(** ** Operations as labelled steps *)

(** The operations and events that can reach a mounted component after a
    fork exists, each with what the environment supplies to it. *)
Inductive Op :=
  | OpCancelFork (forkId : string) (resp : ApiResponse string) (now : Z)
  | OpTerminateFork (forkId : string) (resp : ApiResponse string)
  | OpMessage (m : WebSocketMessage) (now : Z)
  | OpTick (rnd : nat -> TickRandom).

Definition apply_op (o : Op) (st : State.t) : State.t :=
  match o with
  | OpCancelFork forkId resp now => cancelFork forkId resp now st
  | OpTerminateFork forkId resp => setUseForks (fun u => fst (terminateFork forkId resp u)) st
  | OpMessage m now => receive m now st
  | OpTick rnd => progressTick rnd st
  end.

Definition apply_ops (os : list Op) (st : State.t) : State.t :=
  foldl (fun s o => apply_op o s) st os.

(** ** Initial state and sample data *)

Definition DEFAULT_AGENTS : gmap string AgentConfig.t :=
  <["claude" := AgentConfig.mk "claude" "Claude Code" "◈" "#FF6B35" true
                  (AgentConfig.mkModels "haiku" "opus" "opus") EmptyString []]>
  (<["codex" := AgentConfig.mk "codex" "Codex CLI" "◆" "#00D4AA" true
                  (AgentConfig.mkModels "gpt-5.1-codex-mini" "gpt-5.1-codex-max" "gpt-5.1-codex-max") EmptyString []]>
  (<["gemini" := AgentConfig.mk "gemini" "Gemini CLI" "◇" "#8B5CF6" true
                  (AgentConfig.mkModels "gemini-2.5-flash" "gemini-3-pro-preview" "gemini-3-pro") EmptyString []]>
  (<["raw" := AgentConfig.mk "raw" "Raw CLI" "▢" "#64748B" true
                  (AgentConfig.mkModels "N/A" "N/A" "N/A") EmptyString []]> ∅))).

(** The settings used when nothing was saved. *)
Definition defaultSettings : Settings.t := Settings.mk true true 5 default cyberpunk.

(** The component right after mounting, before any answer of the
    Gateway: the fallback agents, an empty registry, the counter at 1. *)
Definition initialState (now : Z) : State.t :=
  State.mk defaultSettings DEFAULT_AGENTS "claude" default EmptyString false false []
    (initialTerminalOutput now) [] 1%nat (UseForks.mk [] true None).

(** The same with a ceiling, a prompt and both fork lists chosen. *)
Definition stateWith (maxConcurrent : Z) (prompt : string) (counter : nat)
    (localForks apiForks : list Fork.t) : State.t :=
  State.mk (Settings.mk true true maxConcurrent default cyberpunk) DEFAULT_AGENTS
    "claude" default prompt false false [] (initialTerminalOutput 0) localForks counter
    (UseForks.mk apiForks false None).

(** A fork of the [claude] agent as the Gateway or the registry may hold it. *)
Definition sampleFork (id : string) (s : ForkStatus) (out : list OutputLine) : Fork.t :=
  Fork.mk id "claude" "opus" default s "x" "x" 0 None None 0%Q None out false None.

(** A Gateway that accepts a create call and names the fork [id]. *)
Definition accepted (id : string) (p : option Z) : ApiResponse Fork.t :=
  mkApiResponse true
    (Some (Fork.mk id "claude" "opus" default running "x" "x" 0 None None 0%Q p [] false None))
    None.

Definition ok_response : ApiResponse string := mkApiResponse true (Some "terminated") None.

(** The ids of the Gateway in the samples: [g0], [g1], ... *)
Definition sampleInputs (i : nat) : LaunchInput :=
  mkLaunchInput 10 (accepted ("g" +:+ pretty i) (Some 4242)) 0%Q 20.

(** A queue of three launch specifications. *)
Definition sampleQueue : list QueueItem.t :=
  [ QueueItem.mk 1 "claude" default "a" false;
    QueueItem.mk 2 "codex" default "b" true;
    QueueItem.mk 3 "gemini" fast "c" false ].

(** The first entry of [WORKFLOW_TEMPLATES]. *)
Definition codeReviewAll : WorkflowTemplate.t :=
  WorkflowTemplate.mk "code-review-all" "Multi-Agent Code Review"
    "All 3 agents review code from different perspectives" "🔍"
    [ WorkflowFork.mk "claude" default
        "Review the codebase for architecture patterns and suggest improvements";
      WorkflowFork.mk "codex" default
        "Analyze code for potential bugs, edge cases, and error handling";
      WorkflowFork.mk "gemini" default
        "Review documentation completeness and suggest improvements" ].

(** One running local fork, the sample queue waiting, a chosen ceiling. *)
Definition busyState (maxConcurrent : Z) : State.t :=
  setMultiForkQueue sampleQueue
    (stateWith maxConcurrent EmptyString 2 [sampleFork "g0" running []] [sampleFork "g0" running []]).

(** ** Relations used to state the properties *)

(** [f'] is [f] with, at most, lines added at the end of its output. *)
Definition output_grows (f f' : Fork.t) : Prop :=
  Fork.id f' = Fork.id f /\ Fork.output f `prefix_of` Fork.output f'.

(** The fork id a message is about. *)
Definition message_id (m : WebSocketMessage) : option string :=
  match m with
  | fork_update updatedFork => Some (Fork.id updatedFork)
  | fork_output forkId _ | fork_completed forkId | fork_failed forkId _ => Some forkId
  | config_update => None
  end.

Definition is_fork_update (m : WebSocketMessage) : bool :=
  match m with fork_update _ => true | _ => false end.

(** An operation other than the delivery of a [fork_update]. *)
Definition keeps_records (o : Op) : bool :=
  match o with
  | OpMessage m _ => negb (is_fork_update m)
  | _ => true
  end.

(** The number of forks of a list in a given status. *)
Definition count_status (s : ForkStatus) (l : list Fork.t) : nat :=
  length (filter (fun f => Fork.status f = s) l).

(** The number of forks the admission check counts. *)
Definition count_active (l : list Fork.t) : nat :=
  length (filter (fun f => is_active (Fork.status f) = true) l).

(** ** The launch queue *)

(** [addToQueue]: nothing on a blank prompt; otherwise one item at the end
    of the queue, named after the clock, and the prompt is cleared. *)
Definition addToQueue (now : Z) (st : State.t) : State.t :=
  if blank (State.prompt st) then st
  else
    setPrompt EmptyString
      (setMultiForkQueue
         (State.multiForkQueue st
            ++ [QueueItem.mk now (State.selectedAgent st) (State.modelTier st)
                  (State.prompt st) (State.includeSummary st)])
         st).

(** [setMultiForkQueue(prev => prev.filter(item => item.id !== id))] *)
Definition removeFromQueue (id : Z) (st : State.t) : State.t :=
  setMultiForkQueue (filter (fun item => QueueItem.id item <> id) (State.multiForkQueue st)) st.

Definition clearQueue (st : State.t) : State.t := setMultiForkQueue [] st.

(** ** The lists and figures derived from the merged view *)

(** [allForks.filter(f => ['queued', 'spawning', 'running'].includes(f.status))] *)
Definition activeForks (st : State.t) : list Fork.t :=
  filter (fun f => is_active (Fork.status f) = true) (allForks st).

(** [allForks.filter(f => ['completed', 'failed', 'cancelled', 'terminated'].includes(f.status))] *)
Definition completedForks (st : State.t) : list Fork.t :=
  filter (fun f => is_terminal (Fork.status f) = true) (allForks st).

(** [allForks.filter(f => f.status === 'running').length] *)
Definition runningCount (st : State.t) : nat :=
  length (filter (fun f => Fork.status f = running) (allForks st)).

Module ForkStats.
Record t := mk {
  totalForks : nat;
  completedForks : nat;
  avgDuration : Q;
  agentUsage : list (string * nat)
}.
End ForkStats.

(** [f.duration] is truthy: present and not zero. *)
Definition truthy_duration (f : Fork.t) : option Z :=
  match Fork.duration f with
  | Some 0 | None => None
  | Some d => Some d
  end.

(** [allForks.filter(f => f.agent === a).length] *)
Definition usage (a : string) (l : list Fork.t) : nat :=
  length (filter (fun f => Fork.agent f = a) l).

(** The body of the statistics effect:
    [durations.reduce((a, b) => a + b, 0) / durations.length]. *)
Definition computeStats (l : list Fork.t) : ForkStats.t :=
  let completedL := filter (fun f => Fork.status f = completed) l in
  let durations : list Z := omap truthy_duration completedL in
  ForkStats.mk (length l) (length completedL)
    (if (0 <? length durations)%nat
     then fl (foldl (fun a b => fl (a + inject_Z b)) 0%Q durations
              / inject_Z (Z.of_nat (length durations)))
     else 0%Q)
    [ ("claude", usage "claude" l); ("codex", usage "codex" l);
      ("gemini", usage "gemini" l); ("raw", usage "raw" l) ].

(** ** The completion announcements *)

(** The effect over [[localForks]]: for each fork, the line it announces
    when the previous registry held that id as running and the fork is now
    completed or failed. *)
Definition announcement (prevForks : list Fork.t) (fork : Fork.t)
    : option (TerminalLine.kind * string) :=
  match findFork (Fork.id fork) prevForks with
  | Some prevFork =>
      if bool_decide (Fork.status prevFork = running) && bool_decide (Fork.status fork = completed)
      then Some (TerminalLine.success, "✓ Fork #" +:+ Fork.id fork +:+ " completed")
      else if bool_decide (Fork.status prevFork = running) && bool_decide (Fork.status fork = failed)
      then Some (TerminalLine.error, "✗ Fork #" +:+ Fork.id fork +:+ " failed")
      else None
  | None => None
  end.

(** What one run of the effect announces, in registry order. *)
Definition announcements (prevForks localForks : list Fork.t)
    : list (TerminalLine.kind * string) :=
  omap (announcement prevForks) localForks.

(** ** The listener table of [ForkWebSocket] *)

Module Listeners.

(** [Map<string, Set<callback>>]; a callback is known by its identity, a
    number here, and a [Set] is the list of its members in insertion
    order. *)
Definition t := gmap string (list nat).

Definition empty : t := ∅.

(** [Set.prototype.add]: a member stays where it is. *)
Definition set_add (cb : nat) (s : list nat) : list nat :=
  if decide (cb ∈ s) then s else s ++ [cb].

(** [Set.prototype.delete] *)
Definition set_delete (cb : nat) (s : list nat) : list nat :=
  filter (fun x => x <> cb) s.

(** The registration part of [on(event, callback)]. *)
Definition on (event : string) (cb : nat) (ls : t) : t :=
  let s := match ls !! event with Some s => s | None => [] end in
  <[event := set_add cb s]> ls.

(** The function [on] returns: [this.listeners.get(event)?.delete(callback)]. *)
Definition unsubscribe (event : string) (cb : nat) (ls : t) : t :=
  match ls !! event with
  | Some s => <[event := set_delete cb s]> ls
  | None => ls
  end.

(** [emit(event, data)]: the callbacks called, in order. *)
Definition emit (event : string) (ls : t) : list nat :=
  match ls !! event with Some s => s | None => [] end.

(** Every set of the table is one: no member twice. *)
Definition wf (ls : t) : Prop :=
  forall event s, ls !! event = Some s -> NoDup s.

End Listeners.

(** ** Further notions used to state the properties *)

(** What an accepted or refused create call makes of a fork that
    [launchFork] moved to [spawning]. *)
Definition settle (inp : LaunchInput) (f : Fork.t) : Fork.t :=
  match success (response inp), data (response inp) with
  | true, Some res =>
      to_running (Fork.id res)
        (match truthy_pid (Fork.pid res) with Some p => p | None => random_pid (pid_draw inp) end)
        (to_spawning (t_begin inp) f)
  | _, _ => with_status failed (to_spawning (t_begin inp) f)
  end.

(** No placeholder of the local registry is ahead of the counter. *)
Definition ids_below (counter : nat) (l : list Fork.t) : Prop :=
  Forall (fun f => forall n, Fork.id f = local_id n -> (n < counter)%nat) l.

(** The Gateway did not name the fork like a placeholder. *)
Definition foreign_id (resp : ApiResponse Fork.t) : Prop :=
  forall res n, data resp = Some res -> Fork.id res <> local_id n.

Definition is_tick (o : Op) : bool :=
  match o with OpTick _ => true | _ => false end.

(** Every increment draw an operation uses is a [Math.random()] value at
    least zero. *)
Definition draws_nonneg (o : Op) : Prop :=
  match o with
  | OpTick rnd => forall i, (0 <= r_increment (rnd i))%Q
  | _ => True
  end.

(** ** Sessions *)

(** The transitions of a mounted component, phase by phase: whatever a
    user, a timer, the Gateway or the push channel can make it do, in any
    order.  A launch appears as its phases, with any captured render and
    any fork, so that every interleaving of the real component is a
    sequence of these. *)
Inductive Action :=
  | ActLaunchSingleBegin (now : Z)
  | ActRetryBegin (fork : Fork.t) (now : Z)
  | ActLaunchMultiBegin (now : Z)
  | ActLaunchWorkflowBegin (workflow : WorkflowTemplate.t) (now : Z)
  | ActLaunchForkBegin (cap : State.t) (fork : Fork.t) (now : Z)
  | ActLaunchForkResume (fork : Fork.t) (resp : ApiResponse Fork.t) (r : Q) (now : Z)
  | ActOp (o : Op)
  | ActClearHistory (now : Z)
  | ActAddToQueue (now : Z)
  | ActRemoveFromQueue (id : Z)
  | ActClearQueue
  | ActFetchForks (resp : ApiResponse (list Fork.t)).

Definition perform (a : Action) (st : State.t) : State.t :=
  match a with
  | ActLaunchSingleBegin now =>
      match launchSingleFork_begin now st with Some (st1, _) => st1 | None => st end
  | ActRetryBegin fork now => fst (retryFork_begin fork now st)
  | ActLaunchMultiBegin now =>
      match launchMultiFork_begin now st with Some (st1, _) => st1 | None => st end
  | ActLaunchWorkflowBegin workflow now => fst (launchWorkflow_begin workflow now st)
  | ActLaunchForkBegin cap fork now => fst (launchFork_begin cap fork now st)
  | ActLaunchForkResume fork resp r now => launchFork_resume fork resp r now st
  | ActOp o => apply_op o st
  | ActClearHistory now => clearHistory now st
  | ActAddToQueue now => addToQueue now st
  | ActRemoveFromQueue id => removeFromQueue id st
  | ActClearQueue => clearQueue st
  | ActFetchForks resp => setUseForks (fetchForks resp) st
  end.

Definition session (acts : list Action) (st : State.t) : State.t :=
  foldl (fun s a => perform a s) st acts.

(** The Gateway names no fork like a placeholder in this transition. *)
Definition foreign_action (a : Action) : Prop :=
  match a with
  | ActLaunchForkResume _ resp _ _ => foreign_id resp
  | _ => True
  end.

(** The increment draws of a transition are not negative. *)
Definition action_draws_nonneg (a : Action) : Prop :=
  match a with
  | ActOp o => draws_nonneg o
  | _ => True
  end.

(** A running fork shows a progress from 5 up to, not including, 100. *)
Definition progress_in_range (f : Fork.t) : Prop :=
  Fork.status f = running -> (5 <= Fork.progress f)%Q /\ (Fork.progress f < 100)%Q.

(** * Properties *)

(** ** Rounding to the nearest double *)

Section Rounding.

Lemma pow2_pos (e : Z) : (0 < pow2 e)%Q.
Proof. apply Qpower_0_lt. reflexivity. Qed.

Lemma pow2_le (a b : Z) : a <= b -> (pow2 a <= pow2 b)%Q.
Proof. intros H. apply Qpower_le_compat_l; [exact H | discriminate]. Qed.

Lemma pow2_lt (a b : Z) : a < b -> (pow2 a < pow2 b)%Q.
Proof. intros H. apply Qpower_lt_compat_l; [exact H | reflexivity]. Qed.

Lemma pow2_lt_inv (a b : Z) : (pow2 a < pow2 b)%Q -> a < b.
Proof. intros H. eapply Qpower_lt_compat_l_inv; [exact H | reflexivity]. Qed.

Lemma pow2_add (a b : Z) : (pow2 (a + b) == pow2 a * pow2 b)%Q.
Proof. apply Qpower_plus. discriminate. Qed.

Lemma pow2_Z (e : Z) : 0 <= e -> (pow2 e == inject_Z (2 ^ e))%Q.
Proof. intros H. unfold pow2. by rewrite Zpower_Qpower. Qed.

Lemma Z_le_pow2 (n a : Z) : 0 <= a -> 2 ^ a <= n -> (pow2 a <= inject_Z n)%Q.
Proof. intros Ha H. rewrite pow2_Z by exact Ha. by rewrite <- Zle_Qle. Qed.

Lemma Z_lt_pow2 (n a : Z) : 0 <= a -> n < 2 ^ a -> (inject_Z n < pow2 a)%Q.
Proof. intros Ha H. rewrite pow2_Z by exact Ha. by rewrite <- Zlt_Qlt. Qed.

Lemma Q_as_fraction (x : Q) : (x * inject_Z (Zpos (Qden x)) == inject_Z (Qnum x))%Q.
Proof.
  destruct x as [n d]. unfold Qeq, Qmult, inject_Z. simpl. rewrite Pos.mul_1_r. ring.
Qed.

Lemma binade_spec (x : Q) :
  (0 < x)%Q -> (pow2 (binade x) <= x)%Q /\ (x < pow2 (binade x + 1))%Q.
Proof.
  intros Hx.
  assert (Hn : 0 < Qnum x).
  { destruct x as [n d]. unfold Qlt in Hx. simpl in Hx |- *. lia. }
  pose proof (Q_as_fraction x) as Hfrac.
  set (a := Z.log2 (Qnum x)). set (b := Z.log2 (Zpos (Qden x))).
  destruct (Z.log2_spec (Qnum x) Hn) as [Ha1 Ha2]. fold a in Ha1, Ha2.
  destruct (Z.log2_spec (Zpos (Qden x)) ltac:(lia)) as [Hb1 Hb2]. fold b in Hb1, Hb2.
  unfold Z.succ in Ha2, Hb2.
  assert (Ha0 : 0 <= a) by apply Z.log2_nonneg.
  assert (Hb0 : 0 <= b) by apply Z.log2_nonneg.
  apply Z_le_pow2 in Ha1; [|exact Ha0]. apply Z_lt_pow2 in Ha2; [|lia].
  apply Z_le_pow2 in Hb1; [|exact Hb0]. apply Z_lt_pow2 in Hb2; [|lia].
  set (N := inject_Z (Qnum x)) in *. set (D := inject_Z (Zpos (Qden x))) in *.
  assert (HD : (0 < D)%Q) by (eapply Qlt_le_trans; [apply (pow2_pos b) | exact Hb1]).
  unfold binade. fold a b.
  destruct (Qle_bool (pow2 (a - b)) x) eqn:Hc.
  - apply Qle_bool_iff in Hc. split; [exact Hc|].
    pose proof (pow2_add (a - b + 1) b) as Hadd.
    replace (a - b + 1 + b) with (a + 1) in Hadd by lia.
    pose proof (pow2_pos (a - b + 1)) as Hp.
    apply Qnot_le_lt. intros Hle.
    assert (H1 : (pow2 (a - b + 1) * pow2 b <= x * D)%Q).
    { apply Qle_trans with (pow2 (a - b + 1) * D)%Q.
      - apply Qmult_le_l; assumption.
      - apply Qmult_le_r; assumption. }
    rewrite <- Hadd, Hfrac in H1. lra.
  - assert (Hlt : (x < pow2 (a - b))%Q).
    { apply Qnot_le_lt. intros H. apply Qle_bool_iff in H. congruence. }
    replace (a - b - 1 + 1) with (a - b) by lia. split; [|exact Hlt].
    pose proof (pow2_add (a - b - 1) (b + 1)) as Hadd.
    replace (a - b - 1 + (b + 1)) with a in Hadd by lia.
    pose proof (pow2_pos (a - b - 1)) as Hp.
    apply Qnot_lt_le. intros Hgt.
    assert (H1 : (x * D < pow2 (a - b - 1) * pow2 (b + 1))%Q).
    { apply Qle_lt_trans with (pow2 (a - b - 1) * D)%Q.
      - apply Qmult_le_r; [exact HD | lra].
      - apply Qmult_lt_l; assumption. }
    rewrite <- Hadd, Hfrac in H1. lra.
Qed.

Lemma binade_unique (x : Q) (e : Z) :
  (pow2 e <= x)%Q -> (x < pow2 (e + 1))%Q -> binade x = e.
Proof.
  intros H1 H2.
  assert (Hx : (0 < x)%Q) by (eapply Qlt_le_trans; [apply (pow2_pos e) | exact H1]).
  destruct (binade_spec x Hx) as [H3 H4].
  assert (e < binade x + 1) by (apply pow2_lt_inv; lra).
  assert (binade x < e + 1) by (apply pow2_lt_inv; lra).
  lia.
Qed.

Lemma binade_mono (x y : Q) : (0 < x)%Q -> (x <= y)%Q -> binade x <= binade y.
Proof.
  intros Hx Hxy.
  destruct (binade_spec x Hx) as [H1 _].
  destruct (binade_spec y ltac:(lra)) as [_ H2].
  assert (binade x < binade y + 1) by (apply pow2_lt_inv; lra).
  lia.
Qed.

Lemma rne_cases (q : Q) :
  let f := Qfloor q in
  ((q - inject_Z f < 1 # 2)%Q /\ rne q = f)
  \/ ((1 # 2 < q - inject_Z f)%Q /\ rne q = f + 1)
  \/ ((q - inject_Z f == 1 # 2)%Q /\ (rne q = f \/ rne q = f + 1)).
Proof.
  intros f. unfold rne. fold f.
  destruct (Qcompare_spec (q - inject_Z f) (1 # 2)) as [H|H|H].
  - right. right. split; [exact H|]. destruct (Z.even f); auto.
  - left. auto.
  - right. left. auto.
Qed.

Lemma Qfloor_bounds (q : Q) :
  (inject_Z (Qfloor q) <= q)%Q /\ (q < inject_Z (Qfloor q) + 1)%Q.
Proof.
  split; [apply Qfloor_le|].
  pose proof (Qlt_floor q) as H. rewrite inject_Z_plus in H. exact H.
Qed.

Lemma rne_Z (n : Z) : rne (inject_Z n) = n.
Proof.
  unfold rne. rewrite Qfloor_Z.
  destruct (Qcompare_spec (inject_Z n - inject_Z n) (1 # 2)) as [H|H|H]; [lra | reflexivity | lra].
Qed.

Lemma rne_mono (p q : Q) : (p <= q)%Q -> rne p <= rne q.
Proof.
  intros Hpq.
  pose proof (Qfloor_resp_le p q Hpq) as Hf.
  destruct (Qfloor_bounds p) as [Hp1 Hp2]. destruct (Qfloor_bounds q) as [Hq1 Hq2].
  destruct (Z.eq_dec (Qfloor p) (Qfloor q)) as [E|E].
  - unfold rne. rewrite <- E.
    destruct (Qcompare_spec (p - inject_Z (Qfloor p)) (1 # 2)) as [H|H|H];
      destruct (Qcompare_spec (q - inject_Z (Qfloor p)) (1 # 2)) as [H'|H'|H'];
      try lia; try lra; destruct (Z.even (Qfloor p)); lia.
  - assert (Hlt : Qfloor p + 1 <= Qfloor q) by lia.
    destruct (rne_cases p) as [[_ ->]|[[_ ->]|[_ [-> | ->]]]];
      destruct (rne_cases q) as [[_ ->]|[[_ ->]|[_ [-> | ->]]]]; lia.
Qed.

Lemma rne_nonneg (q : Q) : (0 <= q)%Q -> 0 <= rne q.
Proof. intros H. rewrite <- (rne_Z 0). by apply rne_mono. Qed.

Lemma ulp_pos (x : Q) : (0 < ulp x)%Q.
Proof. apply pow2_pos. Qed.

Lemma Qdiv_mult_cancel (x u : Q) : (0 < u)%Q -> (x / u * u == x)%Q.
Proof. intros H. field. lra. Qed.

Lemma fl_pos_upper (x : Q) :
  (0 < x)%Q -> (fl_pos x <= pow2 (Z.max (binade x) (-1022) + 1))%Q.
Proof.
  intros Hx. unfold fl_pos, ulp. set (e := Z.max (binade x) (-1022)).
  destruct (binade_spec x Hx) as [_ H2].
  pose proof (pow2_le (binade x + 1) (e + 1) ltac:(lia)) as H3.
  pose proof (pow2_pos (e - 52)) as Hu.
  pose proof (pow2_add 53 (e - 52)) as Hadd.
  replace (53 + (e - 52)) with (e + 1) in Hadd by lia.
  assert (Hr : rne (x / pow2 (e - 52)) <= 2 ^ 53).
  { rewrite <- (rne_Z (2 ^ 53)). apply rne_mono.
    rewrite <- (pow2_Z 53) by lia.
    apply Qle_shift_div_r; [exact Hu|]. rewrite <- Hadd. lra. }
  rewrite Zle_Qle, <- (pow2_Z 53) in Hr by lia.
  rewrite Hadd. apply Qmult_le_r; assumption.
Qed.

Lemma fl_pos_lower (x : Q) :
  (0 < x)%Q -> -1022 <= binade x -> (pow2 (binade x) <= fl_pos x)%Q.
Proof.
  intros Hx He. unfold fl_pos, ulp. rewrite Z.max_l by lia. set (e := binade x).
  destruct (binade_spec x Hx) as [H1 _]. fold e in H1.
  pose proof (pow2_pos (e - 52)) as Hu.
  pose proof (pow2_add 52 (e - 52)) as Hadd.
  replace (52 + (e - 52)) with e in Hadd by lia.
  assert (Hr : 2 ^ 52 <= rne (x / pow2 (e - 52))).
  { rewrite <- (rne_Z (2 ^ 52)) at 1. apply rne_mono.
    rewrite <- (pow2_Z 52) by lia.
    apply Qle_shift_div_l; [exact Hu|]. rewrite <- Hadd. exact H1. }
  rewrite Zle_Qle, <- (pow2_Z 52) in Hr by lia.
  rewrite Hadd. apply Qmult_le_r; assumption.
Qed.

Lemma fl_pos_nonneg (x : Q) : (0 < x)%Q -> (0 <= fl_pos x)%Q.
Proof.
  intros Hx. unfold fl_pos. pose proof (ulp_pos x) as Hu.
  apply Qmult_le_0_compat; [|lra].
  change 0%Q with (inject_Z 0). rewrite <- Zle_Qle. apply rne_nonneg.
  apply Qle_shift_div_l; [exact Hu | lra].
Qed.

Lemma fl_pos_mono (x y : Q) : (0 < x)%Q -> (x <= y)%Q -> (fl_pos x <= fl_pos y)%Q.
Proof.
  intros Hx Hxy. assert (Hy : (0 < y)%Q) by lra.
  pose proof (binade_mono x y Hx Hxy) as Hb.
  destruct (Z.eq_dec (Z.max (binade x) (-1022)) (Z.max (binade y) (-1022))) as [E|E].
  - unfold fl_pos, ulp. rewrite E. set (u := pow2 _).
    assert (Hu : (0 < u)%Q) by apply pow2_pos.
    apply Qmult_le_r; [exact Hu|]. rewrite <- Zle_Qle. apply rne_mono.
    apply Qmult_le_r with u; [exact Hu|]. rewrite !Qdiv_mult_cancel by exact Hu. exact Hxy.
  - apply Qle_trans with (pow2 (Z.max (binade x) (-1022) + 1)); [by apply fl_pos_upper|].
    apply Qle_trans with (pow2 (binade y)); [apply pow2_le; lia|].
    apply fl_pos_lower; [exact Hy | lia].
Qed.

Lemma fl_0 : fl 0 = 0%Q.
Proof. reflexivity. Qed.

Lemma fl_mono (x y : Q) : (x <= y)%Q -> (fl x <= fl y)%Q.
Proof.
  intros Hxy. unfold fl.
  destruct (Qcompare_spec x 0) as [Hx|Hx|Hx]; destruct (Qcompare_spec y 0) as [Hy|Hy|Hy];
    try lra.
  - apply fl_pos_nonneg. exact Hy.
  - pose proof (fl_pos_nonneg (- x) ltac:(lra)). lra.
  - pose proof (fl_pos_mono (- y) (- x) ltac:(lra) ltac:(lra)). lra.
  - pose proof (fl_pos_nonneg (- x) ltac:(lra)).
    pose proof (fl_pos_nonneg y ltac:(lra)). lra.
  - by apply fl_pos_mono.
Qed.

Lemma fl_proper (x y : Q) : (x == y)%Q -> (fl x == fl y)%Q.
Proof.
  intros E. apply Qle_antisym; apply fl_mono; lra.
Qed.

Lemma fl_Z (n : Z) : 0 <= n < 2 ^ 53 -> (fl (inject_Z n) == inject_Z n)%Q.
Proof.
  intros [H0 H53]. destruct (Z.eq_dec n 0) as [->|Hne]; [reflexivity|].
  assert (Hn : 0 < n) by lia.
  unfold fl. destruct (Qcompare_spec (inject_Z n) 0) as [H|H|H].
  - rewrite H. reflexivity.
  - exfalso. change 0%Q with (inject_Z 0) in H. rewrite <- Zlt_Qlt in H. lia.
  - set (a := Z.log2 n).
    destruct (Z.log2_spec n Hn) as [Ha1 Ha2]. fold a in Ha1, Ha2. unfold Z.succ in Ha2.
    assert (Ha0 : 0 <= a) by apply Z.log2_nonneg.
    assert (Ha52 : a <= 52).
    { assert (a < 53); [|lia]. apply (Z.pow_lt_mono_r_iff 2); lia. }
    assert (Hb : binade (inject_Z n) = a).
    { apply binade_unique; [by apply Z_le_pow2 | apply Z_lt_pow2; [lia | exact Ha2]]. }
    unfold fl_pos, ulp. rewrite Hb, Z.max_l by lia.
    pose proof (pow2_pos (a - 52)) as Hu.
    pose proof (pow2_add (52 - a) (a - 52)) as Hadd.
    replace (52 - a + (a - 52)) with 0 in Hadd by lia.
    change (pow2 0) with 1%Q in Hadd.
    assert (Hq : (inject_Z n / pow2 (a - 52) == inject_Z (n * 2 ^ (52 - a)))%Q).
    { rewrite inject_Z_mult, <- (pow2_Z (52 - a)) by lia.
      apply Qmult_inj_r with (pow2 (a - 52)); [lra|].
      rewrite Qdiv_mult_cancel by exact Hu.
      rewrite <- Qmult_assoc, <- Hadd. ring. }
    assert (Hr : rne (inject_Z n / pow2 (a - 52)) = n * 2 ^ (52 - a)).
    { apply Z.le_antisymm.
      - rewrite <- (rne_Z (n * 2 ^ (52 - a))). apply rne_mono. lra.
      - rewrite <- (rne_Z (n * 2 ^ (52 - a))) at 1. apply rne_mono. lra. }
    rewrite Hr, inject_Z_mult, <- (pow2_Z (52 - a)) by lia.
    rewrite <- Qmult_assoc, <- Hadd. ring.
Qed.

Lemma fl_nonneg (x : Q) : (0 <= x)%Q -> (0 <= fl x)%Q.
Proof. intros H. rewrite <- fl_0. by apply fl_mono. Qed.

Lemma fl_ge_Z (n : Z) (x : Q) : 0 <= n < 2 ^ 53 -> (inject_Z n <= x)%Q -> (inject_Z n <= fl x)%Q.
Proof. intros Hn H. rewrite <- (fl_Z n Hn). by apply fl_mono. Qed.

Lemma fl_le_Z (n : Z) (x : Q) : 0 <= n < 2 ^ 53 -> (x <= inject_Z n)%Q -> (fl x <= inject_Z n)%Q.
Proof. intros Hn H. rewrite <- (fl_Z n Hn). by apply fl_mono. Qed.

End Rounding.

Section Doubles.

(** The doubles the code names. *)
Lemma double_2 : (fl 2 == 2)%Q.
Proof. apply (fl_Z 2). lia. Qed.

Lemma double_5 : (fl 5 == 5)%Q.
Proof. apply (fl_Z 5). lia. Qed.

Lemma double_100 : (fl 100 == 100)%Q.
Proof. apply (fl_Z 100). lia. Qed.

(** The increment of a tick is at least 2 when the draw is not negative. *)
Lemma increment_ge_2 (r : Q) : (0 <= r)%Q -> (2 <= fl (fl (r * 8) + 2))%Q.
Proof.
  intros Hr. pose proof (fl_nonneg (r * 8) ltac:(lra)) as H8.
  pose proof (fl_mono 2 (fl (r * 8) + 2) ltac:(lra)) as H.
  rewrite double_2 in H. exact H.
Qed.

(** No double lies strictly between [1 - 2^-53] and [1]. *)
Lemma double_below_1 (r : Q) :
  is_double r -> (r < 1)%Q -> (r <= 1 - (1 # 9007199254740992))%Q.
Proof.
  intros Hd H1. apply Qnot_lt_le. intros Hgt.
  assert (Hb : binade r = -1).
  { apply binade_unique; [change (pow2 (-1)) with (1 # 2)%Q | change (pow2 (-1 + 1)) with 1%Q]; lra. }
  unfold is_double, fl in Hd.
  destruct (Qcompare_spec r 0) as [H|H|H]; [lra | lra |].
  unfold fl_pos, ulp in Hd. rewrite Hb in Hd.
  change (pow2 (Z.max (-1) (-1022) - 52)) with (1 # 9007199254740992)%Q in Hd.
  set (q := (r / (1 # 9007199254740992))%Q) in *.
  assert (Hq : (q == r * 9007199254740992)%Q) by (unfold q; field).
  assert (Hf : Qfloor q = 9007199254740991).
  { apply Z.le_antisymm.
    - assert (Qfloor q < 9007199254740992); [|lia].
      rewrite Zlt_Qlt. eapply Qle_lt_trans; [apply Qfloor_le|]. rewrite Hq.
      change (inject_Z 9007199254740992) with 9007199254740992%Q. lra.
    - change 9007199254740991 with (Qfloor (inject_Z 9007199254740991)).
      apply Qfloor_resp_le. rewrite Hq.
      change (inject_Z 9007199254740991) with 9007199254740991%Q. lra. }
  destruct (Qfloor_bounds q) as [Hq1 Hq2].
  destruct (rne_cases q) as [[_ E]|[[_ E]|[_ [E | E]]]];
    rewrite E, Hf in Hd;
    try change (9007199254740991 + 1) with 9007199254740992 in Hd;
    unfold inject_Z in Hd; lra.
Qed.

End Doubles.


(** ** Evaluating the helpers *)

Section Evaluation.

Example blank_examples :
  blank EmptyString = true
  /\ blank (String (Ascii.ascii_of_nat 9) "  ") = true
  /\ blank (String (Ascii.ascii_of_nat 194) (String (Ascii.ascii_of_nat 160) " ")) = true
  /\ blank " fix the bug " = false.
Proof. repeat split. Qed.

Example local_id_examples : local_id 1 = "local-1" /\ local_id 12 = "local-12".
Proof. split; reflexivity. Qed.

Example model_name_examples :
  model_name DEFAULT_AGENTS "claude" fast = "haiku"
  /\ model_name DEFAULT_AGENTS "gemini" heavy = "gemini-3-pro"
  /\ model_name DEFAULT_AGENTS "nobody" default = "N/A".
Proof. vm_compute. repeat split. Qed.

Example random_pid_examples :
  random_pid 0 = 10000 /\ random_pid (1 - (1 # 9007199254740992)) = 99999.
Proof. vm_compute. split; reflexivity. Qed.

Example getRandomOutput_examples :
  getRandomOutput (1 # 2) "codex" = Some "Generating tests..."
  /\ getRandomOutput 0 "somebody" = Some "Executing command..."
  /\ getRandomOutput (1 # 2) "constructor" = None.
Proof. vm_compute. repeat split. Qed.

(** The literals of the tick, and a sum that rounds up to 100. *)
Example fl_examples :
  (fl 0.1 == 3602879701896397 # 36028797018963968)%Q
  /\ (fl 0.7 == 3152519739159347 # 4503599627370496)%Q
  /\ (fl (92 + fl (fl ((3377699720527871 # 4503599627370496) * 8) + 2)) == 100)%Q
  /\ (92 + ((3377699720527871 # 4503599627370496) * 8 + 2) < 100)%Q.
Proof. vm_compute. repeat split. Qed.

Example task_preview_examples :
  task_preview "short" = "short"
  /\ String.length
       (task_preview
          "0123456789012345678901234567890123456789012345678901234567890123456789")
     = 63%nat
  /\ task_preview "ééééééééééééééééééééééééééééééééééééééééééééééééééééééééééééé"
     = "éééééééééééééééééééééééééééééééééééééééééééééééééééééééééééé..."
  /\ js_length "a😀" = 3%nat
  /\ js_slice_to 2 "a😀"
     = "a" +:+ String (Ascii.ascii_of_nat 237) (String (Ascii.ascii_of_nat 160)
                 (String (Ascii.ascii_of_nat 189) EmptyString)).
Proof. repeat split; reflexivity. Qed.

(** A single launch the Gateway accepts, from an empty registry. *)
Example launchSingleFork_example :
  let st := fst (launchSingleFork 1 (sampleInputs 0) (stateWith 5 "x" 1 [] [])) in
  Fork.id <$> State.localForks st = ["g0"]
  /\ Fork.status <$> State.localForks st = [running]
  /\ Fork.pid <$> State.localForks st = [Some 4242]
  /\ Fork.id <$> apiForks st = ["g0"]
  /\ State.forkIdCounter st = 2%nat
  /\ State.prompt st = EmptyString
  /\ TerminalLine.type <$> State.terminalOutput st
     = [TerminalLine.system; TerminalLine.system; TerminalLine.info;
        TerminalLine.spawn; TerminalLine.info; TerminalLine.success].
Proof. vm_compute. repeat split. Qed.

End Evaluation.

(** ** The activity log *)

Section TerminalLog.

Lemma slice_last_suffix {A} (n : nat) (l : list A) : slice_last n l `suffix_of` l.
Proof. unfold slice_last. apply suffix_drop. Qed.

Lemma slice_last_length {A} (n : nat) (l : list A) :
  length (slice_last n l) = (length l `min` n)%nat.
Proof. unfold slice_last. rewrite length_drop. lia. Qed.

(** C9. One call of [addTerminalLine] keeps a suffix of the previous log
    (its 100 most recent lines, all of them when there are fewer), in
    order and unchanged, and puts exactly one new line after them,
    carrying the caller's type and the clock of the call; whatever the
    length of the previous log, the new one holds at most 101 lines. *)
Theorem addTerminalLine_append_only_bounded :
  forall (type : TerminalLine.kind) (text : string) (now : Z) (prev : list TerminalLine.t),
    exists kept line,
      addTerminalLine type text now prev = kept ++ [line]
      /\ kept `suffix_of` prev
      /\ length kept = (length prev `min` 100)%nat
      /\ TerminalLine.type line = type
      /\ TerminalLine.time line = now
      /\ TerminalLine.text line = "> " +:+ text
      /\ (length (addTerminalLine type text now prev) <= 101)%nat.
Proof.
  intros type text now prev.
  exists (slice_last 100 prev), (TerminalLine.mk type ("> " +:+ text) now).
  unfold addTerminalLine.
  repeat split; auto using slice_last_suffix, slice_last_length.
  rewrite length_app, slice_last_length. simpl. lia.
Qed.

End TerminalLog.

(** ** Reconnection of the event channel *)

Module ForkWebSocketFacts.
Import ForkWebSocket.

Lemma attemptReconnect_below (s : t) :
  (reconnectAttempts s < 5)%nat ->
  attemptReconnect s
  = (mk (ws s) (S (reconnectAttempts s)), Some (delay (S (reconnectAttempts s)))).
Proof.
  intros H. unfold attemptReconnect, maxReconnectAttempts.
  destruct (Nat.ltb_spec (reconnectAttempts s) 5%nat); [reflexivity | lia].
Qed.

Lemma attemptReconnect_exhausted (s : t) :
  (5 <= reconnectAttempts s)%nat -> attemptReconnect s = (s, None).
Proof.
  intros H. unfold attemptReconnect, maxReconnectAttempts.
  destruct (Nat.ltb_spec (reconnectAttempts s) 5%nat); [lia | reflexivity].
Qed.

(** From a counter at [c], [n] closures in a row schedule the attempts
    [c+1 .. 5], no more than [n] of them. *)
Lemma closures_from (n : nat) :
  forall s,
    (reconnectAttempts s <= 5)%nat ->
    snd (closures n s)
    = delay <$> seq (S (reconnectAttempts s)) (n `min` (5 - reconnectAttempts s)).
Proof.
  induction n as [|n IH]; intros s Hs; [reflexivity|].
  simpl closures. unfold onclose.
  destruct (Nat.eq_dec (reconnectAttempts s) 5%nat) as [E|E].
  - rewrite attemptReconnect_exhausted by lia. rewrite E. reflexivity.
  - rewrite attemptReconnect_below by lia.
    match goal with |- context [closures n ?x] => set (s1 := x) end.
    assert (Hc : reconnectAttempts s1 = S (reconnectAttempts s)) by reflexivity.
    specialize (IH s1). rewrite Hc in IH.
    destruct (closures n s1) as [s2 ds]. cbn [snd] in IH |- *.
    rewrite IH by lia.
    replace (S n `min` (5 - reconnectAttempts s))%nat
      with (S (n `min` (5 - S (reconnectAttempts s))))%nat by lia.
    reflexivity.
Qed.

(** Without an [onopen], a trace schedules at most what is left of the
    five attempts, whatever mixes of closures and [connect()] calls it
    holds. *)
Lemma run_budget (es : list event) :
  forall s,
    forallb (fun e => negb (is_open e)) es = true ->
    (reconnectAttempts s <= 5)%nat ->
    (length (snd (run es s)) + reconnectAttempts s <= 5)%nat
    /\ (reconnectAttempts (fst (run es s)) <= 5)%nat.
Proof.
  induction es as [|e es IH]; intros s Hes Hs; [simpl; lia|].
  simpl in Hes. apply andb_prop in Hes as [He Hes].
  simpl run.
  assert (Hstep : exists s1 d, step e s = (s1, d)
            /\ (reconnectAttempts s1 <= 5)%nat
            /\ (match d with Some _ => 1%nat | None => 0%nat end + reconnectAttempts s
                = reconnectAttempts s1)%nat).
  { destruct e as [| |[|]]; simpl in *; try discriminate;
      unfold onclose, connect;
      try (destruct (Nat.eq_dec (reconnectAttempts s) 5%nat);
           [rewrite attemptReconnect_exhausted by lia
           |rewrite attemptReconnect_below by lia]);
      eexists _, _; (split; [reflexivity|]); simpl; lia. }
  destruct Hstep as (s1 & d & -> & Hs1 & Hd).
  specialize (IH s1 Hes Hs1).
  destruct (run es s1) as [s2 ds]. simpl in *.
  destruct d; simpl in *; lia.
Qed.

(** C8. Reconnection is bounded and backs off exponentially.  After a
    successful connection, [n] closures in a row schedule the attempts
    [1 .. min n 5], attempt [k] with a delay of [1000 * 2^(k-1)] ms (so
    1000, 2000, 4000, 8000, 16000); once the counter stands at five an
    [attemptReconnect] schedules nothing and changes nothing; any trace
    without a successful connection schedules at most five attempts; and
    [onopen] puts the counter back to zero. *)
Theorem reconnect_bounded_exponential_backoff :
  (forall (n : nat) (s : t),
      snd (closures n (onopen s)) = (fun k => 1000 * 2 ^ (Z.of_nat k - 1)) <$> seq 1 (n `min` 5)%nat)
  /\ (forall n s, snd (closures (5 + n)%nat (onopen s)) = [1000; 2000; 4000; 8000; 16000])
  /\ (forall s, reconnectAttempts s = 5%nat -> attemptReconnect s = (s, None))
  /\ (forall es s,
        forallb (fun e => negb (is_open e)) es = true ->
        (length (snd (run es (onopen s))) <= 5)%nat)
  /\ (forall s, reconnectAttempts (onopen s) = 0%nat).
Proof.
  split; [|split; [|split; [|split]]].
  - intros n s. rewrite closures_from by (simpl; lia). simpl.
    replace (n `min` 5)%nat with (n `min` (5 - 0))%nat by lia. reflexivity.
  - intros n s. rewrite closures_from by (simpl; lia). simpl reconnectAttempts.
    replace ((5 + n) `min` (5 - 0))%nat with 5%nat by lia. reflexivity.
  - intros s H. apply attemptReconnect_exhausted. lia.
  - intros es s Hes.
    pose proof (run_budget es (onopen s) Hes) as H. simpl in H. lia.
  - reflexivity.
Qed.

(** The theorem at work: six closures after a fresh start, and a counter
    that stands at five. *)
Lemma reconnect_bounded_exponential_backoff_witness :
  snd (closures 6%nat (onopen new)) = [1000; 2000; 4000; 8000; 16000]
  /\ attemptReconnect (mk true 5%nat) = (mk true 5%nat, None)
  /\ (length (snd (run [Closed; Connect false; Closed; Connect true; Closed; Closed; Closed; Closed]
                     (onopen new))) <= 5)%nat.
Proof.
  destruct reconnect_bounded_exponential_backoff as (_ & H2 & H3 & H4 & _).
  split; [exact (H2 1%nat new)|].
  split; [apply H3; reflexivity|].
  apply H4. reflexivity.
Defined.

End ForkWebSocketFacts.

(** ** Rewriting a list of forks by id *)

Section MapFork.

Lemma mapFork_lookup (id : string) (g : Fork.t -> Fork.t) (l : list Fork.t) (i : nat) :
  mapFork id g l !! i = (fun f => if decide (Fork.id f = id) then g f else f) <$> l !! i.
Proof. unfold mapFork. apply list_lookup_fmap. Qed.

Lemma mapFork_length (id : string) (g : Fork.t -> Fork.t) (l : list Fork.t) :
  length (mapFork id g l) = length l.
Proof. unfold mapFork. apply length_fmap. Qed.

(** No record with that id: the list comes back as it was. *)
Lemma mapFork_absent (id : string) (g : Fork.t -> Fork.t) (l : list Fork.t) :
  ~ Exists (fun f => Fork.id f = id) l -> mapFork id g l = l.
Proof.
  induction l as [|f l IH]; intros H; [reflexivity|].
  unfold mapFork in *. cbn [fmap list_fmap].
  destruct (decide (Fork.id f = id)) as [E|E].
  - exfalso. apply H. by left.
  - f_equal. apply IH. intros H'. apply H. by right.
Qed.

(** When [g] keeps ids, so does the rewrite. *)
Lemma mapFork_ids (id : string) (g : Fork.t -> Fork.t) (l : list Fork.t) :
  (forall f, Fork.id (g f) = Fork.id f) ->
  Fork.id <$> mapFork id g l = Fork.id <$> l.
Proof.
  intros Hg. unfold mapFork. rewrite <- list_fmap_compose.
  apply list_fmap_ext. intros i f _. simpl.
  destruct (decide (Fork.id f = id)); auto.
Qed.

Lemma findFork_app (id : string) (l1 l2 : list Fork.t) :
  findFork id (l1 ++ l2)
  = match findFork id l1 with Some f => Some f | None => findFork id l2 end.
Proof.
  unfold findFork. induction l1 as [|f l1 IH]; [reflexivity|].
  simpl. destruct (bool_decide (Fork.id f = id)); auto.
Qed.

Lemma findFork_None (id : string) (l : list Fork.t) :
  findFork id l = None <-> ~ Exists (fun f => Fork.id f = id) l.
Proof.
  unfold findFork. induction l as [|f l IH]; simpl.
  - split; [intros _ H; inversion H | done].
  - destruct (bool_decide_reflect (Fork.id f = id)) as [E|E].
    + split; [done | intros H; exfalso; apply H; by left].
    + rewrite IH. split.
      * intros H H'. inversion H' as [? ? H1|? ? H1]; subst; tauto.
      * intros H H'. apply H. by right.
Qed.

Lemma findFork_Some_id (id : string) (l : list Fork.t) (f : Fork.t) :
  findFork id l = Some f -> Fork.id f = id.
Proof.
  unfold findFork. intros H. apply List.find_some in H as [_ H].
  by apply bool_decide_eq_true in H.
Qed.

(** Looking a rewritten list up by the rewritten id, when [g] keeps ids. *)
Lemma findFork_mapFork (id : string) (g : Fork.t -> Fork.t) (l : list Fork.t) :
  (forall f, Fork.id (g f) = Fork.id f) ->
  findFork id (mapFork id g l) = g <$> findFork id l.
Proof.
  intros Hg. unfold findFork, mapFork. induction l as [|f l IH]; [reflexivity|].
  cbn [fmap list_fmap List.find].
  destruct (decide (Fork.id f = id)) as [E|E].
  - rewrite (bool_decide_eq_true_2 _ (eq_trans (Hg f) E)).
    rewrite (bool_decide_eq_true_2 _ E). reflexivity.
  - rewrite (bool_decide_eq_false_2 _ E). apply IH.
Qed.

(** Looking it up by any other id sees nothing of the rewrite. *)
Lemma findFork_mapFork_ne (id id' : string) (g : Fork.t -> Fork.t) (l : list Fork.t) :
  (forall f, Fork.id (g f) = Fork.id f) ->
  id <> id' ->
  findFork id' (mapFork id g l) = findFork id' l.
Proof.
  intros Hg Hne. unfold findFork, mapFork. induction l as [|f l IH]; [reflexivity|].
  cbn [fmap list_fmap List.find].
  destruct (decide (Fork.id f = id)) as [E|E].
  - rewrite (bool_decide_eq_false_2 (Fork.id (g f) = id')) by (rewrite Hg; congruence).
    rewrite (bool_decide_eq_false_2 (Fork.id f = id')) by congruence. apply IH.
  - destruct (bool_decide (Fork.id f = id')); [reflexivity | apply IH].
Qed.

End MapFork.

(** ** The Gateway mirror and the merged view *)

Section Reconciliation.

Lemma receive_localForks (m : WebSocketMessage) (now : Z) (st : State.t) :
  State.localForks (receive m now st) = State.localForks st.
Proof. reflexivity. Qed.

Lemma receive_apiForks (m : WebSocketMessage) (now : Z) (st : State.t) :
  apiForks (receive m now st) = handleMessage m now (apiForks st).
Proof. reflexivity. Qed.

Lemma to_completed_id now f : Fork.id (to_completed now f) = Fork.id f.
Proof. reflexivity. Qed.

(** A handler never adds or removes a record, and never renames one. *)
Lemma handleMessage_ids (m : WebSocketMessage) (now : Z) (prev : list Fork.t) :
  Fork.id <$> handleMessage m now prev = Fork.id <$> prev.
Proof.
  destruct m as [u|id out|id|id err|]; simpl; try reflexivity;
    unfold on_fork_update, on_fork_output, on_fork_completed, on_fork_failed;
    try (apply mapFork_ids; reflexivity).
  unfold mapFork. rewrite <- list_fmap_compose.
  apply list_fmap_ext. intros i f _. simpl.
  destruct (decide (Fork.id f = Fork.id u)); congruence.
Qed.

(** A message about an id the hook's list does not hold is dropped. *)
Lemma handleMessage_absent (m : WebSocketMessage) (now : Z) (prev : list Fork.t) :
  (forall id, message_id m = Some id -> ~ Exists (fun f => Fork.id f = id) prev) ->
  handleMessage m now prev = prev.
Proof.
  intros H. destruct m as [u|id out|id|id err|]; simpl in *; try reflexivity;
    unfold on_fork_update, on_fork_output, on_fork_completed, on_fork_failed;
    apply mapFork_absent, H; reflexivity.
Qed.

Lemma setUseForks_setForks_id (st : State.t) :
  setUseForks (setForks (fun l => l)) st = st.
Proof. destruct st as [? ? ? ? ? ? ? ? ? ? ? [? ? ?]]. reflexivity. Qed.

(** C5, as the code has it.  No handler inserts: a [fork_update],
    [fork_output], [fork_completed] or [fork_failed] message never changes
    the local registry, and leaves the ids of the Gateway-mirrored list,
    hence its length, as they were; a message whose id that list does not
    hold changes nothing at all, so the merged view has no record for the
    id afterwards either. *)
Theorem event_for_unknown_id_is_dropped :
  forall (m : WebSocketMessage) (now : Z) (st : State.t),
    State.localForks (receive m now st) = State.localForks st
    /\ Fork.id <$> apiForks (receive m now st) = Fork.id <$> apiForks st
    /\ ((forall id, message_id m = Some id ->
           ~ Exists (fun f => Fork.id f = id) (apiForks st)) ->
        receive m now st = st).
Proof.
  intros m now st. split; [reflexivity|]. split.
  - rewrite receive_apiForks. apply handleMessage_ids.
  - intros H. unfold receive.
    rewrite <- (setUseForks_setForks_id st) at 2.
    destruct st as [? ? ? ? ? ? ? ? ? ? ? [fs ? ?]].
    unfold setUseForks, setForks. simpl. do 2 f_equal.
    apply handleMessage_absent. exact H.
Qed.

(** The theorem on a freshly mounted component, which knows no fork. *)
Lemma event_for_unknown_id_is_dropped_witness :
  receive (fork_completed "x") 5 (initialState 0) = initialState 0.
Proof.
  apply (event_for_unknown_id_is_dropped (fork_completed "x") 5 (initialState 0)).
  intros id _ H. inversion H.
Defined.

(** C5 fails as stated: a [fork_completed] for an id nobody knows leaves
    the merged view empty; no record with status [completed] appears. *)
Lemma fork_completed_unknown_id_not_inserted :
  findFork "x" (State.localForks (initialState 0)) = None
  /\ allForks (receive (fork_completed "x") 5 (initialState 0)) = []
  /\ findFork "x" (allForks (receive (fork_completed "x") 5 (initialState 0))) = None.
Proof. repeat split. Qed.

End Reconciliation.

Section MergedView.

Lemma filter_mapFork (P : Fork.t -> Prop) `{!forall f, Decision (P f)}
    (id : string) (g : Fork.t -> Fork.t) (l : list Fork.t) :
  (forall f, P (g f) <-> P f) ->
  filter P (mapFork id g l) = mapFork id g (filter P l).
Proof.
  intros Hg. unfold mapFork. induction l as [|f l IH]; [reflexivity|].
  cbn [fmap list_fmap]. rewrite !filter_cons.
  destruct (decide (Fork.id f = id)) as [E|E].
  - destruct (decide (P (g f))) as [Hp|Hp]; destruct (decide (P f)) as [Hq|Hq].
    + cbn [fmap list_fmap]. rewrite decide_True by exact E. f_equal. apply IH.
    + exfalso. apply Hq, (proj1 (Hg f)), Hp.
    + exfalso. apply Hp, (proj2 (Hg f)), Hq.
    + apply IH.
  - destruct (decide (P f)).
    + cbn [fmap list_fmap]. rewrite decide_False by exact E. f_equal. apply IH.
    + apply IH.
Qed.

(** The merged view after a [fork_completed], in terms of the one before. *)
Lemma allForks_fork_completed (id : string) (now : Z) (st : State.t) :
  allForks (receive (fork_completed id) now st)
  = State.localForks st
    ++ mapFork id (to_completed now)
         (filter (fun apiFork =>
                    ~ Exists (fun lf => Fork.id lf = Fork.id apiFork) (State.localForks st))
                 (apiForks st)).
Proof.
  unfold allForks. rewrite receive_localForks, receive_apiForks. f_equal.
  simpl. unfold on_fork_completed. apply filter_mapFork. intros f. reflexivity.
Qed.

(** C3, as the code has it.  A [fork_completed] for an id rewrites the
    Gateway-mirrored list only, and the merged view shows a Gateway
    record only when no local record carries its id.  So: when the local
    registry has no record with the id, the record the merged view shows
    for it becomes [completed]; when the local registry has one, the
    merged view goes on showing that local record, untouched. *)
Theorem fork_completed_merged_view :
  forall (id : string) (now : Z) (st : State.t),
    (findFork id (State.localForks st) = None ->
       findFork id (allForks (receive (fork_completed id) now st))
       = to_completed now <$> findFork id (allForks st)
       /\ forall f, findFork id (allForks st) = Some f ->
            Fork.status <$> findFork id (allForks (receive (fork_completed id) now st))
            = Some completed)
    /\ (forall f, findFork id (State.localForks st) = Some f ->
          findFork id (allForks st) = Some f
          /\ findFork id (allForks (receive (fork_completed id) now st)) = Some f).
Proof.
  intros id now st. split.
  - intros Hnone.
    assert (Heq : findFork id (allForks (receive (fork_completed id) now st))
                  = to_completed now <$> findFork id (allForks st)).
    { rewrite allForks_fork_completed. unfold allForks.
      rewrite !findFork_app, Hnone.
      apply findFork_mapFork. reflexivity. }
    split; [exact Heq|].
    intros f Hf. rewrite Heq, Hf. reflexivity.
  - intros f Hf. split.
    + unfold allForks. rewrite findFork_app, Hf. reflexivity.
    + rewrite allForks_fork_completed, findFork_app, Hf. reflexivity.
Qed.

(** Both halves at work: a Gateway-only fork that is running, and a fork
    the local registry holds as running too. *)
Lemma fork_completed_merged_view_witness :
  Fork.status <$> findFork "g0"
    (allForks (receive (fork_completed "g0") 9
                 (stateWith 5 EmptyString 1 [] [sampleFork "g0" running []])))
  = Some completed
  /\ findFork "g0"
       (allForks (receive (fork_completed "g0") 9
                    (stateWith 5 EmptyString 2 [sampleFork "g0" running []] [sampleFork "g0" running []])))
     = Some (sampleFork "g0" running []).
Proof.
  split.
  - apply (proj2 (proj1 (fork_completed_merged_view "g0" 9
                           (stateWith 5 EmptyString 1 [] [sampleFork "g0" running []])) eq_refl)
                 (sampleFork "g0" running [])).
    reflexivity.
  - apply (proj2 (fork_completed_merged_view "g0" 9
                    (stateWith 5 EmptyString 2 [sampleFork "g0" running []] [sampleFork "g0" running []]))
                 (sampleFork "g0" running [])).
    reflexivity.
Defined.

(** C3 fails as stated.  A single launch the Gateway accepts under the id
    [g0] leaves a running record for [g0] in both lists; the
    [fork_completed] for [g0] that follows completes the Gateway copy,
    and the merged view still shows [g0] as running. *)
Lemma fork_completed_loses_to_local_record :
  let st := fst (launchSingleFork 1 (sampleInputs 0) (stateWith 5 "x" 1 [] [])) in
  let st' := receive (fork_completed "g0") 30 st in
  Fork.status <$> findFork "g0" (allForks st) = Some running
  /\ Fork.status <$> findFork "g0" (apiForks st') = Some completed
  /\ Fork.status <$> findFork "g0" (allForks st') = Some running
  /\ Fork.id <$> allForks st' = ["g0"].
Proof. vm_compute. repeat split. Qed.

End MergedView.

(** ** Output lines *)

Section Output.

Lemma prefix_snoc {A} (l : list A) (x : A) : l `prefix_of` l ++ [x].
Proof. by apply prefix_app_r. Qed.

Lemma output_grows_refl (f : Fork.t) : output_grows f f.
Proof. split; reflexivity. Qed.

Lemma output_grows_trans (f g h : Fork.t) :
  output_grows f g -> output_grows g h -> output_grows f h.
Proof.
  intros [I1 P1] [I2 P2]. split; [congruence|].
  by transitivity (Fork.output g).
Qed.

Lemma Forall2_output_grows_trans (l1 l2 l3 : list Fork.t) :
  Forall2 output_grows l1 l2 -> Forall2 output_grows l2 l3 -> Forall2 output_grows l1 l3.
Proof. apply Forall2_trans. exact output_grows_trans. Qed.

(** A position-wise rewrite whose function only appends. *)
Lemma Forall2_output_grows_imap (h : nat -> Fork.t -> Fork.t) (l : list Fork.t) :
  (forall i f, output_grows f (h i f)) -> Forall2 output_grows l (imap h l).
Proof.
  intros Hh. apply Forall2_same_length_lookup_2.
  - by rewrite length_imap.
  - intros i x y Hx Hy. rewrite list_lookup_imap, Hx in Hy.
    simpl in Hy. injection Hy as <-. apply Hh.
Qed.

Lemma Forall2_output_grows_fmap (h : Fork.t -> Fork.t) (l : list Fork.t) :
  (forall f, output_grows f (h f)) -> Forall2 output_grows l (h <$> l).
Proof.
  intros Hh. induction l as [|f l IH]; constructor; auto.
Qed.

Lemma Forall2_output_grows_mapFork (id : string) (g : Fork.t -> Fork.t) (l : list Fork.t) :
  (forall f, output_grows f (g f)) -> Forall2 output_grows l (mapFork id g l).
Proof.
  intros Hg. apply Forall2_output_grows_fmap. intros f.
  destruct (decide (Fork.id f = id)); [apply Hg | apply output_grows_refl].
Qed.

Lemma append_output_grows now text f : output_grows f (append_output now text f).
Proof. split; [reflexivity | apply prefix_snoc]. Qed.

Lemma tickFork_grows rnd f : output_grows f (tickFork rnd f).
Proof.
  unfold tickFork.
  destruct (bool_decide (Fork.status f = running) && Qltb (Fork.progress f) 100);
    [|apply output_grows_refl].
  destruct (Qle_bool 100 _); (split; [reflexivity|]); simpl;
    destruct (Qltb (fl 0.7) (r_emit rnd)); (apply prefix_snoc || reflexivity).
Qed.

Lemma handleMessage_grows (m : WebSocketMessage) (now : Z) (prev : list Fork.t) :
  is_fork_update m = false ->
  Forall2 output_grows prev (handleMessage m now prev).
Proof.
  destruct m as [u|id out|id|id err|]; simpl; intros Hm; try discriminate.
  - apply Forall2_output_grows_mapFork, append_output_grows.
  - apply Forall2_output_grows_mapFork. intros f. split; reflexivity.
  - apply Forall2_output_grows_mapFork. intros f. unfold to_failed.
    split; [reflexivity|]. simpl. apply prefix_snoc.
  - apply Forall_Forall2_diag, Forall_forall. intros f _. apply output_grows_refl.
Qed.

Lemma Forall2_output_grows_refl (l : list Fork.t) : Forall2 output_grows l l.
Proof. apply Forall_Forall2_diag, Forall_forall. intros f _. apply output_grows_refl. Qed.

Lemma terminateFork_grows (id : string) (resp : ApiResponse string) (u : UseForks.t) :
  Forall2 output_grows (UseForks.forks u) (UseForks.forks (fst (terminateFork id resp u))).
Proof.
  unfold terminateFork. destruct (success resp); simpl.
  - apply Forall2_output_grows_mapFork. intros f. split; reflexivity.
  - apply Forall2_output_grows_refl.
Qed.

Lemma cancelFork_local_grows (id : string) (now : Z) (l : list Fork.t) :
  Forall2 output_grows l (cancelFork_local id now l).
Proof.
  apply Forall2_output_grows_fmap. intros f.
  destruct (bool_decide (Fork.id f = id) && is_active (Fork.status f));
    split; reflexivity.
Qed.

Lemma apply_op_grows (o : Op) (st : State.t) :
  keeps_records o = true ->
  Forall2 output_grows (State.localForks st) (State.localForks (apply_op o st))
  /\ Forall2 output_grows (apiForks st) (apiForks (apply_op o st)).
Proof.
  destruct o as [id resp now|id resp|m now|rnd]; simpl; intros Hk.
  - split; [apply cancelFork_local_grows | apply terminateFork_grows].
  - split; [apply Forall2_output_grows_refl | apply terminateFork_grows].
  - split; [apply Forall2_output_grows_refl|].
    apply handleMessage_grows. by destruct (is_fork_update m).
  - split; [|apply Forall2_output_grows_refl].
    apply Forall2_output_grows_imap. intros i f. apply tickFork_grows.
Qed.

(** C4, as the code has it.  Across any sequence of [fork_output],
    [fork_completed] and [fork_failed] events, cancels, terminations and
    progress ticks, every record of the local registry and of the
    Gateway-mirrored list keeps its place and its id, and its output
    afterwards starts with its output before: lines are added at the end
    and none is dropped or rewritten.  A [fork_update] is left out: it
    swaps the record for the one the message carries, output included. *)
Theorem output_only_grows_without_fork_update :
  forall (os : list Op) (st : State.t),
    forallb keeps_records os = true ->
    Forall2 output_grows (State.localForks st) (State.localForks (apply_ops os st))
    /\ Forall2 output_grows (apiForks st) (apiForks (apply_ops os st)).
Proof.
  intros os. unfold apply_ops.
  induction os as [|o os IH]; intros st Hos; simpl.
  - split; apply Forall2_output_grows_refl.
  - simpl in Hos. apply andb_prop in Hos as [Ho Hos].
    destruct (apply_op_grows o st Ho) as [H1 H2].
    destruct (IH (apply_op o st) Hos) as [H3 H4].
    split; eapply Forall2_output_grows_trans; eassumption.
Qed.

(** The theorem on a run: two output events, a failure and a tick. *)
Lemma output_only_grows_without_fork_update_witness :
  let st := stateWith 5 EmptyString 1 [] [sampleFork "g0" running [mkOutputLine 1 (Some "a")]] in
  Forall2 output_grows (apiForks st)
    (apiForks (apply_ops [OpMessage (fork_output "g0" "b") 2;
                          OpMessage (fork_output "g0" "done") 3;
                          OpMessage (fork_failed "g0" "boom") 4;
                          OpTick (fun _ => mkTickRandom 1 1 0 1 5 5 5)] st)).
Proof.
  intros st.
  apply (output_only_grows_without_fork_update
           [OpMessage (fork_output "g0" "b") 2;
            OpMessage (fork_output "g0" "done") 3;
            OpMessage (fork_failed "g0" "boom") 4;
            OpTick (fun _ => mkTickRandom 1 1 0 1 5 5 5)] st).
  reflexivity.
Defined.

(** C4 fails as stated: a [fork_update] for a fork that has two output
    lines, carrying a record with none, leaves the fork with none. *)
Lemma fork_update_overwrites_output :
  let st := stateWith 5 EmptyString 1 []
              [sampleFork "g0" running [mkOutputLine 1 (Some "a"); mkOutputLine 2 (Some "b")]] in
  let st' := receive (fork_update (sampleFork "g0" running [])) 3 st in
  Fork.output <$> findFork "g0" (allForks st) = Some [mkOutputLine 1 (Some "a"); mkOutputLine 2 (Some "b")]
  /\ Fork.output <$> findFork "g0" (allForks st') = Some []
  /\ ~ Forall2 output_grows (apiForks st) (apiForks st').
Proof.
  split; [reflexivity|]. split; [reflexivity|].
  intros H. inversion H as [|f f' l l' [_ Hp] _]; subst.
  destruct Hp as [k Hk]. discriminate Hk.
Qed.

End Output.

(** ** Terminal states *)

Section Terminal.

Lemma terminal_not_active (s : ForkStatus) : is_terminal s = true -> is_active s = false.
Proof. by destruct s. Qed.

Lemma tickFork_terminal rnd f : is_terminal (Fork.status f) = true -> tickFork rnd f = f.
Proof.
  intros H. unfold tickFork.
  rewrite bool_decide_eq_false_2; [reflexivity|].
  intros E. rewrite E in H. discriminate.
Qed.

(** One operation leaves a terminal local record where and as it is. *)
Lemma apply_op_terminal_local (o : Op) (st : State.t) (i : nat) (f : Fork.t) :
  State.localForks st !! i = Some f ->
  is_terminal (Fork.status f) = true ->
  State.localForks (apply_op o st) !! i = Some f.
Proof.
  intros Hi Ht. destruct o as [id resp now|id resp|m now|rnd]; simpl;
    try exact Hi.
  - unfold cancelFork_local. rewrite list_lookup_fmap, Hi. simpl.
    rewrite (terminal_not_active _ Ht), andb_false_r. reflexivity.
  - rewrite list_lookup_imap, Hi. simpl. by rewrite tickFork_terminal.
Qed.

Lemma apply_ops_terminal_local (os : list Op) :
  forall (st : State.t) (i : nat) (f : Fork.t),
    State.localForks st !! i = Some f ->
    is_terminal (Fork.status f) = true ->
    State.localForks (apply_ops os st) !! i = Some f.
Proof.
  unfold apply_ops. induction os as [|o os IH]; intros st i f Hi Ht; simpl; [exact Hi|].
  apply IH; [|exact Ht]. by apply apply_op_terminal_local.
Qed.

(** C2, as the code has it.  For a record of the local registry whose
    status is [completed], [failed], [cancelled] or [terminated], no
    sequence of [cancelFork], [terminateFork], push events and progress
    ticks changes anything: the registry holds the very same record at the
    same place afterwards, and so does the merged view, which lists the
    local registry first. *)
Theorem terminal_local_record_is_absorbing :
  forall (os : list Op) (st : State.t) (i : nat) (f : Fork.t),
    State.localForks st !! i = Some f ->
    is_terminal (Fork.status f) = true ->
    State.localForks (apply_ops os st) !! i = Some f
    /\ allForks (apply_ops os st) !! i = Some f.
Proof.
  intros os st i f Hi Ht.
  pose proof (apply_ops_terminal_local os st i f Hi Ht) as H.
  split; [exact H|].
  unfold allForks. by apply lookup_app_l_Some.
Qed.

(** The theorem on a cancelled local fork that is then cancelled again,
    reported completed and failed by the Gateway, and ticked. *)
Lemma terminal_local_record_is_absorbing_witness :
  let st := stateWith 5 EmptyString 2 [sampleFork "local-1" cancelled []] [] in
  let os := [OpCancelFork "local-1" ok_response 1;
             OpTerminateFork "local-1" ok_response;
             OpMessage (fork_completed "local-1") 2;
             OpMessage (fork_failed "local-1" "boom") 3;
             OpMessage (fork_update (sampleFork "local-1" running [])) 4;
             OpTick (fun _ => mkTickRandom 1 1 0 1 5 5 5)] in
  allForks (apply_ops os st) !! 0%nat = Some (sampleFork "local-1" cancelled []).
Proof.
  intros st os.
  apply (terminal_local_record_is_absorbing os st 0 (sampleFork "local-1" cancelled []));
    reflexivity.
Defined.

(** C2 fails as stated.  A fork known from the Gateway only and shown as
    [completed] is shown as [terminated] after a [cancelFork] the Gateway
    accepts, as [failed] after a [fork_failed], and as [running] again
    after a [fork_update] that says so. *)
Lemma terminal_gateway_record_is_rewritten :
  let st := stateWith 5 EmptyString 1 [] [sampleFork "g0" completed []] in
  Fork.status <$> findFork "g0" (allForks st) = Some completed
  /\ Fork.status <$> findFork "g0" (allForks (apply_op (OpCancelFork "g0" ok_response 1) st))
     = Some terminated
  /\ Fork.status <$> findFork "g0" (allForks (apply_op (OpTerminateFork "g0" ok_response) st))
     = Some terminated
  /\ Fork.status <$> findFork "g0" (allForks (apply_op (OpMessage (fork_failed "g0" "boom") 1) st))
     = Some failed
  /\ Fork.status <$>
       findFork "g0" (allForks (apply_op (OpMessage (fork_update (sampleFork "g0" running [])) 1) st))
     = Some running.
Proof. repeat split. Qed.

End Terminal.

(** ** Admission *)

Section Admission.

Lemma canLaunchFork_spec (st : State.t) :
  canLaunchFork st
  = (Z.of_nat (count_active (State.localForks st)) <? Settings.maxConcurrent (State.settings st)).
Proof. reflexivity. Qed.

(** C10. The admission check reads the local registry and the ceiling
    and nothing else.  Two states with the same local registry and the
    same [maxConcurrent] get the same answer, whatever their Gateway-fetched
    lists hold; in particular replacing the state of the [useForks] hook,
    receiving a push event, or refreshing the list from the Gateway leaves
    the answer as it was.  The answer is [true] exactly when fewer than
    [maxConcurrent] local records are queued, spawning or running. *)
Theorem canLaunchFork_ignores_gateway_forks :
  (forall (st1 st2 : State.t),
      State.localForks st1 = State.localForks st2 ->
      Settings.maxConcurrent (State.settings st1) = Settings.maxConcurrent (State.settings st2) ->
      canLaunchFork st1 = canLaunchFork st2)
  /\ (forall (st : State.t) (u : UseForks.t),
        canLaunchFork (setUseForks (fun _ => u) st) = canLaunchFork st)
  /\ (forall (st : State.t) (m : WebSocketMessage) (now : Z),
        canLaunchFork (receive m now st) = canLaunchFork st)
  /\ (forall (st : State.t) (resp : ApiResponse (list Fork.t)),
        canLaunchFork (setUseForks (fetchForks resp) st) = canLaunchFork st)
  /\ (forall (st : State.t),
        canLaunchFork st
        = (Z.of_nat (count_active (State.localForks st))
           <? Settings.maxConcurrent (State.settings st))).
Proof.
  split; [|repeat split].
  intros st1 st2 Hl Hm. rewrite !canLaunchFork_spec. by rewrite Hl, Hm.
Qed.

(** The theorem on two states that differ in their Gateway lists: one
    holds five running forks, the other none. *)
Lemma canLaunchFork_ignores_gateway_forks_witness :
  canLaunchFork
    (stateWith 5 "x" 1 [sampleFork "local-0" queued []]
       [sampleFork "g0" running []; sampleFork "g1" running []; sampleFork "g2" running [];
        sampleFork "g3" running []; sampleFork "g4" running []])
  = canLaunchFork (stateWith 5 "x" 1 [sampleFork "local-0" queued []] []).
Proof.
  apply (proj1 canLaunchFork_ignores_gateway_forks); reflexivity.
Defined.

(** Five running forks known from the Gateway only, a ceiling of five:
    the merged view shows five active forks and admission is granted. *)
Lemma canLaunchFork_remote_running_not_counted :
  let remote := [sampleFork "g0" running []; sampleFork "g1" running [];
                 sampleFork "g2" running []; sampleFork "g3" running [];
                 sampleFork "g4" running []] in
  let st := stateWith 5 "x" 1 [] remote in
  count_active (allForks st) = 5%nat /\ canLaunchFork st = true.
Proof. split; reflexivity. Qed.

End Admission.

Section SingleLaunch.

Lemma canLaunchFork_false (cap : State.t) :
  Settings.maxConcurrent (State.settings cap) <= Z.of_nat (count_active (State.localForks cap)) ->
  canLaunchFork cap = false.
Proof. intros H. rewrite canLaunchFork_spec. apply Z.ltb_ge. exact H. Qed.

Lemma canLaunchFork_true (cap : State.t) :
  Z.of_nat (count_active (State.localForks cap)) < Settings.maxConcurrent (State.settings cap) ->
  canLaunchFork cap = true.
Proof. intros H. rewrite canLaunchFork_spec. apply Z.ltb_lt. exact H. Qed.

(** A denied [launchFork] writes one warning line and nothing else,
    whatever the state it finds when its timer fires. *)
Lemma launchFork_denied (cap : State.t) (fork : Fork.t) (inp : LaunchInput) (st : State.t) :
  canLaunchFork cap = false ->
  exists line,
    launchFork cap fork inp st = (logLine TerminalLine.warning line (t_begin inp) st, None).
Proof.
  intros H. unfold launchFork, launchFork_begin. rewrite H. simpl. eauto.
Qed.

(** An admitted [launchFork] moves the records with the fork's id to
    [spawning] and hands a create call to the Gateway. *)
Lemma launchFork_begin_granted (cap : State.t) (fork : Fork.t) (now : Z) (st : State.t) :
  canLaunchFork cap = true ->
  exists st1 req,
    launchFork_begin cap fork now st = (st1, Some req)
    /\ State.localForks st1 = mapFork (Fork.id fork) (to_spawning now) (State.localForks st)
    /\ apiForks st1 = apiForks st.
Proof.
  intros H. unfold launchFork_begin. rewrite H. simpl. eauto.
Qed.

(** C1. A [launchSingleFork] with a prompt that is not blank creates one
    fork, in status [queued], in front of the local registry.  [N] being
    the number of queued, spawning and running local records at the call:
    - if [N >= maxConcurrent], the launch ends there: no Gateway create
      call is made, the registry is the old one with the queued fork in
      front, the Gateway list is untouched, and the numbers of running and
      of spawning forks are what they were;
    - if [N < maxConcurrent], the timer of the launch moves the new fork
      to [spawning] and makes the Gateway create call for it; the launch
      goes on from that state with the Gateway's answer, and leaves the
      fork [running] or [failed]. *)
Theorem launchSingleFork_admission :
  forall (now : Z) (inp : LaunchInput) (st : State.t),
    blank (State.prompt st) = false ->
    exists st0 fork,
      launchSingleFork_begin now st = Some (st0, fork)
      /\ Fork.status fork = queued
      /\ State.localForks st0 = fork :: State.localForks st
      /\ (Settings.maxConcurrent (State.settings st)
            <= Z.of_nat (count_active (State.localForks st)) ->
          exists st',
            launchSingleFork now inp st = (st', None)
            /\ State.localForks st' = fork :: State.localForks st
            /\ apiForks st' = apiForks st
            /\ count_status running (State.localForks st')
               = count_status running (State.localForks st)
            /\ count_status spawning (State.localForks st')
               = count_status spawning (State.localForks st))
      /\ (Z.of_nat (count_active (State.localForks st))
            < Settings.maxConcurrent (State.settings st) ->
          exists st1 req f' f'',
            launchFork_begin st fork (t_begin inp) st0 = (st1, Some req)
            /\ State.localForks st1 !! 0%nat = Some f'
            /\ Fork.id f' = Fork.id fork
            /\ Fork.status f' = spawning
            /\ req = createRequest st fork
            /\ launchSingleFork_timer st fork inp st0
               = (setPrompt EmptyString
                    (setShowLaunchAnimation false
                       (launchFork_resume fork (response inp) (pid_draw inp) (t_end inp) st1)),
                  Some req)
            /\ launchSingleFork now inp st = launchSingleFork_timer st fork inp st0
            /\ State.localForks (fst (launchSingleFork now inp st)) !! 0%nat = Some f''
            /\ (Fork.status f'' = running \/ Fork.status f'' = failed)).
Proof.
  intros now inp st Hb.
  unfold launchSingleFork, launchSingleFork_begin. rewrite Hb.
  destruct (createLocalFork st (State.selectedAgent st) (State.modelTier st)
              (State.prompt st) (Some (State.includeSummary st)) None now
              (State.forkIdCounter st)) as [fork n] eqn:Hc.
  eexists _, fork. split; [reflexivity|].
  assert (Hq : Fork.status fork = queued).
  { unfold createLocalFork in Hc. injection Hc as <- _. reflexivity. }
  split; [exact Hq|]. split; [reflexivity|]. split.
  - intros Hfull. apply canLaunchFork_false in Hfull.
    unfold launchSingleFork_timer.
    destruct (launchFork_denied st fork inp
                (setLocalForks (cons fork) (setForkIdCounter n (setShowLaunchAnimation true st)))
                Hfull) as [line ->].
    eexists. split; [reflexivity|]. simpl.
    split; [reflexivity|]. split; [reflexivity|].
    unfold count_status. rewrite !filter_cons, Hq.
    split; reflexivity.
  - intros Hfree. apply canLaunchFork_true in Hfree.
    unfold launchSingleFork_timer, launchFork, launchFork_begin. rewrite Hfree.
    cbn [negb]. cbv beta iota zeta.
    set (st1 := logLine TerminalLine.info _ _ (logLine TerminalLine.spawn _ _ _)).
    assert (Hl : State.localForks st1
                 = to_spawning (t_begin inp) fork :: mapFork (Fork.id fork)
                     (to_spawning (t_begin inp)) (State.localForks st)).
    { unfold st1. simpl. unfold mapFork. cbn [fmap list_fmap].
      rewrite decide_True by reflexivity. reflexivity. }
    assert (Hr : exists f'',
               State.localForks (launchFork_resume fork (response inp) (pid_draw inp)
                                   (t_end inp) st1) !! 0%nat = Some f''
               /\ (Fork.status f'' = running \/ Fork.status f'' = failed)).
    { unfold launchFork_resume.
      destruct (apiCreateFork (response inp) (State.useForks st1)) as [u [res|]];
        cbn [State.localForks logLine setTerminalOutput setLocalForks setUseForks];
        rewrite Hl; unfold mapFork; cbn [fmap list_fmap lookup list_lookup];
        rewrite decide_True by reflexivity; eexists; (split; [reflexivity|]); cbn; auto. }
    destruct Hr as (f'' & Hf'' & Hst).
    exists st1, (createRequest st fork), (to_spawning (t_begin inp) fork), f''.
    split; [reflexivity|]. split; [by rewrite Hl|]. split; [reflexivity|].
    split; [reflexivity|]. split; [reflexivity|]. split; [reflexivity|].
    split; [reflexivity|]. split; [exact Hf'' | exact Hst].
Qed.

End SingleLaunch.

Section SingleLaunchWitness.

(** The theorem at a ceiling of one with one running fork, and on an
    empty registry with the default ceiling of five. *)
Lemma launchSingleFork_admission_witness :
  (exists fork st',
      launchSingleFork 7 (sampleInputs 0)
        (stateWith 1 "fix the bug" 2 [sampleFork "g0" running []] [sampleFork "g0" running []])
      = (st', None)
      /\ Fork.status fork = queued
      /\ State.localForks st' = [fork; sampleFork "g0" running []])
  /\ (exists st0 fork st1 req f' f'',
        launchSingleFork_begin 7 (stateWith 5 "fix the bug" 1 [] []) = Some (st0, fork)
        /\ launchFork_begin (stateWith 5 "fix the bug" 1 [] []) fork 10 st0 = (st1, Some req)
        /\ State.localForks st1 !! 0%nat = Some f'
        /\ Fork.status f' = spawning
        /\ snd (launchSingleFork 7 (sampleInputs 0) (stateWith 5 "fix the bug" 1 [] []))
           = Some req
        /\ State.localForks
             (fst (launchSingleFork 7 (sampleInputs 0) (stateWith 5 "fix the bug" 1 [] [])))
             !! 0%nat = Some f''
        /\ (Fork.status f'' = running \/ Fork.status f'' = failed)).
Proof.
  split.
  - destruct (launchSingleFork_admission 7 (sampleInputs 0)
                (stateWith 1 "fix the bug" 2 [sampleFork "g0" running []]
                   [sampleFork "g0" running []]) eq_refl)
      as (st0 & fork & _ & Hq & _ & Hfull & _).
    destruct Hfull as (st' & H1 & H2 & _); [vm_compute; discriminate|].
    exists fork, st'. auto.
  - destruct (launchSingleFork_admission 7 (sampleInputs 0)
                (stateWith 5 "fix the bug" 1 [] []) eq_refl)
      as (st0 & fork & Hb & _ & _ & _ & Hfree).
    destruct Hfree as (st1 & req & f' & f'' & H1 & H2 & _ & H3 & _ & H4 & H5 & H6 & H7);
      [reflexivity|].
    exists st0, fork, st1, req, f', f''.
    split; [exact Hb|]. split; [exact H1|]. split; [exact H2|]. split; [exact H3|].
    split; [by rewrite H5, H4|]. split; [exact H6 | exact H7].
Defined.

End SingleLaunchWitness.

(** ** Retry *)

Section Retry.

Lemma local_id_inj (a b : nat) : local_id a = local_id b -> a = b.
Proof.
  unfold local_id. intros H.
  apply (inj (String.app "local-")) in H.
  by apply (inj pretty) in H.
Qed.






End Retry.

(** ** Batches and workflows *)

Section Batch.

(** What [launchFork] asks of the Gateway depends on the captured render
    and the fork, not on the state it runs in. *)
Lemma launchFork_request (cap : State.t) (fork : Fork.t) (inp : LaunchInput) (st : State.t) :
  snd (launchFork cap fork inp st)
  = if canLaunchFork cap then Some (createRequest cap fork) else None.
Proof.
  unfold launchFork, launchFork_begin. by destruct (canLaunchFork cap).
Qed.

Lemma dispatchAll_requests (cap : State.t) (forks : list Fork.t) (inps : nat -> LaunchInput) :
  forall (i : nat) (st : State.t),
    snd (dispatchAll cap forks inps i st)
    = (fun f => if canLaunchFork cap then Some (createRequest cap f) else None) <$> forks.
Proof.
  induction forks as [|f rest IH]; intros i st; [reflexivity|].
  cbn [dispatchAll fmap list_fmap].
  pose proof (launchFork_request cap f (inps i) st) as Hf.
  destruct (launchFork cap f (inps i) st) as [st1 req]. simpl in Hf.
  specialize (IH (S i) st1).
  destruct (dispatchAll cap rest inps (S i) st1) as [st2 reqs]. simpl in IH |- *.
  by rewrite Hf, IH.
Qed.

(** A denied [launchFork] leaves both fork lists alone. *)
Lemma launchFork_denied_forks (cap : State.t) (fork : Fork.t) (inp : LaunchInput) (st : State.t) :
  canLaunchFork cap = false ->
  State.localForks (fst (launchFork cap fork inp st)) = State.localForks st
  /\ apiForks (fst (launchFork cap fork inp st)) = apiForks st.
Proof.
  intros H. destruct (launchFork_denied cap fork inp st H) as [line ->]. by split.
Qed.

Lemma dispatchAll_denied (cap : State.t) (forks : list Fork.t) (inps : nat -> LaunchInput) :
  canLaunchFork cap = false ->
  forall (i : nat) (st : State.t),
    State.localForks (fst (dispatchAll cap forks inps i st)) = State.localForks st
    /\ apiForks (fst (dispatchAll cap forks inps i st)) = apiForks st.
Proof.
  intros H. induction forks as [|f rest IH]; intros i st; [by split|].
  cbn [dispatchAll].
  destruct (launchFork_denied_forks cap f (inps i) st H) as [H1 H2].
  destruct (launchFork cap f (inps i) st) as [st1 req]. simpl in H1, H2.
  specialize (IH (S i) st1).
  destruct (dispatchAll cap rest inps (S i) st1) as [st2 reqs]. simpl in IH |- *.
  destruct IH as [H3 H4]. split; congruence.
Qed.

Lemma createLocalForks_queued (cap : State.t) (specs : list LaunchSpec) (now : Z) :
  forall counter,
    length (fst (createLocalForks cap specs now counter)) = length specs
    /\ Forall (fun f => Fork.status f = queued) (fst (createLocalForks cap specs now counter)).
Proof.
  induction specs as [|s rest IH]; intros counter; [by split|].
  cbn [createLocalForks]. unfold createLocalFork. cbv beta iota.
  specialize (IH (S counter)).
  destruct (createLocalForks cap rest now (S counter)) as [fs n].
  cbn [fst length] in IH |- *.
  destruct IH as [H1 H2]. split; [by rewrite H1 | by constructor].
Qed.

(** C7, as the code has it.  In [launchMultiFork] and [launchWorkflow]
    every staggered dispatch, the first and the later ones alike, runs
    the admission check of [launchFork]; the check reads the local
    registry and [maxConcurrent] of the render that started the batch,
    so it gives every item the same answer, whatever the registry has
    become by the time the item is dispatched.  Either each item is
    handed to the Gateway, or, when the batch was started at capacity, no
    item is and all the new forks stay queued in front of the registry. *)
Theorem batch_dispatch_runs_the_captured_check :
  (forall (cap : State.t) (forks : list Fork.t) (inps : nat -> LaunchInput)
          (i : nat) (st : State.t),
      snd (dispatchAll cap forks inps i st)
      = (fun f => if canLaunchFork cap then Some (createRequest cap f) else None) <$> forks)
  /\ (forall (now : Z) (inps : nat -> LaunchInput) (st : State.t),
        let newForks :=
          fst (createLocalForks st (spec_of_queue_item <$> State.multiForkQueue st) now
                 (State.forkIdCounter st)) in
        length newForks = length (State.multiForkQueue st)
        /\ snd (launchMultiFork now inps st)
           = (fun f => if canLaunchFork st then Some (createRequest st f) else None) <$> newForks
        /\ (canLaunchFork st = false ->
            State.localForks (fst (launchMultiFork now inps st)) = newForks ++ State.localForks st
            /\ Forall (fun f => Fork.status f = queued) newForks))
  /\ (forall (workflow : WorkflowTemplate.t) (now : Z) (inps : nat -> LaunchInput)
             (st : State.t),
        let newForks :=
          fst (createLocalForks st
                 (spec_of_workflow_fork (WorkflowTemplate.id workflow)
                    <$> WorkflowTemplate.forks workflow) now (State.forkIdCounter st)) in
        length newForks = length (WorkflowTemplate.forks workflow)
        /\ snd (launchWorkflow workflow now inps st)
           = (fun f => if canLaunchFork st then Some (createRequest st f) else None) <$> newForks
        /\ (canLaunchFork st = false ->
            State.localForks (fst (launchWorkflow workflow now inps st))
            = newForks ++ State.localForks st
            /\ Forall (fun f => Fork.status f = queued) newForks)).
Proof.
  split; [intros; apply dispatchAll_requests|]. split.
  - intros now inps st. cbv zeta.
    destruct (createLocalForks_queued st (spec_of_queue_item <$> State.multiForkQueue st)
                now (State.forkIdCounter st)) as [Hlen Hq].
    rewrite length_fmap in Hlen.
    split; [exact Hlen|].
    unfold launchMultiFork, launchMultiFork_begin.
    destruct (State.multiForkQueue st) as [|q0 q].
    { simpl. split; [reflexivity|]. intros _. split; [reflexivity|constructor]. }
    cbv iota.
    remember (spec_of_queue_item <$> q0 :: q) as specs eqn:Hspecs.
    remember (length (q0 :: q)) as len eqn:Hl.
    clear Hspecs Hl Hlen q0 q.
    destruct (createLocalForks st specs now (State.forkIdCounter st)) as [fs n].
    cbn [fst] in *.
    match goal with |- context [dispatchAll st fs inps 0%nat ?s] => set (st3 := s) end.
    pose proof (dispatchAll_requests st fs inps 0%nat st3) as Hreq.
    pose proof (fun H => dispatchAll_denied st fs inps H 0%nat st3) as Hden.
    destruct (dispatchAll st fs inps 0%nat st3) as [st4 reqs]. simpl in Hreq, Hden |- *.
    split; [exact Hreq|].
    intros Hfalse. destruct (Hden Hfalse) as [-> _]. by split.
  - intros workflow now inps st. cbv zeta.
    destruct (createLocalForks_queued st
                (spec_of_workflow_fork (WorkflowTemplate.id workflow)
                   <$> WorkflowTemplate.forks workflow)
                now (State.forkIdCounter st)) as [Hlen Hq].
    rewrite length_fmap in Hlen.
    split; [exact Hlen|].
    unfold launchWorkflow, launchWorkflow_begin.
    destruct (createLocalForks st
                (spec_of_workflow_fork (WorkflowTemplate.id workflow)
                   <$> WorkflowTemplate.forks workflow) now
                (State.forkIdCounter st)) as [fs n].
    cbn [fst] in *.
    match goal with |- context [dispatchAll st fs inps 0%nat ?s] => set (st3 := s) end.
    pose proof (dispatchAll_requests st fs inps 0%nat st3) as Hreq.
    pose proof (fun H => dispatchAll_denied st fs inps H 0%nat st3) as Hden.
    destruct (dispatchAll st fs inps 0%nat st3) as [st4 reqs]. simpl in Hreq, Hden |- *.
    split; [exact Hreq|].
    intros Hfalse. destruct (Hden Hfalse) as [-> _]. by split.
Qed.

End Batch.

Section BatchExamples.

(** The theorem on a batch and on a workflow started at capacity. *)
Lemma batch_dispatch_runs_the_captured_check_witness :
  (exists newForks,
      State.localForks (fst (launchMultiFork 1 sampleInputs (busyState 1)))
      = newForks ++ [sampleFork "g0" running []]
      /\ length newForks = 3%nat
      /\ Forall (fun f => Fork.status f = queued) newForks)
  /\ (exists newForks,
        State.localForks (fst (launchWorkflow codeReviewAll 1 sampleInputs (busyState 1)))
        = newForks ++ [sampleFork "g0" running []]
        /\ length newForks = 3%nat
        /\ Forall (fun f => Fork.status f = queued) newForks).
Proof.
  destruct batch_dispatch_runs_the_captured_check as (_ & Hmulti & Hflow).
  split.
  - destruct (Hmulti 1 sampleInputs (busyState 1)) as (Hlen & _ & Hden).
    destruct (Hden eq_refl) as [Hl Hq].
    eexists. split; [exact Hl|]. split; [exact Hlen | exact Hq].
  - destruct (Hflow codeReviewAll 1 sampleInputs (busyState 1)) as (Hlen & _ & Hden).
    destruct (Hden eq_refl) as [Hl Hq].
    eexists. split; [exact Hl|]. split; [exact Hlen | exact Hq].
Defined.

(** C7 fails as stated.  With one running fork and a ceiling of one, no
    item of the batch is handed to the Gateway, the second and the third
    no more than the first, and each of the three dispatches writes its
    own capacity warning; with a ceiling of five, on the same registry,
    each of them is handed over.  The workflow path does the same. *)
Lemma batch_later_items_are_checked :
  snd (launchMultiFork 1 sampleInputs (busyState 1)) = [None; None; None]
  /\ TerminalLine.type <$>
       slice_last 3 (State.terminalOutput (fst (launchMultiFork 1 sampleInputs (busyState 1))))
     = [TerminalLine.warning; TerminalLine.warning; TerminalLine.warning]
  /\ Fork.status <$> State.localForks (fst (launchMultiFork 1 sampleInputs (busyState 1)))
     = [queued; queued; queued; running]
  /\ from_option (fun _ => true) false <$> snd (launchMultiFork 1 sampleInputs (busyState 5)) = [true; true; true]
  /\ snd (launchWorkflow codeReviewAll 1 sampleInputs (busyState 1)) = [None; None; None]
  /\ from_option (fun _ => true) false <$> snd (launchWorkflow codeReviewAll 1 sampleInputs (busyState 5))
     = [true; true; true].
Proof. vm_compute. repeat split. Qed.

(** A batch started below the ceiling runs all its items: three running
    forks under a ceiling of one. *)
Lemma batch_can_exceed_ceiling :
  let st := setMultiForkQueue sampleQueue (stateWith 1 EmptyString 1 [] []) in
  let st' := fst (launchMultiFork 1 sampleInputs st) in
  Settings.maxConcurrent (State.settings st') = 1
  /\ Fork.status <$> State.localForks st' = [running; running; running]
  /\ Fork.id <$> State.localForks st' = ["g0"; "g1"; "g2"].
Proof. vm_compute. repeat split. Qed.

End BatchExamples.

(** * Further properties of the code *)

(** ** Creating the forks of a batch *)

Section BatchCreation.

(** The fork [createLocalFork] makes of a specification at a counter. *)
Lemma createLocalForks_imap (cap : State.t) (specs : list LaunchSpec) (now : Z) :
  forall counter,
    createLocalForks cap specs now counter
    = (imap (fun i s =>
               fst (createLocalFork cap (spec_agent s) (spec_tier s) (spec_prompt s)
                      (spec_includeSummary s) (spec_workflowId s) now (counter + i)%nat))
            specs,
       (counter + length specs)%nat).
Proof.
  induction specs as [|s rest IH]; intros counter.
  - simpl. by rewrite Nat.add_0_r.
  - cbn [createLocalForks]. unfold createLocalFork at 1. cbv beta iota.
    rewrite (IH (S counter)). cbn [imap length fst].
    rewrite Nat.add_0_r. f_equal; [|lia]. f_equal.
    apply imap_ext. intros i x _. unfold compose.
    by replace (S counter + i)%nat with (counter + S i)%nat by lia.
Qed.

(** X1. [launchWorkflow] creates one queued fork per entry of the
    template, in template order, each with the entry's agent, tier and
    prompt, the summary flag off and the workflow's id, under the
    consecutive placeholders [local-c], [local-(c+1)], ...; it puts them,
    in that order, in front of the local registry, moves the counter past
    them, and leaves the Gateway list and the queue alone. *)
Theorem launchWorkflow_begin_creates_template_forks :
  forall (workflow : WorkflowTemplate.t) (now : Z) (st : State.t),
    let c := State.forkIdCounter st in
    let newForks :=
      imap (fun i item =>
              Fork.mk (local_id (c + i)) (WorkflowFork.agent item)
                (model_name (State.agents st) (WorkflowFork.agent item)
                   (WorkflowFork.modelTier item))
                (WorkflowFork.modelTier item) queued (WorkflowFork.prompt item)
                (WorkflowFork.prompt item) now None None 0%Q None [] false
                (Some (WorkflowTemplate.id workflow)))
           (WorkflowTemplate.forks workflow) in
    snd (launchWorkflow_begin workflow now st) = newForks
    /\ State.localForks (fst (launchWorkflow_begin workflow now st))
       = newForks ++ State.localForks st
    /\ State.forkIdCounter (fst (launchWorkflow_begin workflow now st))
       = (c + length (WorkflowTemplate.forks workflow))%nat
    /\ apiForks (fst (launchWorkflow_begin workflow now st)) = apiForks st
    /\ State.multiForkQueue (fst (launchWorkflow_begin workflow now st))
       = State.multiForkQueue st.
Proof.
  intros workflow now st c newForks.
  unfold launchWorkflow_begin. rewrite createLocalForks_imap.
  rewrite imap_fmap, length_fmap. cbn [fst snd].
  match goal with
  | |- context [imap ?f (WorkflowTemplate.forks workflow)] =>
      replace (imap f (WorkflowTemplate.forks workflow)) with newForks
        by (apply imap_ext; intros; reflexivity)
  end.
  repeat split.
Qed.

(** X2. [launchMultiFork] does nothing on an empty queue: no fork, no
    log line, no Gateway call.  Otherwise it creates one queued fork per
    queue item, in queue order, with the item's agent, tier, prompt and
    summary flag and no workflow id, under consecutive placeholders, in
    front of the local registry; the queue itself is still there when the
    staggered dispatch starts. *)
Theorem launchMultiFork_begin_creates_queue_forks :
  forall (now : Z) (st : State.t),
    let c := State.forkIdCounter st in
    let newForks :=
      imap (fun i item =>
              Fork.mk (local_id (c + i)) (QueueItem.agent item)
                (model_name (State.agents st) (QueueItem.agent item)
                   (QueueItem.modelTier item))
                (QueueItem.modelTier item) queued (QueueItem.prompt item)
                (QueueItem.prompt item) now None None 0%Q None []
                (QueueItem.includeSummary item) None)
           (State.multiForkQueue st) in
    (State.multiForkQueue st = [] ->
       launchMultiFork_begin now st = None
       /\ forall inps, launchMultiFork now inps st = (st, []))
    /\ (State.multiForkQueue st <> [] ->
        exists st1,
          launchMultiFork_begin now st = Some (st1, newForks)
          /\ State.localForks st1 = newForks ++ State.localForks st
          /\ State.forkIdCounter st1 = (c + length (State.multiForkQueue st))%nat
          /\ State.multiForkQueue st1 = State.multiForkQueue st
          /\ apiForks st1 = apiForks st).
Proof.
  intros now st c newForks. split.
  - intros Hq. unfold launchMultiFork, launchMultiFork_begin. rewrite Hq. by split.
  - intros Hq. unfold launchMultiFork_begin.
    destruct (State.multiForkQueue st) as [|q0 q] eqn:Hqueue; [done|].
    rewrite createLocalForks_imap, imap_fmap, length_fmap. cbv beta iota.
    match goal with
    | |- context [imap ?f (q0 :: q)] =>
        replace (imap f (q0 :: q)) with newForks
          by (apply imap_ext; intros; reflexivity)
    end.
    eexists. split; [reflexivity|]. simpl. rewrite Hqueue. repeat split.
Qed.

(** The theorem on a state without a queue and on one with the sample
    queue of three. *)
Lemma launchMultiFork_begin_creates_queue_forks_witness :
  launchMultiFork 1 sampleInputs (stateWith 5 "x" 1 [] []) = (stateWith 5 "x" 1 [] [], [])
  /\ exists st1 newForks,
       launchMultiFork_begin 1 (busyState 5) = Some (st1, newForks)
       /\ Fork.id <$> State.localForks st1 = ["local-2"; "local-3"; "local-4"; "g0"]
       /\ State.forkIdCounter st1 = 5%nat.
Proof.
  split.
  - apply (proj1 (launchMultiFork_begin_creates_queue_forks 1 (stateWith 5 "x" 1 [] []))).
    reflexivity.
  - destruct (proj2 (launchMultiFork_begin_creates_queue_forks 1 (busyState 5)))
      as (st1 & H1 & H2 & H3 & _); [discriminate|].
    eexists st1, _. split; [exact H1|]. rewrite H2, H3. split; reflexivity.
Defined.

End BatchCreation.

(** ** The merged view and the lists derived from it *)

Section MergedViewFacts.

Lemma id_in_ids (id : string) (l : list Fork.t) :
  id ∈ Fork.id <$> l <-> Exists (fun f => Fork.id f = id) l.
Proof.
  rewrite list_elem_of_fmap, Exists_exists. split.
  - intros (f & -> & Hf). eauto.
  - intros (f & Hf & <-). eauto.
Qed.

(** X3. The merged view holds each id once as soon as each of the two
    lists does: an id the local registry carries never comes a second
    time from the Gateway list. *)
Theorem allForks_ids_unique :
  forall (st : State.t),
    NoDup (Fork.id <$> State.localForks st) ->
    NoDup (Fork.id <$> apiForks st) ->
    NoDup (Fork.id <$> allForks st).
Proof.
  intros st Hl Ha. unfold allForks. rewrite fmap_app.
  apply NoDup_app. split; [exact Hl|]. split.
  - intros id Hid Hin.
    apply list_elem_of_fmap in Hin as (f & -> & Hf).
    apply list_elem_of_filter in Hf as [Hnot _].
    apply Hnot. by apply id_in_ids.
  - apply (sublist_NoDup _ (Fork.id <$> apiForks st)); [exact Ha|].
    apply fmap_sublist. apply sublist_filter.
Qed.

(** The theorem on a fork both lists know and one only the Gateway knows. *)
Lemma allForks_ids_unique_witness :
  NoDup (Fork.id <$> allForks
           (stateWith 5 "x" 2 [sampleFork "g0" running []]
              [sampleFork "g0" running []; sampleFork "g1" completed []])).
Proof.
  apply allForks_ids_unique; simpl.
  - apply NoDup_singleton.
  - apply NoDup_cons. split; [|apply NoDup_singleton].
    intros H. apply list_elem_of_singleton in H. discriminate H.
Defined.

(** For an id the local registry does not carry, the merged view shows
    what the Gateway list shows. *)
Lemma findFork_allForks_foreign (st : State.t) (id : string) :
  id ∉ Fork.id <$> State.localForks st ->
  findFork id (allForks st) = findFork id (apiForks st).
Proof.
  intros Hout. unfold allForks. rewrite findFork_app.
  assert (Hnone : findFork id (State.localForks st) = None).
  { apply findFork_None. intros Hex. apply Hout. by apply id_in_ids. }
  rewrite Hnone. unfold findFork.
  induction (apiForks st) as [|a l IH]; [reflexivity|].
  rewrite filter_cons. simpl.
  destruct (bool_decide_reflect (Fork.id a = id)) as [E|E].
  - rewrite decide_True.
    + simpl. by rewrite bool_decide_eq_true_2.
    + intros Hex. apply Hout. apply id_in_ids. by rewrite <- E.
  - destruct (decide _); [|exact IH].
    simpl. by rewrite bool_decide_eq_false_2.
Qed.

(** X4. The merged view knows exactly the ids that one of the two lists
    knows, and for an id of the local registry it shows the first local
    record with that id, whatever the Gateway list holds for it. *)
Theorem allForks_covers_both_lists :
  forall (st : State.t) (id : string),
    (id ∈ Fork.id <$> allForks st
     <-> id ∈ Fork.id <$> State.localForks st \/ id ∈ Fork.id <$> apiForks st)
    /\ (id ∈ Fork.id <$> State.localForks st ->
        findFork id (allForks st) = findFork id (State.localForks st))
    /\ (id ∉ Fork.id <$> State.localForks st ->
        findFork id (allForks st) = findFork id (apiForks st)).
Proof.
  intros st id. split; [|split].
  - unfold allForks. rewrite fmap_app, elem_of_app. split.
    + intros [H|H]; [by left|]. right.
      apply list_elem_of_fmap in H as (f & -> & Hf).
      apply list_elem_of_filter in Hf as [_ Hf].
      apply list_elem_of_fmap. eauto.
    + intros [H|H]; [by left|].
      destruct (decide (id ∈ Fork.id <$> State.localForks st)) as [Hin|Hout]; [by left|].
      right. apply list_elem_of_fmap in H as (f & -> & Hf).
      apply list_elem_of_fmap. exists f. split; [reflexivity|].
      apply list_elem_of_filter. split; [|exact Hf].
      intros Hex. apply Hout. by apply id_in_ids.
  - intros Hin. unfold allForks. rewrite findFork_app.
    destruct (findFork id (State.localForks st)) as [f|] eqn:Hf; [reflexivity|].
    apply findFork_None in Hf. exfalso. apply Hf. by apply id_in_ids.
  - apply findFork_allForks_foreign.
Qed.

(** The theorem on an id both lists know, with differing statuses. *)
Lemma allForks_covers_both_lists_witness :
  findFork "g0"
    (allForks (stateWith 5 "x" 2 [sampleFork "g0" cancelled []] [sampleFork "g0" running []]))
  = Some (sampleFork "g0" cancelled [])
  /\ findFork "g1"
       (allForks (stateWith 5 "x" 2 [sampleFork "g0" cancelled []] [sampleFork "g1" running []]))
     = Some (sampleFork "g1" running []).
Proof.
  split.
  - rewrite (proj1 (proj2 (allForks_covers_both_lists
                             (stateWith 5 "x" 2 [sampleFork "g0" cancelled []]
                                [sampleFork "g0" running []]) "g0"))).
    + reflexivity.
    + simpl. apply list_elem_of_singleton. reflexivity.
  - rewrite (proj2 (proj2 (allForks_covers_both_lists
                             (stateWith 5 "x" 2 [sampleFork "g0" cancelled []]
                                [sampleFork "g1" running []]) "g1"))).
    + reflexivity.
    + simpl. intros H. apply list_elem_of_singleton in H. discriminate H.
Defined.

Lemma active_or_terminal (s : ForkStatus) : is_active s = negb (is_terminal s).
Proof. by destruct s. Qed.

(** X5. The monitor's two lists split the merged view: each fork is in
    exactly one of them, so their lengths add up to the number of forks
    shown, and the header's running count is at most the number of active
    forks. *)
Theorem monitor_lists_partition :
  forall (st : State.t),
    (length (activeForks st) + length (completedForks st) = length (allForks st))%nat
    /\ (forall f, f ∈ allForks st -> (f ∈ activeForks st <-> f ∉ completedForks st))
    /\ (runningCount st <= length (activeForks st))%nat.
Proof.
  intros st. unfold activeForks, completedForks, runningCount. split; [|split].
  - induction (allForks st) as [|f l IH]; [reflexivity|].
    rewrite !filter_cons, (active_or_terminal (Fork.status f)).
    destruct (is_terminal (Fork.status f)); simpl;
      repeat (destruct (decide _); try discriminate; try congruence); simpl; lia.
  - intros f Hf. rewrite !list_elem_of_filter, (active_or_terminal (Fork.status f)).
    destruct (is_terminal (Fork.status f)); simpl; split.
    + intros [H _]. discriminate.
    + intros H. exfalso. apply H. by split.
    + intros _ [H' _]. discriminate.
    + intros _. by split.
  - induction (allForks st) as [|f l IH]; [reflexivity|].
    rewrite !filter_cons.
    destruct (decide (Fork.status f = running)) as [E|E].
    + rewrite E. simpl. lia.
    + destruct (decide _); simpl; lia.
Qed.

End MergedViewFacts.

Section MonitorWitness.

(** The partition on a view with one active and one finished fork. *)
Lemma monitor_lists_partition_witness :
  sampleFork "g0" running []
    ∈ activeForks (stateWith 5 "x" 2 [sampleFork "g0" running []] [sampleFork "g1" failed []])
  <-> sampleFork "g0" running []
        ∉ completedForks
            (stateWith 5 "x" 2 [sampleFork "g0" running []] [sampleFork "g1" failed []]).
Proof.
  apply (proj1 (proj2 (monitor_lists_partition
                         (stateWith 5 "x" 2 [sampleFork "g0" running []]
                            [sampleFork "g1" failed []])))).
  apply list_elem_of_here.
Defined.

End MonitorWitness.

(** ** Clearing the history *)

Section ClearHistory.

Lemma filter_active_idem (l : list Fork.t) :
  filter (fun f => is_active (Fork.status f) = true)
    (filter (fun f => is_active (Fork.status f) = true) l)
  = filter (fun f => is_active (Fork.status f) = true) l.
Proof.
  induction l as [|f l IH]; [reflexivity|].
  rewrite filter_cons. destruct (decide _) as [E|E]; [|exact IH].
  rewrite filter_cons, decide_True by exact E. by rewrite IH.
Qed.

(** X6. [clearHistory] keeps exactly the queued, spawning and running
    local records, in their order, and drops the others; it changes
    neither the admission check nor the Gateway list, and clearing twice
    is clearing once.  Since only the local registry is cleared, an id
    whose local records were all dropped shows in the merged view
    whatever the Gateway list holds for it. *)
Theorem clearHistory_keeps_active :
  forall (now : Z) (st : State.t),
    State.localForks (clearHistory now st)
    = filter (fun f => is_active (Fork.status f) = true) (State.localForks st)
    /\ Forall (fun f => is_terminal (Fork.status f) = false)
         (State.localForks (clearHistory now st))
    /\ canLaunchFork (clearHistory now st) = canLaunchFork st
    /\ apiForks (clearHistory now st) = apiForks st
    /\ (forall now', State.localForks (clearHistory now' (clearHistory now st))
                     = State.localForks (clearHistory now st))
    /\ (forall id,
          (forall f, f ∈ State.localForks st -> Fork.id f = id ->
                     is_terminal (Fork.status f) = true) ->
          findFork id (allForks (clearHistory now st)) = findFork id (apiForks st)).
Proof.
  intros now st. split; [reflexivity|]. split; [|split; [|split; [reflexivity|split]]].
  - simpl. apply Forall_forall. intros f Hf.
    apply list_elem_of_filter in Hf as [Hf _].
    rewrite active_or_terminal in Hf. by destruct (is_terminal (Fork.status f)).
  - rewrite !canLaunchFork_spec. simpl. unfold count_active. by rewrite filter_active_idem.
  - intros now'. simpl. apply filter_active_idem.
  - intros id Hid.
    rewrite findFork_allForks_foreign; [reflexivity|].
    intros Hin. apply list_elem_of_fmap in Hin as (f & -> & Hf).
    simpl in Hf. apply list_elem_of_filter in Hf as [Hact Hf].
    specialize (Hid f Hf eq_refl).
    rewrite active_or_terminal, Hid in Hact. discriminate.
Qed.

(** The theorem on a completed local fork whose Gateway copy still says
    running: after the clearing, the merged view shows the Gateway copy. *)
Lemma clearHistory_keeps_active_witness :
  findFork "g0"
    (allForks (clearHistory 9
                 (stateWith 5 "x" 2 [sampleFork "g0" completed []] [sampleFork "g0" running []])))
  = Some (sampleFork "g0" running []).
Proof.
  rewrite (proj2 (proj2 (proj2 (proj2 (proj2
             (clearHistory_keeps_active 9
                (stateWith 5 "x" 2 [sampleFork "g0" completed []]
                   [sampleFork "g0" running []]))))))).
  - reflexivity.
  - intros f Hf _. simpl in Hf. apply list_elem_of_singleton in Hf. by subst f.
Defined.

End ClearHistory.

(** ** The launch queue *)

Section Queue.

Lemma filter_queue_keep (id : Z) (q : list QueueItem.t) :
  Forall (fun item => QueueItem.id item <> id) q ->
  filter (fun item => QueueItem.id item <> id) q = q.
Proof.
  induction 1 as [|item q Hi _ IH]; [reflexivity|].
  by rewrite filter_cons, decide_True, IH.
Qed.

(** X7. [addToQueue] does nothing on a blank prompt.  On any other it
    puts one item at the end of the queue, holding the agent, tier,
    prompt and summary flag selected at the call, and clears the prompt;
    the registry and the id counter are not touched.  Removing that item
    by its id gives the old queue back, provided no older item has the
    same id; removing an id nobody has changes nothing. *)
Theorem addToQueue_removeFromQueue :
  forall (now : Z) (st : State.t),
    (blank (State.prompt st) = true -> addToQueue now st = st)
    /\ (blank (State.prompt st) = false ->
        State.multiForkQueue (addToQueue now st)
        = State.multiForkQueue st
            ++ [QueueItem.mk now (State.selectedAgent st) (State.modelTier st)
                  (State.prompt st) (State.includeSummary st)]
        /\ State.prompt (addToQueue now st) = EmptyString
        /\ State.localForks (addToQueue now st) = State.localForks st
        /\ State.forkIdCounter (addToQueue now st) = State.forkIdCounter st
        /\ (Forall (fun item => QueueItem.id item <> now) (State.multiForkQueue st) ->
            State.multiForkQueue (removeFromQueue now (addToQueue now st))
            = State.multiForkQueue st))
    /\ (forall id,
          Forall (fun item => QueueItem.id item <> id) (State.multiForkQueue st) ->
          State.multiForkQueue (removeFromQueue id st) = State.multiForkQueue st).
Proof.
  intros now st. split; [|split].
  - intros Hb. unfold addToQueue. by rewrite Hb.
  - intros Hb. unfold addToQueue. rewrite Hb. simpl.
    repeat (split; [reflexivity|]).
    intros Hfresh. rewrite filter_app, filter_queue_keep by exact Hfresh.
    rewrite filter_cons, decide_False by (simpl; tauto).
    by rewrite filter_nil, app_nil_r.
  - intros id Hid. simpl. by apply filter_queue_keep.
Qed.

(** The theorem on the sample queue, with a prompt and without. *)
Lemma addToQueue_removeFromQueue_witness :
  addToQueue 7 (busyState 5) = busyState 5
  /\ State.multiForkQueue (removeFromQueue 7 (addToQueue 7 (setPrompt "review" (busyState 5))))
     = sampleQueue.
Proof.
  split.
  - apply (proj1 (addToQueue_removeFromQueue 7 (busyState 5))). reflexivity.
  - destruct (proj1 (proj2 (addToQueue_removeFromQueue 7 (setPrompt "review" (busyState 5)))))
      as (_ & _ & _ & _ & H); [reflexivity|].
    apply H. simpl. repeat constructor; discriminate.
Defined.

(** X8. A queue item is named after the clock alone, and
    [removeFromQueue] drops every item with the given id: two items added
    at the same clock value share their id, and removing one of them
    removes both. *)
Theorem removeFromQueue_same_clock :
  forall (now : Z) (prompt2 : string) (st : State.t),
    blank (State.prompt st) = false ->
    blank prompt2 = false ->
    let st2 := addToQueue now (setPrompt prompt2 (addToQueue now st)) in
    length (State.multiForkQueue st2) = (length (State.multiForkQueue st) + 2)%nat
    /\ State.multiForkQueue (removeFromQueue now st2)
       = filter (fun item => QueueItem.id item <> now) (State.multiForkQueue st)
    /\ (length (State.multiForkQueue (removeFromQueue now st2))
        <= length (State.multiForkQueue st))%nat.
Proof.
  intros now prompt2 st Hb1 Hb2 st2. subst st2.
  destruct st as [se ag sa mt pr inc an q out lf c u]. simpl in Hb1 |- *.
  unfold addToQueue. simpl. rewrite Hb1. simpl. rewrite Hb2. simpl.
  assert (E : filter (fun item => QueueItem.id item <> now)
                ((q ++ [QueueItem.mk now sa mt pr inc]) ++ [QueueItem.mk now sa mt prompt2 inc])
              = filter (fun item => QueueItem.id item <> now) q).
  { rewrite !filter_app, !filter_cons, !decide_False by (simpl; tauto).
    by rewrite filter_nil, !app_nil_r. }
  split; [rewrite !length_app; simpl; lia|].
  rewrite E. split; [reflexivity | apply length_filter].
Qed.

(** The theorem on two items added to the sample queue at clock 7. *)
Lemma removeFromQueue_same_clock_witness :
  State.multiForkQueue
    (removeFromQueue 7
       (addToQueue 7 (setPrompt "second" (addToQueue 7 (setPrompt "first" (busyState 5))))))
  = sampleQueue.
Proof.
  exact (proj1 (proj2 (removeFromQueue_same_clock 7 "second"
                         (setPrompt "first" (busyState 5)) eq_refl eq_refl))).
Defined.

End Queue.

(** ** Cancelling *)

Section Cancel.

Lemma cancelFork_local_absent (id : string) (now : Z) (l : list Fork.t) :
  id ∉ Fork.id <$> l -> cancelFork_local id now l = l.
Proof.
  induction l as [|f l IH]; intros Hid; [reflexivity|].
  unfold cancelFork_local in *. cbn [fmap list_fmap].
  rewrite bool_decide_eq_false_2.
  - simpl. f_equal. apply IH. intros H. apply Hid. by right.
  - intros E. apply Hid. rewrite <- E. by left.
Qed.

Lemma count_active_cons (f : Fork.t) (l : list Fork.t) :
  count_active (f :: l)
  = ((if is_active (Fork.status f) then 1 else 0) + count_active l)%nat.
Proof.
  unfold count_active. rewrite filter_cons.
  destruct (is_active (Fork.status f)); simpl; reflexivity.
Qed.

(** X9. [cancelFork] never raises the number of forks the admission
    check counts, so a launch that was possible stays possible.  With
    distinct ids in the local registry, cancelling an id whose record is
    queued, spawning or running turns that one record to [cancelled] with
    the clock as [completedAt] and frees exactly one slot; cancelling any
    other id leaves the registry, and the count, as they were.  The
    warning line is written in every case. *)
Theorem cancelFork_frees_a_slot :
  forall (forkId : string) (resp : ApiResponse string) (now : Z) (st : State.t),
    (count_active (State.localForks (cancelFork forkId resp now st))
     <= count_active (State.localForks st))%nat
    /\ (canLaunchFork st = true -> canLaunchFork (cancelFork forkId resp now st) = true)
    /\ (exists kept line,
          State.terminalOutput (cancelFork forkId resp now st) = kept ++ [line]
          /\ TerminalLine.type line = TerminalLine.warning)
    /\ (forall i f,
          NoDup (Fork.id <$> State.localForks st) ->
          State.localForks st !! i = Some f ->
          Fork.id f = forkId ->
          is_active (Fork.status f) = true ->
          State.localForks (cancelFork forkId resp now st)
          = <[i := to_cancelled now f]> (State.localForks st)
          /\ S (count_active (State.localForks (cancelFork forkId resp now st)))
             = count_active (State.localForks st))
    /\ ((forall f, f ∈ State.localForks st -> Fork.id f = forkId ->
                   is_active (Fork.status f) = false) ->
        State.localForks (cancelFork forkId resp now st) = State.localForks st).
Proof.
  intros forkId resp now st.
  assert (Hle : forall l, (count_active (cancelFork_local forkId now l) <= count_active l)%nat).
  { induction l as [|f l IH]; [reflexivity|].
    unfold cancelFork_local in *. cbn [fmap list_fmap]. rewrite !count_active_cons.
    destruct (bool_decide (Fork.id f = forkId) && is_active (Fork.status f)) eqn:E.
    - apply andb_prop in E as [_ ->]. simpl. lia.
    - destruct (is_active (Fork.status f)); simpl; lia. }
  split; [apply Hle|]. split; [|split; [|split]].
  - rewrite !canLaunchFork_spec. simpl. intros H.
    apply Z.ltb_lt in H. apply Z.ltb_lt.
    pose proof (Hle (State.localForks st)). lia.
  - simpl. unfold addTerminalLine. eexists _, _. split; reflexivity.
  - intros i f Hnd Hi Hid Hact. simpl.
    assert (Hgen : forall l i,
               NoDup (Fork.id <$> l) -> l !! i = Some f ->
               cancelFork_local forkId now l = <[i := to_cancelled now f]> l
               /\ S (count_active (cancelFork_local forkId now l)) = count_active l).
    { clear i Hi Hnd. induction l as [|g l IH]; intros i Hnd Hi; [discriminate|].
      apply NoDup_cons in Hnd as [Hhead Hnd].
      destruct i as [|i]; simpl in Hi.
      - injection Hi as ->. unfold cancelFork_local at 1 2. cbn [fmap list_fmap].
        rewrite (bool_decide_eq_true_2 _ Hid), Hact. simpl.
        fold (cancelFork_local forkId now l).
        rewrite cancelFork_local_absent by (rewrite <- Hid; exact Hhead).
        split; [reflexivity|].
        rewrite !count_active_cons, Hact. simpl. reflexivity.
      - destruct (IH i Hnd Hi) as [IH1 IH2].
        unfold cancelFork_local at 1 2. cbn [fmap list_fmap].
        fold (cancelFork_local forkId now l).
        rewrite bool_decide_eq_false_2.
        + simpl. rewrite IH1. split; [reflexivity|].
          rewrite !count_active_cons, <- IH2, IH1. lia.
        + intros E. apply Hhead. rewrite E, <- Hid.
          apply list_elem_of_fmap. exists f. split; [reflexivity|].
          eapply list_elem_of_lookup_2. exact Hi. }
    apply Hgen; assumption.
  - intros Hnone. simpl.
    induction (State.localForks st) as [|g l IH]; [reflexivity|].
    unfold cancelFork_local in *. cbn [fmap list_fmap].
    rewrite IH by (intros f Hf; apply Hnone; by right).
    destruct (bool_decide_reflect (Fork.id g = forkId)) as [E|E]; [|reflexivity].
    rewrite (Hnone g (list_elem_of_here _ _) E). reflexivity.
Qed.

(** The theorem at capacity: a ceiling of one, one running fork; its
    cancellation makes room. *)
Lemma cancelFork_frees_a_slot_witness :
  canLaunchFork (busyState 1) = false
  /\ S (count_active (State.localForks (cancelFork "g0" ok_response 9 (busyState 1))))
     = count_active (State.localForks (busyState 1))
  /\ State.localForks (cancelFork "g1" ok_response 9 (busyState 1))
     = State.localForks (busyState 1)
  /\ canLaunchFork (cancelFork "g1" ok_response 9 (busyState 5)) = true.
Proof.
  destruct (cancelFork_frees_a_slot "g0" ok_response 9 (busyState 1))
    as (_ & _ & _ & Hhit & _).
  destruct (cancelFork_frees_a_slot "g1" ok_response 9 (busyState 1))
    as (_ & _ & _ & _ & Hmiss).
  destruct (cancelFork_frees_a_slot "g1" ok_response 9 (busyState 5))
    as (_ & Hmono & _).
  split; [reflexivity|]. split; [|split].
  - apply (Hhit 0%nat (sampleFork "g0" running [])); try reflexivity.
    simpl. apply NoDup_singleton.
  - apply Hmiss. intros f Hf E. simpl in Hf.
    apply list_elem_of_singleton in Hf. subst f. discriminate E.
  - apply Hmono. reflexivity.
Defined.

End Cancel.

(** ** The progress tick *)

Section Tick.

Lemma Qltb_true (a b : Q) : Qltb a b = true <-> (a < b)%Q.
Proof.
  unfold Qltb. rewrite negb_true_iff, <- not_true_iff_false, Qle_bool_iff.
  split; [apply Qnot_le_lt | apply Qlt_not_le].
Qed.

Lemma Qmin_100_below (y : Q) : (~ 100 <= Qmin 100 y -> Qmin 100 y == y /\ y < 100)%Q.
Proof.
  intros H. destruct (Q.min_spec 100 y) as [[H1 H2]|[H1 H2]].
  - rewrite H2 in H. exfalso. apply H. lra.
  - rewrite H2 in H |- *. split; [reflexivity | lra].
Qed.

(** The three ways a tick treats a fork; [sum] is the progress plus the
    increment as the doubles give it. *)
Lemma tickFork_cases (rnd : TickRandom) (f : Fork.t) :
  let increment := fl (fl (r_increment rnd * 8) + 2) in
  let sum := fl (Fork.progress f + increment) in
  let newOutput :=
    if Qltb (fl 0.7) (r_emit rnd)
    then Fork.output f
           ++ [mkOutputLine (t_output rnd) (getRandomOutput (r_pick rnd) (Fork.agent f))]
    else Fork.output f in
  ((Fork.status f <> running \/ (100 <= Fork.progress f)%Q) /\ tickFork rnd f = f)
  \/ (Fork.status f = running /\ (Fork.progress f < 100)%Q
      /\ (100 <= sum)%Q
      /\ tickFork rnd f
         = Fork.mk (Fork.id f) (Fork.agent f) (Fork.model f) (Fork.modelTier f)
             (if Qltb (fl 0.1) (r_outcome rnd) then completed else failed)
             (Fork.task f) (Fork.prompt f) (Fork.startedAt f) (Some (t_completedAt rnd))
             (Some (t_duration rnd - Fork.startedAt f)) 100%Q (Fork.pid f) newOutput
             (Fork.includeSummary f) (Fork.workflowId f))
  \/ (Fork.status f = running /\ (sum < 100)%Q
      /\ tickFork rnd f
         = Fork.mk (Fork.id f) (Fork.agent f) (Fork.model f) (Fork.modelTier f)
             (Fork.status f) (Fork.task f) (Fork.prompt f) (Fork.startedAt f)
             (Fork.completedAt f) (Fork.duration f)
             (Qmin 100 sum) (Fork.pid f) newOutput
             (Fork.includeSummary f) (Fork.workflowId f)
      /\ (Qmin 100 sum == sum)%Q).
Proof.
  intros increment sum newOutput. unfold tickFork.
  destruct (bool_decide_reflect (Fork.status f = running)) as [Hs|Hs];
    [|left; split; [by left | reflexivity]].
  destruct (Qltb (Fork.progress f) 100) eqn:Hp; simpl.
  - apply Qltb_true in Hp.
    fold increment. fold sum. fold newOutput.
    destruct (Qle_bool 100 (Qmin 100 sum)) eqn:Hm.
    + right. left. apply Qle_bool_iff in Hm.
      repeat split; try assumption.
      eapply Qle_trans; [exact Hm | apply Q.le_min_r].
    + right. right.
      assert (Hn : ~ (100 <= Qmin 100 sum)%Q).
      { intros H. apply Qle_bool_iff in H. congruence. }
      destruct (Qmin_100_below _ Hn) as [E Hlt].
      repeat split; assumption.
  - left. split; [|reflexivity]. right.
    apply Qnot_lt_le. intros H. apply Qltb_true in H. congruence.
Qed.

(** The double sum of a tick is not below the progress it starts from. *)
Lemma tick_sum_ge_progress (p r : Q) :
  is_double p -> (0 <= r)%Q -> (p <= fl (p + fl (fl (r * 8) + 2)))%Q.
Proof.
  intros Hp Hr. pose proof (increment_ge_2 r Hr) as Hinc.
  unfold is_double in Hp. apply Qle_trans with (fl p); [lra | apply fl_mono; lra].
Qed.

(** The double [0.1]. *)
Lemma double_tenth : (fl 0.1 == 3602879701896397 # 36028797018963968)%Q.
Proof. vm_compute. reflexivity. Qed.

(** X10. One progress tick keeps every local record in its place under
    its id and touches running records only.  With draws that are not
    negative, the progress of a record, a double, never goes down, and
    stays at most 100 when it was; the status either stays what it was or
    goes from [running] to [completed] or [failed], which it does exactly
    when the progress plus the increment, both sums rounded as the
    doubles round them, reaches 100. *)
Theorem progressTick_monotone :
  forall (rnd : nat -> TickRandom) (st : State.t) (i : nat) (f : Fork.t),
    (forall k, (0 <= r_increment (rnd k))%Q) ->
    State.localForks st !! i = Some f ->
    exists f',
      State.localForks (progressTick rnd st) !! i = Some f'
      /\ Fork.id f' = Fork.id f
      /\ (Fork.status f <> running -> f' = f)
      /\ (is_double (Fork.progress f) -> (Fork.progress f <= Fork.progress f')%Q)
      /\ ((Fork.progress f <= 100)%Q -> (Fork.progress f' <= 100)%Q)
      /\ (Fork.status f' = Fork.status f
          \/ (Fork.status f = running
              /\ (Fork.status f' = completed \/ Fork.status f' = failed)))
      /\ (Fork.status f = running -> (Fork.progress f < 100)%Q ->
          (Fork.status f' <> running
           <-> (100 <= fl (Fork.progress f + fl (fl (r_increment (rnd i) * 8) + 2)))%Q)).
Proof.
  intros rnd st i f Hrnd Hi.
  exists (tickFork (rnd i) f). split.
  { simpl. by rewrite list_lookup_imap, Hi. }
  specialize (Hrnd i).
  pose proof (fun Hd => tick_sum_ge_progress (Fork.progress f) _ Hd Hrnd) as Hge.
  destruct (tickFork_cases (rnd i) f) as [[Hc ->]|[(Hs & Hp & Hfin & ->)|(Hs & Hlt & -> & Hm)]];
    cbn [Fork.id Fork.status Fork.progress].
  - split; [reflexivity|]. split; [reflexivity|]. split; [intros _; lra|]. split; [tauto|].
    split; [by left|]. intros Hs Hp. destruct Hc as [Hc|Hc]; [contradiction|lra].
  - split; [reflexivity|]. split; [contradiction|]. split; [intros _; lra|].
    split; [intros _; lra|]. split.
    + right. split; [exact Hs|]. destruct (Qltb (fl 0.1) _); [by left | by right].
    + intros _ _. split; [intros _; exact Hfin|].
      intros _. destruct (Qltb (fl 0.1) _); discriminate.
  - split; [reflexivity|]. split; [contradiction|]. rewrite Hm.
    split; [exact Hge|]. split; [intros _; lra|]. split; [by left|].
    intros _ _. split; [contradiction | lra].
Qed.

(** The theorem on a running fork at 92 percent and the draw
    [0.7499999999999999]: the exact sum stays below 100, the doubles
    reach it, and the fork leaves [running]. *)
Lemma progressTick_monotone_witness :
  let r := (3377699720527871 # 4503599627370496)%Q in
  (92 + (r * 8 + 2) < 100)%Q
  /\ exists f',
      State.localForks
        (progressTick (fun _ => mkTickRandom r 0 0 1 9 9 9)
           (stateWith 5 "x" 2
              [Fork.mk "g0" "claude" "opus" default running "x" "x" 0 None None 92 None []
                 false None] [])) !! 0%nat = Some f'
      /\ (92 <= Fork.progress f')%Q
      /\ (Fork.progress f' <= 100)%Q
      /\ Fork.status f' <> running.
Proof.
  intros r. split; [vm_compute; reflexivity|].
  destruct (progressTick_monotone (fun _ => mkTickRandom r 0 0 1 9 9 9)
              (stateWith 5 "x" 2
                 [Fork.mk "g0" "claude" "opus" default running "x" "x" 0 None None 92 None []
                    false None] []) 0
              (Fork.mk "g0" "claude" "opus" default running "x" "x" 0 None None 92 None []
                 false None))
    as (f' & H1 & _ & _ & H2 & H3 & _ & H4).
  - intros k. vm_compute. discriminate.
  - reflexivity.
  - exists f'. split; [exact H1|]. split; [apply H2; vm_compute; reflexivity|].
    split; [apply H3; vm_compute; discriminate|].
    apply H4; [reflexivity | vm_compute; reflexivity | vm_compute; discriminate].
Defined.

(** X11. A tick takes a running fork below 100 out of [running] as
    soon as its progress plus the increment, rounded as the doubles round
    them, reaches 100.  When a tick takes a fork out of [running], it
    sets its progress to 100, stamps [completedAt] with the clock read
    made for it and sets [duration] to the clock read made for it, a
    later one, minus [startedAt], which is not negative when the fork was
    started before that read; the result is [completed] when the outcome
    draw is above the double [0.1], which is [3602879701896397 / 2^55],
    and [failed] otherwise.  The output is the old one, with at most one
    line more. *)
Theorem progressTick_completion_record :
  forall (rnd : nat -> TickRandom) (st : State.t) (i : nat) (f : Fork.t),
    State.localForks st !! i = Some f ->
    Fork.status f = running ->
    exists f',
      State.localForks (progressTick rnd st) !! i = Some f'
      /\ ((Fork.progress f < 100)%Q ->
          (100 <= fl (Fork.progress f + fl (fl (r_increment (rnd i) * 8) + 2)))%Q ->
          Fork.status f' <> running)
      /\ (Fork.status f' <> running ->
          Fork.progress f' = 100%Q
          /\ Fork.completedAt f' = Some (t_completedAt (rnd i))
          /\ Fork.duration f' = Some (t_duration (rnd i) - Fork.startedAt f)
          /\ (Fork.startedAt f <= t_duration (rnd i) ->
              exists d, Fork.duration f' = Some d /\ 0 <= d)
          /\ (Fork.status f' = completed
              <-> (3602879701896397 # 36028797018963968 < r_outcome (rnd i))%Q)
          /\ (Fork.status f' = failed
              <-> (r_outcome (rnd i) <= 3602879701896397 # 36028797018963968)%Q)
          /\ Fork.output f `prefix_of` Fork.output f'
          /\ (length (Fork.output f') <= S (length (Fork.output f)))%nat).
Proof.
  intros rnd st i f Hi Hs.
  exists (tickFork (rnd i) f). split.
  { simpl. by rewrite list_lookup_imap, Hi. }
  destruct (tickFork_cases (rnd i) f) as [[Hc E]|[(_ & Hp & Hfin & E)|(_ & Hlt & E & Hm)]];
    rewrite E; cbn [Fork.status Fork.progress Fork.completedAt Fork.duration
                    Fork.output Fork.startedAt].
  - split; [|contradiction].
    intros Hp _. exfalso. destruct Hc as [Hc|Hc]; [contradiction | lra].
  - split; [intros _ _; destruct (Qltb (fl 0.1) _); discriminate|]. intros _.
    split; [reflexivity|]. split; [reflexivity|]. split; [reflexivity|].
    split; [intros Hpast; eexists; split; [reflexivity | lia]|].
    pose proof double_tenth as Ht.
    destruct (Qltb (fl 0.1) (r_outcome (rnd i))) eqn:Ho.
    + apply Qltb_true in Ho.
      split; [split; [intros _; lra | reflexivity]|].
      split; [split; [discriminate | intros H; lra]|].
      destruct (Qltb (fl 0.7) _); [|split; [reflexivity | lia]].
      split; [by apply prefix_app_r | rewrite length_app; simpl; lia].
    + assert (Hle : (r_outcome (rnd i) <= fl 0.1)%Q).
      { apply Qnot_lt_le. intros H. apply Qltb_true in H. congruence. }
      split; [split; [discriminate | intros H; lra]|].
      split; [split; [intros _; lra | reflexivity]|].
      destruct (Qltb (fl 0.7) _); [|split; [reflexivity | lia]].
      split; [by apply prefix_app_r | rewrite length_app; simpl; lia].
  - split; [|contradiction]. intros _ Hfin. lra.
Qed.

(** The theorem on a fork at 95 started at clock 0, finished by a tick
    whose clock reads are 9 and 10, with the outcome draw at the double
    [0.1] itself: the fork is [failed]. *)
Lemma progressTick_completion_record_witness :
  exists f',
    State.localForks
      (progressTick
         (fun _ => mkTickRandom (1 # 2) 0 0 (3602879701896397 # 36028797018963968) 8 9 10)
         (stateWith 5 "x" 2
            [Fork.mk "g0" "claude" "opus" default running "x" "x" 0 None None 95 None []
               false None] [])) !! 0%nat = Some f'
    /\ Fork.completedAt f' = Some 9
    /\ Fork.duration f' = Some 10
    /\ Fork.status f' = failed.
Proof.
  destruct (progressTick_completion_record
              (fun _ => mkTickRandom (1 # 2) 0 0 (3602879701896397 # 36028797018963968) 8 9 10)
              (stateWith 5 "x" 2
                 [Fork.mk "g0" "claude" "opus" default running "x" "x" 0 None None 95 None []
                    false None] []) 0
              (Fork.mk "g0" "claude" "opus" default running "x" "x" 0 None None 95 None []
                 false None) eq_refl eq_refl)
    as (f' & Hf' & Hout & Hrec).
  destruct (Hrec (Hout ltac:(reflexivity) ltac:(vm_compute; discriminate)))
    as (_ & Hc & Hd & _ & _ & Hst & _).
  exists f'. split; [exact Hf'|]. split; [exact Hc|]. split; [exact Hd|].
  apply Hst. vm_compute. discriminate.
Defined.

End Tick.

Section TickLiveness.

Lemma is_tick_keeps (o : Op) : is_tick o = true -> exists rnd, o = OpTick rnd.
Proof. destruct o; try discriminate. eauto. Qed.

(** A tick that leaves a fork running has added at least 2, as long as
    the target stays within the integers the doubles hold. *)
Lemma tick_sum_ge_threshold (p inc : Q) (k : Z) :
  (0 <= p)%Q -> (2 <= inc)%Q -> k <= 100 -> (inject_Z k <= p + 2)%Q ->
  (inject_Z k <= fl (p + inc))%Q /\ (0 <= fl (p + inc))%Q.
Proof.
  intros Hp Hinc Hk Hkp.
  assert (H0 : (0 <= fl (p + inc))%Q) by (apply fl_nonneg; lra).
  split; [|exact H0].
  destruct (Z_lt_le_dec k 0) as [Hneg|Hpos].
  - assert (inject_Z k <= 0)%Q; [|lra].
    change 0%Q with (inject_Z 0). rewrite <- Zle_Qle. lia.
  - apply fl_ge_Z; [|lra].
    split; [exact Hpos|]. apply Z.le_lt_trans with 100; [exact Hk | reflexivity].
Qed.

(** X12. The simulated progress always ends: a running local fork whose
    progress is not negative and below 100, and that gets [n] ticks in a
    row with draws that are not negative, is [completed] or [failed]
    after them as soon as its progress plus [2 n] reaches 100, since each
    tick adds at least 2.  From the floor of 5 set at launch, 48 ticks
    are enough. *)
Theorem progressTick_finishes_running_forks :
  forall (os : list Op) (st : State.t) (i : nat) (f : Fork.t),
    forallb is_tick os = true ->
    Forall draws_nonneg os ->
    State.localForks st !! i = Some f ->
    Fork.status f = running ->
    (0 <= Fork.progress f)%Q ->
    (Fork.progress f < 100)%Q ->
    (100 <= Fork.progress f + inject_Z (2 * Z.of_nat (length os)))%Q ->
    exists f',
      State.localForks (apply_ops os st) !! i = Some f'
      /\ Fork.id f' = Fork.id f
      /\ (Fork.status f' = completed \/ Fork.status f' = failed).
Proof.
  induction os as [|o os IH]; intros st i f Hticks Hdraws Hi Hs Hp0 Hp Hn.
  - change (inject_Z (2 * Z.of_nat (length (@nil Op)))) with 0%Q in Hn. lra.
  - simpl in Hticks. apply andb_prop in Hticks as [Ht Hticks].
    apply Forall_cons in Hdraws as [Hd Hdraws].
    destruct (is_tick_keeps o Ht) as (rnd & ->).
    unfold apply_ops. cbn [foldl]. fold (apply_ops os (apply_op (OpTick rnd) st)).
    assert (Hi' : State.localForks (apply_op (OpTick rnd) st) !! i
                  = Some (tickFork (rnd i) f)).
    { simpl. by rewrite list_lookup_imap, Hi. }
    simpl in Hd. specialize (Hd i).
    destruct (tickFork_cases (rnd i) f)
      as [[Hc E]|[(_ & _ & Hfin & E)|(_ & Hlt & E & Hm)]].
    + destruct Hc as [Hc|Hc]; [contradiction|lra].
    + exists (tickFork (rnd i) f). split.
      * apply apply_ops_terminal_local; [exact Hi'|].
        rewrite E. simpl. by destruct (Qltb (fl 0.1) _).
      * rewrite E. simpl. split; [reflexivity|].
        destruct (Qltb (fl 0.1) _); [by left | by right].
    + assert (Hth : (inject_Z (100 - 2 * Z.of_nat (length os))
                     <= fl (Fork.progress f + fl (fl (r_increment (rnd i) * 8) + 2)))%Q
                    /\ (0 <= fl (Fork.progress f + fl (fl (r_increment (rnd i) * 8) + 2)))%Q).
      { apply tick_sum_ge_threshold; [exact Hp0 | by apply increment_ge_2 | lia|].
        cbn [length] in Hn. rewrite Nat2Z.inj_succ in Hn.
        replace (2 * Z.succ (Z.of_nat (length os))) with (2 + 2 * Z.of_nat (length os)) in Hn
          by lia.
        unfold Z.sub. rewrite inject_Z_plus, inject_Z_opp.
        rewrite inject_Z_plus in Hn. change (inject_Z 2) with 2%Q in Hn.
        change (inject_Z 100) with 100%Q.
        set (rest := inject_Z (2 * Z.of_nat (length os))) in *.
        clearbody rest. lra. }
      destruct Hth as [Hth Hth0].
      destruct (IH (apply_op (OpTick rnd) st) i (tickFork (rnd i) f)
                  Hticks Hdraws Hi') as (f' & H1 & H2 & H3).
      * rewrite E. exact Hs.
      * rewrite E. cbn [Fork.progress]. rewrite Hm. exact Hth0.
      * rewrite E. cbn [Fork.progress]. rewrite Hm. exact Hlt.
      * rewrite E. cbn [Fork.progress]. rewrite Hm.
        unfold Z.sub in Hth. rewrite inject_Z_plus, inject_Z_opp in Hth.
        change (inject_Z 100) with 100%Q in Hth.
        set (rest := inject_Z (2 * Z.of_nat (length os))) in *.
        clearbody rest. lra.
      * exists f'. split; [exact H1|]. split; [|exact H3].
        rewrite H2, E. reflexivity.
Qed.

(** The theorem on a fork at 96: two ticks with zero draws finish it. *)
Lemma progressTick_finishes_running_forks_witness :
  exists f',
    State.localForks
      (apply_ops [OpTick (fun _ => mkTickRandom 0 0 0 1 8 8 8);
                  OpTick (fun _ => mkTickRandom 0 0 0 1 9 9 9)]
         (stateWith 5 "x" 2
            [Fork.mk "g0" "claude" "opus" default running "x" "x" 0 None None 96 None []
               false None] [])) !! 0%nat = Some f'
    /\ (Fork.status f' = completed \/ Fork.status f' = failed).
Proof.
  destruct (progressTick_finishes_running_forks
              [OpTick (fun _ => mkTickRandom 0 0 0 1 8 8 8);
               OpTick (fun _ => mkTickRandom 0 0 0 1 9 9 9)]
              (stateWith 5 "x" 2
                 [Fork.mk "g0" "claude" "opus" default running "x" "x" 0 None None 96 None []
                    false None] []) 0
              (Fork.mk "g0" "claude" "opus" default running "x" "x" 0 None None 96 None []
                 false None))
    as (f' & H1 & _ & H2).
  - reflexivity.
  - repeat constructor; intros k; simpl; lra.
  - reflexivity.
  - reflexivity.
  - simpl. lra.
  - simpl. lra.
  - vm_compute. discriminate.
  - exists f'. split; [exact H1 | exact H2].
Defined.

(** Why the progress must not be negative: far below zero the doubles
    are spaced wider than an increment, the sum rounds back to where it
    was, and no number of ticks moves the fork. *)
Lemma tickFork_stuck_far_below_zero (rnd : TickRandom) (f : Fork.t) :
  Fork.status f = running ->
  (Fork.progress f == - inject_Z (2 ^ 60))%Q ->
  (0 <= r_increment rnd)%Q -> (r_increment rnd <= 1)%Q ->
  Fork.status (tickFork rnd f) = running
  /\ (Fork.progress (tickFork rnd f) == - inject_Z (2 ^ 60))%Q.
Proof.
  intros Hs Hp H0 H1.
  pose proof (increment_ge_2 _ H0) as Hlo.
  assert (Hhi : (fl (fl (r_increment rnd * 8) + 2) <= 10)%Q).
  { pose proof (fl_le_Z 8 (r_increment rnd * 8) ltac:(lia)
                  ltac:(change (inject_Z 8) with 8%Q; lra)) as H8.
    change (inject_Z 8) with 8%Q in H8.
    apply (fl_le_Z 10); [lia | change (inject_Z 10) with 10%Q; lra]. }
  set (inc := fl (fl (r_increment rnd * 8) + 2)) in *.
  assert (Hsum : (fl (Fork.progress f + inc) == - inject_Z (2 ^ 60))%Q).
  { apply Qle_antisym.
    - apply Qle_trans with (fl (- inject_Z (2 ^ 60) + 10)); [apply fl_mono; lra|].
      vm_compute. discriminate.
    - apply Qle_trans with (fl (- inject_Z (2 ^ 60) + 2)); [|apply fl_mono; lra].
      vm_compute. discriminate. }
  destruct (tickFork_cases rnd f) as [[Hc E]|[(_ & _ & Hfin & E)|(_ & Hlt & E & Hm)]].
  - exfalso. destruct Hc as [Hc|Hc]; [contradiction|].
    rewrite Hp in Hc. vm_compute in Hc. by apply Hc.
  - exfalso. fold inc in Hfin. rewrite Hsum in Hfin. vm_compute in Hfin. by apply Hfin.
  - rewrite E. cbn [Fork.status Fork.progress]. split; [exact Hs|].
    fold inc in Hm |- *. by rewrite Hm.
Qed.

Lemma ticks_stuck_far_below_zero (os : list Op) :
  forall (st : State.t) (i : nat) (f : Fork.t),
    forallb is_tick os = true ->
    (forall rnd k, OpTick rnd ∈ os ->
                   (0 <= r_increment (rnd k))%Q /\ (r_increment (rnd k) <= 1)%Q) ->
    State.localForks st !! i = Some f ->
    Fork.status f = running ->
    (Fork.progress f == - inject_Z (2 ^ 60))%Q ->
    exists f',
      State.localForks (apply_ops os st) !! i = Some f' /\ Fork.status f' = running.
Proof.
  induction os as [|o os IH]; intros st i f Hticks Hdraws Hi Hs Hp; [by exists f|].
  simpl in Hticks. apply andb_prop in Hticks as [Ht Hticks].
  destruct (is_tick_keeps o Ht) as (rnd & ->).
  unfold apply_ops. cbn [foldl]. fold (apply_ops os (apply_op (OpTick rnd) st)).
  destruct (Hdraws rnd i (list_elem_of_here _ _)) as [H0 H1].
  destruct (tickFork_stuck_far_below_zero (rnd i) f Hs Hp H0 H1) as [Hs' Hp'].
  apply (IH _ i (tickFork (rnd i) f)); try assumption.
  - intros rnd' k Hin. apply Hdraws. by apply list_elem_of_further.
  - simpl. by rewrite list_lookup_imap, Hi.
Qed.

End TickLiveness.

(** ** How a launch settles *)

Section Settle.

Lemma mapFork_app (id : string) (g : Fork.t -> Fork.t) (l1 l2 : list Fork.t) :
  mapFork id g (l1 ++ l2) = mapFork id g l1 ++ mapFork id g l2.
Proof. unfold mapFork. apply fmap_app. Qed.

Lemma mapFork_others (id : string) (g : Fork.t -> Fork.t) (l : list Fork.t) :
  Forall (fun f => Fork.id f <> id) l -> mapFork id g l = l.
Proof.
  intros H. apply mapFork_absent. intros Hex.
  apply Exists_exists in Hex as (f & Hf & E).
  rewrite Forall_forall in H. exact (H f Hf E).
Qed.

Lemma mapFork_hit (id : string) (g : Fork.t -> Fork.t) (f : Fork.t) (l : list Fork.t) :
  Fork.id f = id -> mapFork id g (f :: l) = g f :: mapFork id g l.
Proof. intros E. unfold mapFork. cbn [fmap list_fmap]. by rewrite decide_True. Qed.

(** The local registry after an admitted [launchFork]: two rewrites by
    the fork's id. *)
Lemma launchFork_localForks (cap : State.t) (fork : Fork.t) (inp : LaunchInput)
    (st : State.t) :
  canLaunchFork cap = true ->
  State.localForks (fst (launchFork cap fork inp st))
  = mapFork (Fork.id fork)
      (match success (response inp), data (response inp) with
       | true, Some res =>
           to_running (Fork.id res)
             (match truthy_pid (Fork.pid res) with
              | Some p => p
              | None => random_pid (pid_draw inp)
              end)
       | _, _ => with_status failed
       end)
      (mapFork (Fork.id fork) (to_spawning (t_begin inp)) (State.localForks st)).
Proof.
  intros Hcan. unfold launchFork, launchFork_begin. rewrite Hcan. cbn [negb fst].
  unfold launchFork_resume, apiCreateFork.
  destruct st as [se ag sa mt pr inc an q out lf c u].
  destruct (success (response inp)); [destruct (data (response inp)) as [res|]|];
    reflexivity.
Qed.

(** An admitted [launchFork] on a registry where one record carries the
    fork's id settles that record and no other. *)
Lemma launchFork_settles (cap : State.t) (fork : Fork.t) (inp : LaunchInput)
    (st : State.t) (pre post : list Fork.t) (f0 : Fork.t) :
  canLaunchFork cap = true ->
  State.localForks st = pre ++ f0 :: post ->
  Fork.id f0 = Fork.id fork ->
  Forall (fun g => Fork.id g <> Fork.id fork) pre ->
  Forall (fun g => Fork.id g <> Fork.id fork) post ->
  State.localForks (fst (launchFork cap fork inp st)) = pre ++ settle inp f0 :: post.
Proof.
  intros Hcan Hl Hid Hpre Hpost.
  rewrite launchFork_localForks by exact Hcan. rewrite Hl.
  rewrite !mapFork_app, (mapFork_others _ _ pre) by exact Hpre.
  rewrite (mapFork_hit _ _ f0) by exact Hid.
  rewrite (mapFork_others _ _ post) by exact Hpost.
  rewrite (mapFork_others _ _ pre) by exact Hpre.
  rewrite (mapFork_hit _ _ (to_spawning (t_begin inp) f0)) by exact Hid.
  rewrite (mapFork_others _ _ post) by exact Hpost.
  unfold settle.
  destruct (success (response inp)); [destruct (data (response inp)) as [res|]|];
    reflexivity.
Qed.

(** What [launchFork] does to the hook: the record in front when the
    Gateway accepted, the error cell when it did not. *)
Lemma launchFork_hook (cap : State.t) (fork : Fork.t) (inp : LaunchInput) (st : State.t) :
  canLaunchFork cap = true ->
  State.useForks (fst (launchFork cap fork inp st))
  = fst (apiCreateFork (response inp) (State.useForks st)).
Proof.
  intros Hcan. unfold launchFork, launchFork_begin. rewrite Hcan. cbn [negb fst].
  unfold launchFork_resume. cbn.
  destruct (apiCreateFork (response inp) (State.useForks st)) as [u [res|]]; reflexivity.
Qed.

End Settle.

Section SingleOutcome.

Lemma ids_below_fresh (c : nat) (l : list Fork.t) :
  ids_below c l -> forall k, (c <= k)%nat -> Forall (fun g => Fork.id g <> local_id k) l.
Proof.
  unfold ids_below. intros H k Hk. eapply Forall_impl; [exact H|].
  intros g Hg E. specialize (Hg k E). lia.
Qed.

(** X13. A single launch that passes the admission check, on a
    registry whose placeholders are all behind the counter, settles as
    follows, nothing else happening meanwhile.  The new fork stands in
    front of the registry, which is otherwise as before.  If the Gateway
    accepted the create call, the fork is [running] under the Gateway's
    id, at progress 5, with a pid, and the Gateway's record stands in
    front of the hook's list; if not, the fork is [failed] under its
    placeholder, the hook's list is as before and its error cell is set.
    The prompt is cleared and the counter has moved by one. *)
Theorem launchSingleFork_outcome :
  forall (now : Z) (inp : LaunchInput) (st : State.t),
    blank (State.prompt st) = false ->
    canLaunchFork st = true ->
    ids_below (State.forkIdCounter st) (State.localForks st) ->
    exists settled,
      State.localForks (fst (launchSingleFork now inp st)) = settled :: State.localForks st
      /\ Fork.task settled = State.prompt st
      /\ Fork.agent settled = State.selectedAgent st
      /\ (forall res,
            success (response inp) = true -> data (response inp) = Some res ->
            Fork.status settled = running
            /\ Fork.id settled = Fork.id res
            /\ Fork.progress settled = 5%Q
            /\ is_Some (Fork.pid settled)
            /\ apiForks (fst (launchSingleFork now inp st)) = res :: apiForks st)
      /\ (success (response inp) = false \/ data (response inp) = None ->
          Fork.status settled = failed
          /\ Fork.id settled = local_id (State.forkIdCounter st)
          /\ apiForks (fst (launchSingleFork now inp st)) = apiForks st
          /\ UseForks.error (State.useForks (fst (launchSingleFork now inp st)))
             = Some (or_default (error (response inp)) "Failed to create fork"))
      /\ State.prompt (fst (launchSingleFork now inp st)) = EmptyString
      /\ State.forkIdCounter (fst (launchSingleFork now inp st))
         = S (State.forkIdCounter st).
Proof.
  intros now inp st Hb Hcan Hids.
  unfold launchSingleFork, launchSingleFork_begin. rewrite Hb.
  unfold createLocalFork. cbv beta iota.
  set (fork := Fork.mk (local_id (State.forkIdCounter st)) _ _ _ _ _ _ _ _ _ _ _ _ _ _).
  set (st1 := setLocalForks (cons fork) _).
  unfold launchSingleFork_timer.
  pose proof (launchFork_settles st fork inp st1 [] (State.localForks st) fork Hcan
                eq_refl eq_refl (Forall_nil_2 _)
                (ids_below_fresh _ _ Hids _ (Nat.le_refl _))) as Hl.
  pose proof (launchFork_hook st fork inp st1 Hcan) as Hu.
  assert (Hc : State.forkIdCounter (fst (launchFork st fork inp st1))
               = S (State.forkIdCounter st)).
  { unfold launchFork, launchFork_begin. rewrite Hcan. cbn [negb fst].
    unfold launchFork_resume.
    destruct (apiCreateFork (response inp) _) as [u [res|]]; reflexivity. }
  destruct (launchFork st fork inp st1) as [st2 req]. cbn [fst] in Hl, Hu, Hc |- *.
  exists (settle inp fork).
  split; [exact Hl|]. unfold settle, apiForks. cbn [State.useForks setPrompt
    setShowLaunchAnimation State.prompt State.forkIdCounter]. rewrite Hu, Hc.
  unfold apiCreateFork.
  destruct (success (response inp)) eqn:Hs; [destruct (data (response inp)) as [res|] eqn:Hd|].
  - split; [reflexivity|]. split; [reflexivity|]. split; [|split; [|split; reflexivity]].
    + intros res' _ E. injection E as <-. repeat split. cbn. eauto.
    + intros [H|H]; discriminate H.
  - split; [reflexivity|]. split; [reflexivity|]. split; [|split; [|split; reflexivity]].
    + intros res' _ E. discriminate E.
    + intros _. repeat split.
  - split; [reflexivity|]. split; [reflexivity|]. split; [|split; [|split; reflexivity]].
    + intros res' E. discriminate E.
    + intros _. repeat split.
Qed.

(** The theorem on a Gateway that accepts under the id [g0], and on one
    that is down. *)
Lemma launchSingleFork_outcome_witness :
  (exists settled,
      State.localForks (fst (launchSingleFork 1 (sampleInputs 0) (stateWith 5 "x" 1 [] [])))
      = [settled]
      /\ Fork.status settled = running /\ Fork.id settled = "g0")
  /\ (exists settled,
        State.localForks
          (fst (launchSingleFork 1
                  (mkLaunchInput 2 (mkApiResponse false None (Some "Network error")) 0 3)
                  (stateWith 5 "x" 1 [] [])))
        = [settled]
        /\ Fork.status settled = failed /\ Fork.id settled = "local-1").
Proof.
  split.
  - destruct (launchSingleFork_outcome 1 (sampleInputs 0) (stateWith 5 "x" 1 [] [])
                eq_refl eq_refl (Forall_nil_2 _))
      as (settled & H1 & _ & _ & Hok & _).
    destruct (Hok _ eq_refl eq_refl) as (H2 & H3 & _).
    exists settled. split; [exact H1|]. split; [exact H2 | exact H3].
  - destruct (launchSingleFork_outcome 1
                (mkLaunchInput 2 (mkApiResponse false None (Some "Network error")) 0 3)
                (stateWith 5 "x" 1 [] []) eq_refl eq_refl (Forall_nil_2 _))
      as (settled & H1 & _ & _ & _ & Hko & _).
    destruct (Hko (or_introl eq_refl)) as (H2 & H3 & _).
    exists settled. split; [exact H1|]. split; [exact H2 | exact H3].
Defined.

End SingleOutcome.

Section BatchOutcome.

Lemma settle_id (inp : LaunchInput) (f : Fork.t) :
  Fork.id (settle inp f) = Fork.id f
  \/ exists res, data (response inp) = Some res /\ Fork.id (settle inp f) = Fork.id res.
Proof.
  unfold settle.
  destruct (success (response inp)); [destruct (data (response inp)) as [res|]|];
    try (by left). right. eauto.
Qed.

(** The loop settles the forks one after the other, each by its own
    answer, as long as the pending placeholders are distinct, carried by
    no other record, and never used by the Gateway. *)
Lemma dispatchAll_settles (cap : State.t) (inps : nat -> LaunchInput) (forks : list Fork.t) :
  canLaunchFork cap = true ->
  forall (i : nat) (st : State.t) (done old : list Fork.t),
    State.localForks st = done ++ forks ++ old ->
    NoDup (Fork.id <$> forks) ->
    (forall f g, f ∈ forks -> g ∈ done ++ old -> Fork.id g <> Fork.id f) ->
    (forall k f res, f ∈ forks -> data (response (inps k)) = Some res ->
                     Fork.id res <> Fork.id f) ->
    State.localForks (fst (dispatchAll cap forks inps i st))
    = done ++ imap (fun k f => settle (inps (i + k)%nat) f) forks ++ old.
Proof.
  intros Hcan. induction forks as [|f rest IH]; intros i st done old Hl Hnd Hsep Hfor.
  - exact Hl.
  - cbn [dispatchAll].
    apply NoDup_cons in Hnd as [Hf Hnd]. fold (fmap Fork.id rest) in Hf, Hnd.
    assert (Hpre : Forall (fun g => Fork.id g <> Fork.id f) done).
    { apply Forall_forall. intros g Hg. apply Hsep; [by left|].
      apply elem_of_app. by left. }
    assert (Hpost : Forall (fun g => Fork.id g <> Fork.id f) (rest ++ old)).
    { apply Forall_forall. intros g Hg. apply elem_of_app in Hg as [Hg|Hg].
      - intros E. apply Hf. rewrite <- E. apply list_elem_of_fmap. eauto.
      - apply Hsep; [by left|]. apply elem_of_app. by right. }
    pose proof (launchFork_settles cap f (inps i) st done (rest ++ old) f Hcan Hl
                  eq_refl Hpre Hpost) as Hstep.
    destruct (launchFork cap f (inps i) st) as [st1 req]. cbn [fst] in Hstep.
    specialize (IH (S i) st1 (done ++ [settle (inps i) f]) old).
    destruct (dispatchAll cap rest inps (S i) st1) as [st2 reqs]. cbn [fst] in IH |- *.
    rewrite IH.
    + rewrite <- app_assoc. cbn [imap app]. rewrite Nat.add_0_r. do 3 f_equal.
      apply imap_ext. intros k g _. unfold compose.
      by replace (S i + k)%nat with (i + S k)%nat by lia.
    + rewrite Hstep, <- app_assoc. reflexivity.
    + exact Hnd.
    + intros f' g Hf' Hg.
      apply elem_of_app in Hg as [Hg|Hg]; [apply elem_of_app in Hg as [Hg|Hg]|].
      * apply Hsep; [by right|]. apply elem_of_app. by left.
      * apply list_elem_of_singleton in Hg. subst g.
        destruct (settle_id (inps i) f) as [E|(res & Hres & E)]; rewrite E.
        -- intros E'. apply Hf. rewrite E'. apply list_elem_of_fmap. eauto.
        -- apply (Hfor i f' res); [by right | exact Hres].
      * apply Hsep; [by right|]. apply elem_of_app. by right.
    + intros k f' res Hf'. apply Hfor. by right.
Qed.

(** The forks a batch creates carry distinct placeholders, none of them
    behind the counter. *)
Lemma createLocalForks_ids (cap : State.t) (specs : list LaunchSpec) (now : Z) (c : nat) :
  Fork.id <$> fst (createLocalForks cap specs now c)
  = local_id <$> seq c (length specs).
Proof.
  revert c. induction specs as [|s rest IH]; intros c; [reflexivity|].
  cbn [createLocalForks]. unfold createLocalFork at 1. cbv beta iota.
  specialize (IH (S c)).
  destruct (createLocalForks cap rest now (S c)) as [fs n]. cbn [fst] in IH |- *.
  cbn [fmap list_fmap length seq]. f_equal. exact IH.
Qed.

Lemma local_ids_NoDup (c n : nat) : NoDup (local_id <$> seq c n).
Proof.
  apply NoDup_fmap_2_strong; [|apply NoDup_seq].
  intros a b _ _. apply local_id_inj.
Qed.

Lemma batch_settles (st st1 : State.t) (specs : list LaunchSpec) (now : Z)
    (inps : nat -> LaunchInput) :
  canLaunchFork st = true ->
  ids_below (State.forkIdCounter st) (State.localForks st) ->
  (forall k, foreign_id (response (inps k))) ->
  State.localForks st1
  = fst (createLocalForks st specs now (State.forkIdCounter st)) ++ State.localForks st ->
  State.localForks (fst (dispatchAll st
                           (fst (createLocalForks st specs now (State.forkIdCounter st)))
                           inps 0 st1))
  = imap (fun k f => settle (inps k) f)
      (fst (createLocalForks st specs now (State.forkIdCounter st)))
    ++ State.localForks st.
Proof.
  intros Hcan Hids Hfor Hl.
  pose proof (createLocalForks_ids st specs now (State.forkIdCounter st)) as Hnames.
  set (forks := fst (createLocalForks st specs now (State.forkIdCounter st))) in *.
  assert (Hplace : forall f, f ∈ forks ->
            exists k, (State.forkIdCounter st <= k)%nat /\ Fork.id f = local_id k).
  { intros f Hf.
    assert (Hin : Fork.id f ∈ Fork.id <$> forks) by (apply list_elem_of_fmap; eauto).
    rewrite Hnames in Hin. apply list_elem_of_fmap in Hin as (k & E & Hk).
    apply elem_of_seq in Hk. exists k. split; [lia | exact E]. }
  rewrite (dispatchAll_settles st inps forks Hcan 0 st1 [] (State.localForks st)).
  - reflexivity.
  - exact Hl.
  - rewrite Hnames. apply local_ids_NoDup.
  - intros f g Hf Hg. destruct (Hplace f Hf) as (k & Hk & ->).
    pose proof (ids_below_fresh _ _ Hids k Hk) as Hfresh.
    rewrite Forall_forall in Hfresh. by apply Hfresh.
  - intros k f res Hf Hres. destruct (Hplace f Hf) as (n & _ & ->).
    by apply (Hfor k res n).
Qed.

(** X14. A batch or a workflow that passes the admission check, on a
    registry whose placeholders are all behind the counter and with a
    Gateway that never names a fork like a placeholder, settles each of
    its forks by the answer to that fork's own create call, nothing else
    happening meanwhile: the [k]-th new fork ends [running] under the
    Gateway's id when its call was accepted and [failed] under its
    placeholder when it was not, whatever happened to the others.  The
    new forks stand in front of the registry in batch order, the older
    records are untouched, and [launchMultiFork] leaves an empty queue. *)
Theorem batch_outcome_per_item :
  forall (now : Z) (inps : nat -> LaunchInput) (st : State.t),
    canLaunchFork st = true ->
    ids_below (State.forkIdCounter st) (State.localForks st) ->
    (forall k, foreign_id (response (inps k))) ->
    (State.multiForkQueue st <> [] ->
     State.localForks (fst (launchMultiFork now inps st))
     = imap (fun k f => settle (inps k) f)
         (fst (createLocalForks st (spec_of_queue_item <$> State.multiForkQueue st) now
                 (State.forkIdCounter st)))
       ++ State.localForks st
     /\ State.multiForkQueue (fst (launchMultiFork now inps st)) = [])
    /\ (forall workflow,
          State.localForks (fst (launchWorkflow workflow now inps st))
          = imap (fun k f => settle (inps k) f)
              (fst (createLocalForks st
                      (spec_of_workflow_fork (WorkflowTemplate.id workflow)
                         <$> WorkflowTemplate.forks workflow) now (State.forkIdCounter st)))
            ++ State.localForks st).
Proof.
  intros now inps st Hcan Hids Hfor. split.
  - intros Hq. unfold launchMultiFork, launchMultiFork_begin.
    destruct (State.multiForkQueue st) as [|q0 q]; [done|]. cbv iota.
    remember (spec_of_queue_item <$> q0 :: q) as specs eqn:Hspecs. clear Hspecs Hq.
    pose proof (fun st1 => batch_settles st st1 specs now inps Hcan Hids Hfor) as Hb.
    destruct (createLocalForks st specs now (State.forkIdCounter st)) as [fs n].
    cbn [fst] in Hb.
    match goal with |- context [dispatchAll st fs inps 0%nat ?s] => set (st3 := s) end.
    specialize (Hb st3 eq_refl).
    destruct (dispatchAll st fs inps 0%nat st3) as [st4 reqs]. cbn [fst] in Hb |- *.
    split; [exact Hb | reflexivity].
  - intros workflow. unfold launchWorkflow, launchWorkflow_begin.
    remember (spec_of_workflow_fork (WorkflowTemplate.id workflow)
                <$> WorkflowTemplate.forks workflow) as specs eqn:Hspecs. clear Hspecs.
    pose proof (fun st1 => batch_settles st st1 specs now inps Hcan Hids Hfor) as Hb.
    destruct (createLocalForks st specs now (State.forkIdCounter st)) as [fs n].
    cbn [fst] in Hb.
    match goal with |- context [dispatchAll st fs inps 0%nat ?s] => set (st3 := s) end.
    specialize (Hb st3 eq_refl).
    destruct (dispatchAll st fs inps 0%nat st3) as [st4 reqs]. cbn [fst] in Hb |- *.
    exact Hb.
Qed.

End BatchOutcome.

Section BatchOutcomeWitness.

(** The theorem on the sample queue when the Gateway refuses the second
    create call and accepts the two others. *)
Lemma batch_outcome_per_item_witness :
  let inps := fun k : nat =>
                if (k =? 1)%nat
                then mkLaunchInput 10 (mkApiResponse false None (Some "Network error")) 0 20
                else sampleInputs k in
  let st' := fst (launchMultiFork 1 inps
                    (setMultiForkQueue sampleQueue (stateWith 5 EmptyString 1 [] []))) in
  Fork.status <$> State.localForks st' = [running; failed; running]
  /\ Fork.id <$> State.localForks st' = ["g0"; "local-2"; "g2"]
  /\ State.multiForkQueue st' = [].
Proof.
  intros inps st'. subst st'.
  destruct (batch_outcome_per_item 1 inps
              (setMultiForkQueue sampleQueue (stateWith 5 EmptyString 1 [] [])))
    as [Hmulti _].
  - reflexivity.
  - apply Forall_nil_2.
  - intros k res n. subst inps. cbv beta.
    destruct (k =? 1)%nat; [discriminate|].
    intros E. injection E as <-. discriminate.
  - destruct Hmulti as [Hl Hq]; [discriminate|].
    rewrite Hl, Hq. repeat split.
Defined.

End BatchOutcomeWitness.

(** ** Placeholder ids over a session *)

Section Placeholders.

Lemma ids_below_weaken (c c' : nat) (l : list Fork.t) :
  (c <= c')%nat -> ids_below c l -> ids_below c' l.
Proof.
  intros Hc H. unfold ids_below in *. eapply Forall_impl; [exact H|].
  intros f Hf n E. specialize (Hf n E). lia.
Qed.

Lemma ids_below_mapFork (c : nat) (id : string) (g : Fork.t -> Fork.t) (l : list Fork.t) :
  (forall f n, Fork.id (g f) = local_id n ->
               Fork.id f = local_id n) ->
  ids_below c l -> ids_below c (mapFork id g l).
Proof.
  intros Hg H. unfold ids_below, mapFork in *. apply Forall_fmap.
  eapply Forall_impl; [exact H|]. intros f Hf n. simpl.
  destruct (decide (Fork.id f = id)); [|apply Hf].
  intros E. apply Hf, Hg, E.
Qed.

Lemma ids_below_created (cap : State.t) (specs : list LaunchSpec) (now : Z) (c : nat) :
  ids_below (c + length specs) (fst (createLocalForks cap specs now c))
  /\ snd (createLocalForks cap specs now c) = (c + length specs)%nat.
Proof.
  split; [|by rewrite createLocalForks_imap].
  unfold ids_below. apply Forall_forall. intros f Hf n E.
  assert (Hin : Fork.id f ∈ Fork.id <$> fst (createLocalForks cap specs now c))
    by (apply list_elem_of_fmap; eauto).
  rewrite createLocalForks_ids in Hin.
  apply list_elem_of_fmap in Hin as (k & Ek & Hk).
  apply elem_of_seq in Hk. rewrite E in Ek. apply local_id_inj in Ek. lia.
Qed.

Lemma perform_keeps_placeholders (a : Action) (st : State.t) :
  foreign_action a ->
  ids_below (State.forkIdCounter st) (State.localForks st) ->
  ids_below (State.forkIdCounter (perform a st)) (State.localForks (perform a st))
  /\ (State.forkIdCounter st <= State.forkIdCounter (perform a st))%nat.
Proof.
  intros Hfor H.
  destruct a as [now|fork now|now|workflow now|cap fork now|fork resp r now|o|now|now|id| |resp];
    cbn [perform].
  - unfold launchSingleFork_begin. destruct (blank (State.prompt st)); [by split|].
    unfold createLocalFork. cbn. split; [|lia].
    apply Forall_cons. split.
    + cbn. intros n E. apply local_id_inj in E. lia.
    + eapply ids_below_weaken; [|exact H]. lia.
  - unfold retryFork_begin.
    destruct (createLocalFork_throws st (Fork.agent fork)).
    { cbn. split; [|lia]. eapply ids_below_weaken; [|exact H]. lia. }
    unfold createLocalFork. cbn. split; [|lia].
    apply Forall_cons. split.
    + cbn. intros n E. apply local_id_inj in E. lia.
    + eapply ids_below_weaken; [|exact H]. lia.
  - unfold launchMultiFork_begin.
    destruct (State.multiForkQueue st) as [|q0 q]; [by split|]. cbv iota.
    destruct (ids_below_created st (spec_of_queue_item <$> q0 :: q) now
                (State.forkIdCounter st)) as [Hnew Hn].
    destruct (createLocalForks st (spec_of_queue_item <$> q0 :: q) now
                (State.forkIdCounter st)) as [fs n]. cbn [fst snd] in Hnew, Hn |- *.
    subst n. cbn. split; [|lia].
    apply Forall_app. split; [exact Hnew|].
    eapply ids_below_weaken; [|exact H]. lia.
  - unfold launchWorkflow_begin.
    destruct (ids_below_created st
                (spec_of_workflow_fork (WorkflowTemplate.id workflow)
                   <$> WorkflowTemplate.forks workflow) now
                (State.forkIdCounter st)) as [Hnew Hn].
    destruct (createLocalForks st
                (spec_of_workflow_fork (WorkflowTemplate.id workflow)
                   <$> WorkflowTemplate.forks workflow) now
                (State.forkIdCounter st)) as [fs n]. cbn [fst snd] in Hnew, Hn |- *.
    subst n. cbn. split; [|lia].
    apply Forall_app. split; [exact Hnew|].
    eapply ids_below_weaken; [|exact H]. lia.
  - unfold launchFork_begin. destruct (canLaunchFork cap); cbn; (split; [|lia]);
      [|exact H].
    apply ids_below_mapFork; [|exact H]. intros f n E. exact E.
  - unfold launchFork_resume, apiCreateFork. cbn in Hfor.
    destruct (success resp); [destruct (data resp) as [res|] eqn:Hd|];
      cbn; (split; [|lia]); apply ids_below_mapFork; try exact H.
    + intros f n E. cbn in E. exfalso. exact (Hfor res n Hd E).
    + intros f n E. exact E.
    + intros f n E. exact E.
  - destruct o as [id resp now|id resp|m now|rnd]; cbn; (split; [|lia]);
      try exact H.
    + unfold ids_below, cancelFork_local in *. apply Forall_fmap.
      eapply Forall_impl; [exact H|]. intros f Hf n. simpl.
      destruct (bool_decide (Fork.id f = id) && is_active (Fork.status f)); apply Hf.
    + unfold ids_below in *. apply Forall_forall. intros f' Hf' n E.
      apply list_elem_of_lookup in Hf' as [i Hi].
      rewrite list_lookup_imap in Hi.
      destruct (State.localForks st !! i) as [f|] eqn:Hfi; [|discriminate].
      simpl in Hi. injection Hi as <-.
      rewrite Forall_forall in H.
      apply (H f); [eapply list_elem_of_lookup_2; exact Hfi|].
      rewrite <- E. symmetry.
      destruct (tickFork_cases (rnd i) f) as [[_ ->]|[(_ & _ & _ & ->)|(_ & _ & -> & _)]];
        reflexivity.
  - cbn. split; [|lia]. unfold ids_below in *.
    apply Forall_forall. intros f Hf.
    apply list_elem_of_filter in Hf as [_ Hf].
    rewrite Forall_forall in H. by apply H.
  - unfold addToQueue. destruct (blank (State.prompt st)); cbn; (split; [exact H | lia]).
  - cbn. split; [exact H | lia].
  - cbn. split; [exact H | lia].
  - cbn. split; [exact H | lia].
Qed.

(** X15. Over any session in which the Gateway never names a fork like
    a placeholder, the id counter never goes back and every placeholder
    [local-n] found in the local registry has [n] below the counter,
    whatever the order of launches, retries, batches, answers, cancels,
    ticks, push events, clearings and queue edits.  So the placeholder the
    next launch will draw is carried by no local record; this holds in
    particular from the freshly mounted component on. *)
Theorem placeholders_stay_behind_counter :
  forall (acts : list Action) (st : State.t),
    Forall foreign_action acts ->
    ids_below (State.forkIdCounter st) (State.localForks st) ->
    ids_below (State.forkIdCounter (session acts st)) (State.localForks (session acts st))
    /\ (State.forkIdCounter st <= State.forkIdCounter (session acts st))%nat
    /\ Forall (fun f => Fork.id f <> local_id (State.forkIdCounter (session acts st)))
         (State.localForks (session acts st)).
Proof.
  intros acts. unfold session.
  assert (Hmain : forall st,
            Forall foreign_action acts ->
            ids_below (State.forkIdCounter st) (State.localForks st) ->
            ids_below (State.forkIdCounter (foldl (fun s a => perform a s) st acts))
              (State.localForks (foldl (fun s a => perform a s) st acts))
            /\ (State.forkIdCounter st
                <= State.forkIdCounter (foldl (fun s a => perform a s) st acts))%nat).
  { induction acts as [|a acts IH]; intros st Hfor H; [by split|].
    apply Forall_cons in Hfor as [Ha Hfor]. cbn [foldl].
    destruct (perform_keeps_placeholders a st Ha H) as [H1 H2].
    destruct (IH (perform a st) Hfor H1) as [H3 H4]. split; [exact H3 | lia]. }
  intros st Hfor H. destruct (Hmain st Hfor H) as [H1 H2].
  split; [exact H1|]. split; [exact H2|].
  apply (ids_below_fresh _ _ H1). lia.
Qed.

(** The theorem on a session from the freshly mounted component: a
    prompt is queued, the batch is started, its fork is accepted under
    [g0] and cancelled, and a retry is begun. *)
Lemma placeholders_stay_behind_counter_witness :
  let acts := [ActAddToQueue 1; ActLaunchMultiBegin 2;
               ActLaunchForkBegin (initialState 0) (sampleFork "local-1" queued []) 3;
               ActLaunchForkResume (sampleFork "local-1" queued [])
                 (accepted "g0" (Some 4242)) 0 4;
               ActOp (OpCancelFork "g0" ok_response 5);
               ActRetryBegin (sampleFork "g0" cancelled []) 6] in
  let st := session acts (setPrompt "review" (initialState 0)) in
  Forall (fun f => Fork.id f <> local_id (State.forkIdCounter st)) (State.localForks st)
  /\ Fork.id <$> State.localForks st = ["local-2"; "g0"].
Proof.
  intros acts st. split; [|reflexivity].
  apply (placeholders_stay_behind_counter acts (setPrompt "review" (initialState 0))).
  - repeat constructor. intros res n E. injection E as <-. discriminate.
  - apply Forall_nil_2.
Defined.

End Placeholders.

(** ** The Gateway mirror: refresh and push events *)

Section Hook.

(** X16. A refresh the Gateway answers with a list replaces the hook's
    list by it and clears the error cell; any other answer keeps the list
    the hook had and sets the error cell, to the Gateway's message or to
    a fixed one when there is none.  [loading] is off afterwards in both
    cases, and no refresh changes what the merged view shows for an id of
    the local registry. *)
Theorem fetchForks_keeps_list_on_failure :
  forall (resp : ApiResponse (list Fork.t)) (st : State.t),
    let st' := setUseForks (fetchForks resp) st in
    UseForks.loading (State.useForks st') = false
    /\ (forall d, success resp = true -> data resp = Some d ->
          apiForks st' = d /\ UseForks.error (State.useForks st') = None)
    /\ (success resp = false \/ data resp = None ->
          apiForks st' = apiForks st
          /\ UseForks.error (State.useForks st')
             = Some (or_default (error resp) "Failed to fetch forks"))
    /\ State.localForks st' = State.localForks st
    /\ (forall id, id ∈ Fork.id <$> State.localForks st ->
          findFork id (allForks st') = findFork id (allForks st)).
Proof.
  intros resp st st'. subst st'. unfold fetchForks, apiForks.
  split; [reflexivity|]. split; [|split; [|split; [reflexivity|]]].
  - intros d Hs Hd. cbn. rewrite Hs, Hd. by split.
  - intros H. cbn.
    destruct (success resp); [destruct (data resp)|]; try (by split).
    destruct H; discriminate.
  - intros id Hid. unfold allForks. rewrite !findFork_app.
    change (State.localForks (setUseForks _ st)) with (State.localForks st).
    destruct (findFork id (State.localForks st)) as [f|] eqn:Hf; [reflexivity|].
    apply findFork_None in Hf. exfalso. apply Hf. by apply id_in_ids.
Qed.

(** The theorem on a failed refresh over a hook that knows two forks. *)
Lemma fetchForks_keeps_list_on_failure_witness :
  apiForks (setUseForks (fetchForks (mkApiResponse false None None))
              (stateWith 5 "x" 1 [] [sampleFork "g0" running []; sampleFork "g1" failed []]))
  = [sampleFork "g0" running []; sampleFork "g1" failed []]
  /\ UseForks.error
       (State.useForks
          (setUseForks (fetchForks (mkApiResponse false None None))
             (stateWith 5 "x" 1 [] [sampleFork "g0" running []; sampleFork "g1" failed []])))
     = Some "Failed to fetch forks".
Proof.
  apply (proj1 (proj2 (proj2 (fetchForks_keeps_list_on_failure
                                (mkApiResponse false None None)
                                (stateWith 5 "x" 1 []
                                   [sampleFork "g0" running []; sampleFork "g1" failed []]))))).
  by left.
Defined.

Lemma mapFork_comm (id1 id2 : string) (g1 g2 : Fork.t -> Fork.t) (l : list Fork.t) :
  id1 <> id2 ->
  (forall f, Fork.id f = id1 -> Fork.id (g1 f) = id1) ->
  (forall f, Fork.id f = id2 -> Fork.id (g2 f) = id2) ->
  mapFork id1 g1 (mapFork id2 g2 l) = mapFork id2 g2 (mapFork id1 g1 l).
Proof.
  intros Hne H1 H2. unfold mapFork. rewrite <- !list_fmap_compose.
  apply list_fmap_ext. intros i f _. simpl.
  destruct (decide (Fork.id f = id2)) as [E2|E2];
    destruct (decide (Fork.id f = id1)) as [E1|E1].
  - congruence.
  - pose proof (H2 f E2). repeat case_decide; congruence.
  - pose proof (H1 f E1). repeat case_decide; congruence.
  - repeat case_decide; congruence.
Qed.

(** A handler is a rewrite by the id of its message that keeps that id. *)
Lemma handleMessage_mapFork (m : WebSocketMessage) (now : Z) :
  match message_id m with
  | Some id =>
      exists g, (forall f, Fork.id f = id -> Fork.id (g f) = id)
                /\ forall l, handleMessage m now l = mapFork id g l
  | None => forall l, handleMessage m now l = l
  end.
Proof.
  destruct m as [u|id out|id|id err|]; simpl; try reflexivity.
  - exists (fun _ => u). split; [reflexivity|reflexivity].
  - exists (append_output now out). split; [intros f E; exact E | reflexivity].
  - exists (to_completed now). split; [intros f E; exact E | reflexivity].
  - exists (to_failed now err). split; [intros f E; exact E | reflexivity].
Qed.

(** X17. Push events about different forks do not interfere: handling
    two messages whose fork ids differ gives the same list in either
    order, each with its own clock.  A [config_update], which has no
    handler, commutes with everything. *)
Theorem events_for_different_forks_commute :
  forall (m1 m2 : WebSocketMessage) (t1 t2 : Z) (l : list Fork.t),
    message_id m1 <> message_id m2 ->
    handleMessage m1 t1 (handleMessage m2 t2 l)
    = handleMessage m2 t2 (handleMessage m1 t1 l).
Proof.
  intros m1 m2 t1 t2 l Hne.
  pose proof (handleMessage_mapFork m1 t1) as H1.
  pose proof (handleMessage_mapFork m2 t2) as H2.
  destruct (message_id m1) as [id1|]; destruct (message_id m2) as [id2|].
  - destruct H1 as (g1 & Hg1 & E1). destruct H2 as (g2 & Hg2 & E2).
    rewrite !E1, !E2. apply mapFork_comm; [congruence | exact Hg1 | exact Hg2].
  - by rewrite !H2.
  - by rewrite !H1.
  - by rewrite !H1.
Qed.

(** The theorem on an output line for [g0] and a failure of [g1]. *)
Lemma events_for_different_forks_commute_witness :
  handleMessage (fork_output "g0" "done") 1
    (handleMessage (fork_failed "g1" "boom") 2
       [sampleFork "g0" running []; sampleFork "g1" running []])
  = handleMessage (fork_failed "g1" "boom") 2
      (handleMessage (fork_output "g0" "done") 1
         [sampleFork "g0" running []; sampleFork "g1" running []]).
Proof.
  apply events_for_different_forks_commute. discriminate.
Defined.

(** [{ ...f, output: [...f.output, ...lines] }] *)
Lemma append_output_fold (forkId : string) (lines : list (string * Z)) :
  forall (l : list Fork.t) (i : nat) (f : Fork.t),
    l !! i = Some f ->
    exists f',
      foldl (fun acc p => on_fork_output forkId (fst p) (snd p) acc) l lines !! i = Some f'
      /\ Fork.id f' = Fork.id f
      /\ Fork.status f' = Fork.status f
      /\ Fork.output f'
         = Fork.output f
           ++ (if decide (Fork.id f = forkId)
               then (fun p => mkOutputLine (snd p) (Some (fst p))) <$> lines
               else []).
Proof.
  induction lines as [|[text t] lines IH]; intros l i f Hi.
  - exists f. split; [exact Hi|]. split; [reflexivity|]. split; [reflexivity|].
    destruct (decide _); by rewrite app_nil_r.
  - cbn [foldl fst snd].
    assert (Hi' : on_fork_output forkId text t l !! i
                  = Some (if decide (Fork.id f = forkId) then append_output t text f else f)).
    { unfold on_fork_output. by rewrite mapFork_lookup, Hi. }
    destruct (IH _ i _ Hi') as (f' & H1 & H2 & H3 & H4).
    exists f'. split; [exact H1|].
    destruct (decide (Fork.id f = forkId)) as [E|E].
    + cbn [Fork.id Fork.status Fork.output append_output] in H2, H3, H4.
      rewrite decide_True in H4 by exact E.
      split; [exact H2|]. split; [exact H3|].
      rewrite H4, <- app_assoc. reflexivity.
    + rewrite decide_False in H4 by exact E.
      split; [exact H2|]. split; [exact H3|exact H4].
Qed.

(** X18. [fork_output] events for one fork add their lines at the end
    of that fork's output in the order of arrival, each stamped with the
    clock of its arrival, and change neither its status nor any other
    fork: after [n] events a fork that had [k] lines has [k + n]. *)
Theorem fork_output_lines_in_arrival_order :
  forall (forkId : string) (lines : list (string * Z)) (l : list Fork.t) (i : nat) (f : Fork.t),
    l !! i = Some f ->
    exists f',
      foldl (fun acc p => handleMessage (fork_output forkId (fst p)) (snd p) acc) l lines !! i
      = Some f'
      /\ Fork.id f' = Fork.id f
      /\ Fork.status f' = Fork.status f
      /\ (Fork.id f = forkId ->
          Fork.output f' = Fork.output f ++ ((fun p => mkOutputLine (snd p) (Some (fst p))) <$> lines)
          /\ length (Fork.output f') = (length (Fork.output f) + length lines)%nat)
      /\ (Fork.id f <> forkId -> Fork.output f' = Fork.output f).
Proof.
  intros forkId lines l i f Hi.
  destruct (append_output_fold forkId lines l i f Hi) as (f' & H1 & H2 & H3 & H4).
  exists f'. split; [exact H1|]. split; [exact H2|]. split; [exact H3|]. split.
  - intros E. rewrite decide_True in H4 by exact E.
    split; [exact H4|]. by rewrite H4, length_app, length_fmap.
  - intros E. rewrite decide_False in H4 by exact E. by rewrite H4, app_nil_r.
Qed.

(** The theorem on a fork with two lines that receives the line "done". *)
Lemma fork_output_lines_in_arrival_order_witness :
  exists f',
    handleMessage (fork_output "X" "done") 3
      [sampleFork "X" running [mkOutputLine 1 (Some "a"); mkOutputLine 2 (Some "b")]] !! 0%nat = Some f'
    /\ Fork.output f' = [mkOutputLine 1 (Some "a"); mkOutputLine 2 (Some "b"); mkOutputLine 3 (Some "done")].
Proof.
  destruct (fork_output_lines_in_arrival_order "X" [("done", 3)]
              [sampleFork "X" running [mkOutputLine 1 (Some "a"); mkOutputLine 2 (Some "b")]] 0
              (sampleFork "X" running [mkOutputLine 1 (Some "a"); mkOutputLine 2 (Some "b")]) eq_refl)
    as (f' & H1 & _ & _ & H2 & _).
  exists f'. split; [exact H1|]. exact (proj1 (H2 eq_refl)).
Defined.

End Hook.

(** ** The listener table *)

Module ListenersFacts.
Import Listeners.

Lemma set_add_NoDup (cb : nat) (s : list nat) : NoDup s -> NoDup (set_add cb s).
Proof.
  intros H. unfold set_add. destruct (decide (cb ∈ s)) as [Hin|Hout]; [exact H|].
  apply NoDup_app. split; [exact H|]. split; [|apply NoDup_singleton].
  intros x Hx Hx'. apply list_elem_of_singleton in Hx'. by subst x.
Qed.

Lemma set_add_elem (cb : nat) (s : list nat) : cb ∈ set_add cb s.
Proof.
  unfold set_add. destruct (decide (cb ∈ s)); [assumption|].
  apply elem_of_app. right. by apply list_elem_of_singleton.
Qed.

Lemma set_add_prefix (cb : nat) (s : list nat) : s `prefix_of` set_add cb s.
Proof.
  unfold set_add. destruct (decide (cb ∈ s)); [reflexivity | by apply prefix_app_r].
Qed.

Lemma set_delete_add (cb : nat) (s : list nat) :
  cb ∉ s -> set_delete cb (set_add cb s) = s.
Proof.
  intros Hout. unfold set_add, set_delete. rewrite decide_False by exact Hout.
  rewrite filter_app, filter_cons, decide_False by tauto.
  rewrite filter_nil, app_nil_r.
  induction s as [|x s IH]; [reflexivity|].
  rewrite filter_cons, decide_True.
  - f_equal. apply IH. intros H. apply Hout. by right.
  - intros E. apply Hout. subst x. by left.
Qed.

(** X19. After [on(event, callback)] an [emit] of that event calls the
    callback, once, after the callbacks registered before it, which keep
    their order; registering a callback that is already there changes
    nothing; and the callbacks of other events are not affected.  The
    table stays a table of sets. *)
Theorem on_registers_once :
  forall (event : string) (cb : nat) (ls : Listeners.t),
    wf ls ->
    wf (on event cb ls)
    /\ cb ∈ emit event (on event cb ls)
    /\ NoDup (emit event (on event cb ls))
    /\ emit event ls `prefix_of` emit event (on event cb ls)
    /\ (cb ∈ emit event ls -> emit event (on event cb ls) = emit event ls)
    /\ (cb ∉ emit event ls -> emit event (on event cb ls) = emit event ls ++ [cb])
    /\ (forall event', event' <> event -> emit event' (on event cb ls) = emit event' ls).
Proof.
  intros event cb ls Hwf. unfold wf, emit, on, Listeners.t in *.
  assert (Hs : NoDup (match ls !! event with Some s => s | None => [] end)).
  { destruct (ls !! event) as [s|] eqn:E; [exact (Hwf _ _ E) | apply NoDup_nil_2]. }
  assert (He : match <[event := set_add cb
                                    (match ls !! event with Some s => s | None => [] end)]> ls
                       !! event with Some s => s | None => [] end
               = set_add cb (match ls !! event with Some s => s | None => [] end)).
  { by rewrite lookup_insert_eq. }
  split; [|split; [|split; [|split; [|split; [|split]]]]].
  - intros e s. rewrite lookup_insert. case_decide.
    + intros E. injection E as <-. by apply set_add_NoDup.
    + apply Hwf.
  - rewrite He. apply set_add_elem.
  - rewrite He. by apply set_add_NoDup.
  - rewrite He. apply set_add_prefix.
  - intros Hin. rewrite He. unfold set_add. by rewrite decide_True.
  - intros Hout. rewrite He. unfold set_add. by rewrite decide_False.
  - intros event' Hne. by rewrite lookup_insert_ne.
Qed.

(** The theorem on a handler registered twice on an empty table. *)
Lemma on_registers_once_witness :
  emit "fork_update" (on "fork_update" 1 (on "fork_update" 1 empty)) = [1%nat].
Proof.
  assert (Hwf0 : wf empty).
  { intros e s E. unfold empty, Listeners.t in E. rewrite lookup_empty in E. discriminate E. }
  destruct (on_registers_once "fork_update" 1 empty Hwf0)
    as (Hwf1 & Hin1 & _ & _ & _ & Hnew & _).
  destruct (on_registers_once "fork_update" 1 (on "fork_update" 1 empty) Hwf1)
    as (_ & _ & _ & _ & Hsame & _).
  rewrite (Hsame Hin1), Hnew; [reflexivity|].
  unfold emit, empty, Listeners.t. rewrite lookup_empty. apply not_elem_of_nil.
Defined.

(** X20. The function [on] returns takes the callback out of the set of
    its event and touches nothing else: the callback is no longer called,
    the other callbacks of the event are called in the order they had,
    and other events are unaffected.  Subscribing a callback that was not
    registered and unsubscribing it again gives back, for every event,
    the calls there were.  Since the set holds a callback once, one
    unsubscription undoes any number of registrations of it. *)
Theorem unsubscribe_removes :
  forall (event : string) (cb : nat) (ls : Listeners.t),
    (cb ∉ emit event (unsubscribe event cb ls))
    /\ emit event (unsubscribe event cb ls) = filter (fun x => x <> cb) (emit event ls)
    /\ (forall event', event' <> event ->
          emit event' (unsubscribe event cb ls) = emit event' ls)
    /\ (cb ∉ emit event ls ->
        forall event', emit event' (unsubscribe event cb (on event cb ls)) = emit event' ls)
    /\ (cb ∉ emit event (unsubscribe event cb (on event cb (on event cb ls))))
    /\ (wf ls -> wf (unsubscribe event cb ls)).
Proof.
  intros event cb ls. unfold Listeners.t in *.
  assert (He : forall ls' : gmap string (list nat),
             emit event (unsubscribe event cb ls')
             = filter (fun x => x <> cb) (emit event ls')).
  { intros ls'. unfold emit, unsubscribe, Listeners.t.
    destruct (ls' !! event) as [s|] eqn:E; [by rewrite lookup_insert_eq | by rewrite E]. }
  assert (Hne : forall (ls' : gmap string (list nat)) event', event' <> event ->
                  emit event' (unsubscribe event cb ls') = emit event' ls').
  { intros ls' event' H. unfold emit, unsubscribe, Listeners.t.
    destruct (ls' !! event) as [s|]; [by rewrite lookup_insert_ne | reflexivity]. }
  assert (Hout : forall s : list nat, cb ∉ filter (fun x => x <> cb) s).
  { intros s H. apply list_elem_of_filter in H as [H _]. by apply H. }
  split; [rewrite He; apply Hout|]. split; [apply He|]. split; [apply Hne|].
  split; [|split; [rewrite He; apply Hout|]].
  - intros Hfresh event'. destruct (decide (event' = event)) as [->|Hd].
    + rewrite He. unfold emit, on, Listeners.t in Hfresh |- *.
      rewrite lookup_insert_eq.
      apply set_delete_add. exact Hfresh.
    + rewrite Hne by exact Hd. unfold emit, on, Listeners.t.
      by rewrite lookup_insert_ne.
  - intros Hwf e s. unfold unsubscribe, wf, Listeners.t in *.
    destruct (ls !! event) as [s0|] eqn:E; [|apply Hwf].
    rewrite lookup_insert. case_decide; [|apply Hwf].
    intros E'. injection E' as <-. apply NoDup_filter. subst e. exact (Hwf _ _ E).
Qed.

(** The theorem on a handler registered for [fork_output] beside
    another, and unsubscribed. *)
Lemma unsubscribe_removes_witness :
  emit "fork_output" (unsubscribe "fork_output" 7 (on "fork_output" 7 (on "fork_output" 2 empty)))
  = [2%nat].
Proof.
  destruct (unsubscribe_removes "fork_output" 7 (on "fork_output" 2 empty))
    as (_ & _ & _ & H & _).
  rewrite H; [reflexivity|].
  vm_compute. intros Hin. apply list_elem_of_singleton in Hin. discriminate Hin.
Defined.

End ListenersFacts.

(** ** More on the reconnecting channel *)

Module ForkWebSocketMore.
Import ForkWebSocket.

Lemma step_budget (e : event) (s : t) :
  (reconnectAttempts s <= 5)%nat ->
  (reconnectAttempts (fst (step e s)) <= 5)%nat
  /\ (if is_open e
      then reconnectAttempts (fst (step e s)) = 0%nat /\ snd (step e s) = None
      else (match snd (step e s) with Some _ => 1 | None => 0 end + reconnectAttempts s
            = reconnectAttempts (fst (step e s)))%nat).
Proof.
  intros Hs. destruct e as [| |[|]];
    unfold step, is_open, onopen, onclose, connect, attemptReconnect, maxReconnectAttempts;
    try (destruct (Nat.ltb_spec (reconnectAttempts s) 5%nat)); cbn;
    repeat split; try reflexivity; try lia.
Qed.

(** X21. However closures, timers, manual [connect()] calls and
    successful openings are interleaved, the channel schedules at most
    five reconnection attempts per stretch without a successful opening:
    a trace with [k] openings schedules at most [5 (k + 1)] attempts in
    all, and the counter never passes five. *)
Theorem reconnect_attempts_bounded_per_opening :
  forall (es : list event) (s : t),
    (reconnectAttempts s <= 5)%nat ->
    (length (snd (run es s)) + reconnectAttempts s
     <= 5 * (1 + length (filter (fun e => is_open e = true) es)))%nat
    /\ (reconnectAttempts (fst (run es s)) <= 5)%nat.
Proof.
  induction es as [|e es IH]; intros s Hs; [simpl; lia|].
  cbn [run]. destruct (step_budget e s Hs) as (H1 & H2).
  destruct (step e s) as [s1 d]. cbn [fst snd] in H1, H2.
  destruct (IH s1 H1) as [IH1 IH2].
  destruct (run es s1) as [s2 ds]. cbn [fst snd] in IH1, IH2 |- *.
  split; [|exact IH2].
  rewrite filter_cons.
  destruct e as [| |throws]; cbn [is_open] in H2 |- *.
  - rewrite decide_True by reflexivity. destruct H2 as [H2 ->]. cbn [length] in *. lia.
  - rewrite decide_False by discriminate. destruct d; cbn [length] in *; lia.
  - rewrite decide_False by discriminate. destruct d; cbn [length] in *; lia.
Qed.

(** The theorem on a channel that fails seven times, opens, and fails
    twice more. *)
Lemma reconnect_attempts_bounded_per_opening_witness :
  (length (snd (run [Closed; Closed; Closed; Closed; Closed; Closed; Closed;
                     Opened; Closed; Closed] new)) <= 10)%nat.
Proof.
  pose proof (proj1 (reconnect_attempts_bounded_per_opening
                       [Closed; Closed; Closed; Closed; Closed; Closed; Closed;
                        Opened; Closed; Closed] new (Nat.le_0_l 5%nat))) as H.
  cbn [reconnectAttempts new] in H. rewrite Nat.add_0_r in H. exact H.
Defined.

(** X22. [disconnect()] drops the socket and does not stop
    reconnection: when the close of the dropped socket is reported, an
    attempt is scheduled like after any other closure, with the delay of
    the next attempt, as long as the counter is below five; once its
    timer fires the channel holds a socket again.  Only a counter that
    stands at five keeps the channel closed. *)
Theorem disconnect_does_not_stop_reconnection :
  forall (s : t),
    ws (disconnect s) = false
    /\ ((reconnectAttempts s < 5)%nat ->
        snd (run [Closed; Connect false] (disconnect s))
        = [1000 * 2 ^ Z.of_nat (reconnectAttempts s)]
        /\ ws (fst (run [Closed; Connect false] (disconnect s))) = true)
    /\ ((5 <= reconnectAttempts s)%nat ->
        run [Closed] (disconnect s) = (disconnect s, [])).
Proof.
  intros s. split; [reflexivity|]. split.
  - intros Hlt. cbn [run].
    unfold step, onclose, connect, disconnect, attemptReconnect, maxReconnectAttempts.
    cbn [reconnectAttempts ws].
    destruct (Nat.ltb_spec (reconnectAttempts s) 5%nat); [|lia]. cbn.
    split; [|reflexivity]. unfold delay, reconnectDelay. do 3 f_equal. lia.
  - intros Hge. cbn [run].
    unfold step, onclose, disconnect, attemptReconnect, maxReconnectAttempts.
    cbn [reconnectAttempts ws].
    destruct (Nat.ltb_spec (reconnectAttempts s) 5%nat); [lia|]. reflexivity.
Qed.

(** The theorem on a channel that was open and is disconnected. *)
Lemma disconnect_does_not_stop_reconnection_witness :
  snd (run [Closed; Connect false] (disconnect (onopen (mk true 3)))) = [1000]
  /\ ws (fst (run [Closed; Connect false] (disconnect (onopen (mk true 3))))) = true.
Proof.
  apply (proj1 (proj2 (disconnect_does_not_stop_reconnection (onopen (mk true 3))))).
  simpl. lia.
Defined.

End ForkWebSocketMore.

(** ** Statistics *)

Section Stats.

Lemma usage_cons (a : string) (f : Fork.t) (l : list Fork.t) :
  usage a (f :: l) = ((if decide (Fork.agent f = a) then 1 else 0) + usage a l)%nat.
Proof. unfold usage. rewrite filter_cons. by destruct (decide _). Qed.

Lemma foldl_add_nonneg (ds : list Z) :
  Forall (fun d => 0 <= d) ds ->
  forall acc, (0 <= acc)%Q -> (0 <= foldl (fun a b => fl (a + inject_Z b)) acc ds)%Q.
Proof.
  induction 1 as [|d ds Hd _ IH]; intros acc Hacc; [exact Hacc|].
  cbn [foldl]. apply IH. apply fl_nonneg.
  assert (0 <= inject_Z d)%Q; [|lra].
  change 0%Q with (inject_Z 0). by rewrite <- Zle_Qle.
Qed.

(** X23. The statistics are counts over the merged view: the completed
    forks are at most the total; the four usage counters add up to at
    most the total, and to the total exactly when every fork belongs to
    one of the four agents; the mean duration is zero when no completed
    fork carries a duration other than zero, and is not negative when no
    duration is. *)
Theorem computeStats_counts :
  forall (l : list Fork.t),
    ForkStats.totalForks (computeStats l) = length l
    /\ (ForkStats.completedForks (computeStats l) <= ForkStats.totalForks (computeStats l))%nat
    /\ (sum_list (snd <$> ForkStats.agentUsage (computeStats l))
        <= ForkStats.totalForks (computeStats l))%nat
    /\ (Forall (fun f => Fork.agent f ∈ ["claude"; "codex"; "gemini"; "raw"]) l ->
        sum_list (snd <$> ForkStats.agentUsage (computeStats l))
        = ForkStats.totalForks (computeStats l))
    /\ (Forall (fun f => Fork.status f = completed -> truthy_duration f = None) l ->
        ForkStats.avgDuration (computeStats l) = 0%Q)
    /\ (Forall (fun f => forall d, Fork.duration f = Some d -> 0 <= d) l ->
        (0 <= ForkStats.avgDuration (computeStats l))%Q).
Proof.
  intros l. cbn [computeStats ForkStats.totalForks ForkStats.completedForks
                 ForkStats.agentUsage ForkStats.avgDuration fmap list_fmap snd sum_list
                 sum_list_with].
  split; [reflexivity|]. split; [apply length_filter|]. split; [|split; [|split]].
  - induction l as [|f l IH]; [reflexivity|].
    rewrite !usage_cons. cbn [length]. unfold id in *.
    repeat case_decide; try congruence; lia.
  - induction 1 as [|f l Hf _ IH]; [reflexivity|].
    rewrite !usage_cons. cbn [length]. unfold id in *.
    assert (Hag : Fork.agent f = "claude" \/ Fork.agent f = "codex"
                  \/ Fork.agent f = "gemini" \/ Fork.agent f = "raw").
    { rewrite !elem_of_cons, elem_of_nil in Hf. tauto. }
    repeat case_decide; try congruence; try lia.
    destruct Hag as [?|[?|[?|?]]]; congruence.
  - intros H.
    assert (E : omap truthy_duration (filter (fun f => Fork.status f = completed) l) = []).
    { induction H as [|f l Hf _ IH]; [reflexivity|].
      rewrite filter_cons. destruct (decide _) as [Hs|Hs]; [|exact IH].
      cbn [omap list_omap]. rewrite (Hf Hs). exact IH. }
    rewrite E. reflexivity.
  - intros H.
    set (ds := omap truthy_duration (filter (fun f => Fork.status f = completed) l)).
    assert (Hds : Forall (fun d => 0 <= d) ds).
    { subst ds. apply Forall_forall. intros d Hd.
      apply list_elem_of_omap in Hd as (f & Hf & Ht).
      apply list_elem_of_filter in Hf as [_ Hf].
      rewrite Forall_forall in H. apply (H f Hf).
      unfold truthy_duration in Ht.
      destruct (Fork.duration f) as [[| |]|]; congruence. }
    destruct (Nat.ltb_spec 0 (length ds)) as [Hlen|Hlen]; [|apply Qle_refl].
    apply fl_nonneg. apply Qle_shift_div_l.
    + change 0%Q with (inject_Z 0). rewrite <- Zlt_Qlt. lia.
    + rewrite Qmult_0_l. apply foldl_add_nonneg; [exact Hds | apply Qle_refl].
Qed.

(** The theorem on a view with two completed forks of 4 s and 6 s and a
    running one. *)
Lemma computeStats_counts_witness :
  let l := [Fork.mk "g0" "claude" "opus" default completed "x" "x" 0 (Some 4000) (Some 4000)
              100 None [] false None;
            Fork.mk "g1" "codex" "gpt" default completed "x" "x" 0 (Some 6000) (Some 6000)
              100 None [] false None;
            sampleFork "g2" running []] in
  sum_list (snd <$> ForkStats.agentUsage (computeStats l)) = 3%nat
  /\ (0 <= ForkStats.avgDuration (computeStats l))%Q
  /\ (ForkStats.avgDuration (computeStats l) == 5000)%Q.
Proof.
  intros l. pose proof (computeStats_counts l) as H.
  destruct H as (_ & _ & _ & Hsum & _ & Hpos).
  split; [|split].
  - rewrite Hsum; [reflexivity|]. unfold l.
    repeat constructor; rewrite !elem_of_cons; tauto.
  - apply Hpos. unfold l.
    repeat constructor; cbn; intros d E; try discriminate E; injection E as <-; lia.
  - vm_compute. reflexivity.
Defined.

End Stats.

(** ** Completion announcements *)

Section Announcements.

Lemma findFork_NoDup (l : list Fork.t) :
  NoDup (Fork.id <$> l) ->
  forall i f, l !! i = Some f -> findFork (Fork.id f) l = Some f.
Proof.
  induction l as [|g l IH]; intros Hnd i f Hi; [discriminate|].
  apply NoDup_cons in Hnd as [Hg Hnd]. unfold findFork. cbn [List.find].
  destruct i as [|i]; cbn in Hi.
  - injection Hi as ->. by rewrite bool_decide_eq_true_2.
  - rewrite bool_decide_eq_false_2; [exact (IH Hnd i f Hi)|].
    intros E. apply Hg. rewrite E. apply list_elem_of_fmap. exists f.
    split; [reflexivity|]. eapply list_elem_of_lookup_2; exact Hi.
Qed.

Lemma count_status_cons (s : ForkStatus) (f : Fork.t) (l : list Fork.t) :
  count_status s (f :: l)
  = ((if decide (Fork.status f = s) then 1 else 0) + count_status s l)%nat.
Proof. unfold count_status. rewrite filter_cons. by destruct (decide _). Qed.

Lemma tickFork_id (rnd : TickRandom) (f : Fork.t) :
  Fork.id (tickFork rnd f) = Fork.id f.
Proof.
  destruct (tickFork_cases rnd f) as [[_ ->]|[(_ & _ & _ & ->)|(_ & _ & -> & _)]];
    reflexivity.
Qed.

(** One announcement per fork a tick took out of [running]. *)
Lemma announcements_count (prev : list Fork.t) (l cur : list Fork.t) :
  Forall2 (fun f f' => exists r, f' = tickFork r f) l cur ->
  (forall f, f ∈ l -> findFork (Fork.id f) prev = Some f) ->
  (length (announcements prev cur) + count_status running cur)%nat
  = count_status running l.
Proof.
  induction 1 as [|f f' l cur [r ->] _ IH]; intros Hfind; [reflexivity|].
  unfold announcements in *. cbn [omap list_omap].
  rewrite !count_status_cons.
  specialize (IH (fun g Hg => Hfind g (list_elem_of_further _ _ _ Hg))).
  unfold announcement at 1. rewrite tickFork_id, (Hfind f (list_elem_of_here _ _)).
  destruct (tickFork_cases r f) as [[_ E]|[(Hs & _ & _ & E)|(Hs & _ & E & _)]];
    rewrite E; cbn [Fork.status Fork.id].
  - repeat case_bool_decide; repeat case_decide; try congruence; cbn; lia.
  - rewrite Hs. destruct (Qltb (fl 0.1) (r_outcome r));
      repeat case_bool_decide; repeat case_decide; try congruence; cbn; lia.
  - rewrite Hs. repeat case_bool_decide; repeat case_decide; try congruence; cbn; lia.
Qed.

(** X24. With distinct ids in the local registry, the effect that
    follows a progress tick announces exactly the forks the tick took
    out of [running], one line each: the number of lines plus the number
    of forks still running is the number that were running before.  Run
    on a registry that did not change, the effect announces nothing. *)
Theorem announcements_after_tick :
  forall (rnd : nat -> TickRandom) (st : State.t),
    NoDup (Fork.id <$> State.localForks st) ->
    (length (announcements (State.localForks st)
               (State.localForks (progressTick rnd st)))
     + count_status running (State.localForks (progressTick rnd st)))%nat
    = count_status running (State.localForks st)
    /\ announcements (State.localForks st) (State.localForks st) = [].
Proof.
  intros rnd st Hnd.
  assert (Hfind : forall f, f ∈ State.localForks st ->
                    findFork (Fork.id f) (State.localForks st) = Some f).
  { intros f Hf. apply list_elem_of_lookup in Hf as [i Hi].
    exact (findFork_NoDup _ Hnd i f Hi). }
  split.
  - apply (announcements_count _ (State.localForks st)); [|exact Hfind].
    cbn. apply Forall2_same_length_lookup_2; [by rewrite length_imap|].
    intros i f f' Hf Hf'. rewrite list_lookup_imap, Hf in Hf'. cbn in Hf'.
    injection Hf' as <-. eauto.
  - unfold announcements.
    assert (Hgen : forall l, (forall f, f ∈ l ->
                     findFork (Fork.id f) (State.localForks st) = Some f) ->
                   omap (announcement (State.localForks st)) l = []).
    { induction l as [|f l IH]; intros Hl; [reflexivity|].
      cbn [omap list_omap]. unfold announcement at 1.
      rewrite (Hl f (list_elem_of_here _ _)).
      rewrite IH by (intros g Hg; apply Hl; by right).
      repeat case_bool_decide; try congruence; reflexivity. }
    apply Hgen, Hfind.
Qed.

(** The theorem on a registry with a fork at 95 percent that the tick
    finishes and a queued one. *)
Lemma announcements_after_tick_witness :
  let st := stateWith 5 "x" 3
              [Fork.mk "g0" "claude" "opus" default running "x" "x" 0 None None 95 None []
                 false None;
               sampleFork "local-2" queued []] [] in
  (length (announcements (State.localForks st)
             (State.localForks (progressTick (fun _ => mkTickRandom (1 # 2) 0 0 1 9 9 9) st)))
   + count_status running
       (State.localForks (progressTick (fun _ => mkTickRandom (1 # 2) 0 0 1 9 9 9) st)))%nat
  = 1%nat.
Proof.
  intros st.
  apply (proj1 (announcements_after_tick (fun _ => mkTickRandom (1 # 2) 0 0 1 9 9 9) st
                  ltac:(unfold st; cbn; apply NoDup_cons; split;
                        [intros H; apply list_elem_of_singleton in H; discriminate H
                        |apply NoDup_singleton]))).
Defined.

End Announcements.

(** ** Cancelling and the Gateway *)

Section CancelGateway.

(** X25. Cancellation is decided locally: whether the Gateway accepts
    or refuses the termination, the local records with the id that are
    queued, spawning or running become [cancelled] and the warning line
    is written.  The answer only decides the hook's side: on acceptance
    every record of the Gateway list with the id is marked [terminated],
    whatever its status was; on refusal that list is unchanged and the
    hook's error cell is set. *)
Theorem cancelFork_is_local_whatever_the_gateway_says :
  forall (forkId : string) (resp : ApiResponse string) (now : Z) (st : State.t),
    State.localForks (cancelFork forkId resp now st)
    = cancelFork_local forkId now (State.localForks st)
    /\ (forall i f, State.localForks st !! i = Some f -> Fork.id f = forkId ->
          is_active (Fork.status f) = true ->
          exists f', State.localForks (cancelFork forkId resp now st) !! i = Some f'
                     /\ Fork.status f' = cancelled /\ Fork.completedAt f' = Some now)
    /\ (success resp = true ->
        apiForks (cancelFork forkId resp now st)
        = mapFork forkId (with_status terminated) (apiForks st)
        /\ forall f, f ∈ apiForks (cancelFork forkId resp now st) -> Fork.id f = forkId ->
                     Fork.status f = terminated)
    /\ (success resp = false ->
        apiForks (cancelFork forkId resp now st) = apiForks st
        /\ UseForks.error (State.useForks (cancelFork forkId resp now st))
           = Some (or_default (error resp) "Failed to terminate fork"))
    /\ State.terminalOutput (cancelFork forkId resp now st)
       = addTerminalLine TerminalLine.warning ("Fork #" +:+ forkId +:+ " cancelled") now
           (State.terminalOutput st).
Proof.
  intros forkId resp now st. split; [reflexivity|]. split; [|split; [|split; [|reflexivity]]].
  - intros i f Hi Hid Hact. exists (to_cancelled now f). split; [|by split].
    cbn. unfold cancelFork_local. rewrite list_lookup_fmap, Hi. cbn.
    by rewrite (bool_decide_eq_true_2 _ Hid), Hact.
  - intros Hs. unfold cancelFork, apiForks, terminateFork. cbn. rewrite Hs. cbn.
    split; [reflexivity|]. intros f Hf Hid.
    unfold mapFork in Hf. apply list_elem_of_fmap in Hf as (g & -> & Hg).
    destruct (decide (Fork.id g = forkId)) as [E|E]; [reflexivity|].
    exfalso. apply E. exact Hid.
  - intros Hs. unfold cancelFork, apiForks, terminateFork. cbn. rewrite Hs. by split.
Qed.

(** The theorem on a running fork whose termination the Gateway refuses. *)
Lemma cancelFork_is_local_whatever_the_gateway_says_witness :
  let st := cancelFork "g0" (mkApiResponse false None (Some "Fork not found")) 9
              (busyState 5) in
  (exists f', State.localForks st !! 0%nat = Some f' /\ Fork.status f' = cancelled)
  /\ apiForks st = [sampleFork "g0" running []]
  /\ UseForks.error (State.useForks st) = Some "Fork not found"
  /\ last (State.terminalOutput st)
     = Some (TerminalLine.mk TerminalLine.warning "> Fork #g0 cancelled" 9).
Proof.
  intros st.
  destruct (cancelFork_is_local_whatever_the_gateway_says "g0"
              (mkApiResponse false None (Some "Fork not found")) 9 (busyState 5))
    as (_ & Hloc & _ & Hko & Hlog).
  destruct (Hloc 0%nat (sampleFork "g0" running []) eq_refl eq_refl eq_refl)
    as (f' & H1 & H2 & _).
  destruct (Hko eq_refl) as [H3 H4].
  split; [exists f'; by split|]. split; [exact H3|]. split; [exact H4|].
  unfold st. rewrite Hlog. unfold addTerminalLine. apply last_snoc.
Defined.

End CancelGateway.

(** ** Updates overwrite *)

Section LastWriter.

(** X26. A [fork_update] is the last word on its fork: whatever message
    about the same fork was handled just before it, the list after the
    update is the list the update alone would have given.  In particular
    the later of two updates wins, and output lines or a completion
    received before an update are gone unless the update carries them. *)
Theorem fork_update_overrides_earlier_message :
  forall (updatedFork : Fork.t) (m : WebSocketMessage) (t t' : Z) (l : list Fork.t),
    message_id m = Some (Fork.id updatedFork) ->
    handleMessage (fork_update updatedFork) t (handleMessage m t' l)
    = handleMessage (fork_update updatedFork) t l.
Proof.
  intros u m t t' l Hm.
  pose proof (handleMessage_mapFork m t') as H. rewrite Hm in H.
  destruct H as (g & Hg & E). rewrite E. cbn [handleMessage]. unfold on_fork_update.
  unfold mapFork. rewrite <- list_fmap_compose.
  apply list_fmap_ext. intros i f _. cbn.
  destruct (decide (Fork.id f = Fork.id u)) as [Ef|Ef].
  - by rewrite decide_True by (by apply Hg).
  - by rewrite decide_False.
Qed.

(** The theorem on a completion followed by an update that says
    running. *)
Lemma fork_update_overrides_earlier_message_witness :
  handleMessage (fork_update (sampleFork "g0" running [])) 2
    (handleMessage (fork_completed "g0") 1 [sampleFork "g0" spawning [mkOutputLine 0 (Some "a")]])
  = [sampleFork "g0" running []].
Proof.
  rewrite (fork_update_overrides_earlier_message (sampleFork "g0" running [])
             (fork_completed "g0") 2 1 _ eq_refl).
  reflexivity.
Defined.

End LastWriter.

(** ** Random draws *)

Section Draws.

Lemma Qfloor_range (x : Q) (n : Z) :
  (0 <= x)%Q -> (x < inject_Z n)%Q -> 0 <= Qfloor x < n.
Proof.
  intros H0 Hn. split.
  - change 0 with (Qfloor (inject_Z 0)). by apply Qfloor_resp_le.
  - rewrite Zlt_Qlt. eapply Qle_lt_trans; [apply Qfloor_le | exact Hn].
Qed.

(** [Math.floor(Math.random() * n)] is an index below [n], as soon as the
    largest draw, [1 - 2^-53], times [n] rounds below [n]. *)
Lemma draw_index_range (r : Q) (n : Z) :
  is_draw r -> 0 < n ->
  (fl ((1 - (1 # 9007199254740992)) * inject_Z n) < inject_Z n)%Q ->
  0 <= Qfloor (fl (r * inject_Z n)) < n.
Proof.
  intros (Hd & H0 & H1) Hn Htop.
  pose proof (double_below_1 r Hd H1) as Hr.
  assert (HnQ : (0 < inject_Z n)%Q).
  { change 0%Q with (inject_Z 0). by rewrite <- Zlt_Qlt. }
  apply Qfloor_range.
  - apply fl_nonneg. apply Qmult_le_0_compat; lra.
  - eapply Qle_lt_trans; [|exact Htop]. apply fl_mono.
    apply Qmult_le_r; assumption.
Qed.

(** X27. When the Gateway accepts a create call, every local record that
    [launchFork] sets running gets a pid that is not zero: the Gateway's
    when it sent one other than zero, and otherwise, the draw being a
    double in [0, 1), a five-digit number from 10000 to 99999. *)
Theorem launched_fork_pid_range :
  forall (fork : Fork.t) (resp : ApiResponse Fork.t) (res : Fork.t) (r : Q) (now : Z)
         (st : State.t) (i : nat) (f : Fork.t),
    is_draw r ->
    success resp = true -> data resp = Some res ->
    State.localForks st !! i = Some f -> Fork.id f = Fork.id fork ->
    exists f' p,
      State.localForks (launchFork_resume fork resp r now st) !! i = Some f'
      /\ Fork.status f' = running
      /\ Fork.id f' = Fork.id res
      /\ Fork.pid f' = Some p
      /\ p <> 0
      /\ (forall q, Fork.pid res = Some q -> q <> 0 -> p = q)
      /\ (Fork.pid res = None \/ Fork.pid res = Some 0 -> 10000 <= p <= 99999).
Proof.
  intros fork resp res r now st i f Hr Hs Hd Hi Hid.
  assert (Hrange : 10000 <= random_pid r <= 99999).
  { unfold random_pid. change 90000%Q with (inject_Z 90000).
    assert (0 <= Qfloor (fl (r * inject_Z 90000)) < 90000); [|lia].
    apply draw_index_range; [exact Hr | lia | vm_compute; reflexivity]. }
  unfold launchFork_resume, apiCreateFork. rewrite Hs, Hd.
  cbn [State.localForks logLine setTerminalOutput setLocalForks setUseForks].
  rewrite mapFork_lookup, Hi. cbn [fmap option_fmap option_map].
  rewrite decide_True by exact Hid.
  eexists _, _. split; [reflexivity|]. cbn [Fork.status Fork.id Fork.pid].
  split; [reflexivity|]. split; [reflexivity|]. split; [reflexivity|].
  destruct (Fork.pid res) as [[|q|q]|]; cbn.
  - split; [lia|]. split; [intros q E Hq; congruence | intros _; exact Hrange].
  - split; [lia|]. split; [intros q' E _; congruence|].
    intros [H|H]; discriminate H.
  - split; [lia|]. split; [intros q' E _; congruence|].
    intros [H|H]; discriminate H.
  - split; [lia|]. split; [intros q E; discriminate E | intros _; exact Hrange].
Qed.

(** The theorem on a spawning fork, an answer without a pid and a draw
    of one half. *)
Lemma launched_fork_pid_range_witness :
  exists f' p,
    State.localForks
      (launchFork_resume (sampleFork "local-1" queued []) (accepted "g0" None) (1 # 2) 3
         (stateWith 5 "x" 2 [sampleFork "local-1" spawning []] [])) !! 0%nat = Some f'
    /\ Fork.pid f' = Some p
    /\ 10000 <= p <= 99999.
Proof.
  destruct (launched_fork_pid_range (sampleFork "local-1" queued []) (accepted "g0" None)
              (Fork.mk "g0" "claude" "opus" default running "x" "x" 0 None None 0%Q None []
                 false None)
              (1 # 2) 3 (stateWith 5 "x" 2 [sampleFork "local-1" spawning []] []) 0
              (sampleFork "local-1" spawning []))
    as (f' & p & H1 & _ & _ & H2 & _ & _ & H3).
  - split; [vm_compute; reflexivity | split; [discriminate | reflexivity]].
  - reflexivity.
  - reflexivity.
  - reflexivity.
  - reflexivity.
  - exists f', p. split; [exact H1|]. split; [exact H2|]. apply H3. by left.
Defined.

(** X28. For a draw, a double in [0, 1), the simulated output line of an
    agent whose name is no member of [Object.prototype] is always an
    entry of a table: the index computed from the draw never leaves the
    table chosen for the agent, and an agent without a table of its own
    gets a line of the raw one.  For a name inherited from
    [Object.prototype] the result is [undefined]. *)
Theorem getRandomOutput_in_table :
  forall (r : Q) (agent : string),
    is_draw r ->
    (agent ∈ object_prototype_members -> getRandomOutput r agent = None)
    /\ (agent ∉ object_prototype_members ->
        exists line,
          getRandomOutput r agent = Some line
          /\ line <> EmptyString
          /\ (agent <> "claude" -> agent <> "codex" -> agent <> "gemini" ->
              line ∈ ["Executing command..."; "Processing output...";
                      "Waiting for response..."])).
Proof.
  intros r agent Hr. split.
  - intros Hin. unfold object_prototype_members in Hin.
    rewrite !elem_of_cons in Hin.
    destruct Hin as [->|[->|[->|[->|[->|[->|[->|[->|[->|[->|[->|[->|Hin]]]]]]]]]]]];
      [reflexivity.. | inversion Hin].
  - intros Hout.
    assert (H5 : 0 <= Qfloor (fl (r * inject_Z 5)) < 5).
    { apply draw_index_range; [exact Hr | lia | vm_compute; reflexivity]. }
    assert (H3 : 0 <= Qfloor (fl (r * inject_Z 3)) < 3).
    { apply draw_index_range; [exact Hr | lia | vm_compute; reflexivity]. }
    assert (E5 : Qfloor (fl (r * inject_Z 5)) ∈ [0; 1; 2; 3; 4])
      by (rewrite !elem_of_cons; lia).
    assert (E3 : Qfloor (fl (r * inject_Z 3)) ∈ [0; 1; 2])
      by (rewrite !elem_of_cons; lia).
    rewrite !elem_of_cons in E5. rewrite !elem_of_cons in E3.
    unfold getRandomOutput.
    case_bool_decide; [contradiction|].
    repeat case_decide; cbn [length];
      change (Z.of_nat 5) with 5; change (Z.of_nat 3) with 3;
      clear H5 H3;
      remember (Qfloor (fl (r * inject_Z 5))) as k5 eqn:Hk5;
      remember (Qfloor (fl (r * inject_Z 3))) as k3 eqn:Hk3;
      clear Hk5 Hk3.
    + destruct E5 as [-> | [-> | [-> | [-> | [-> | E]]]]]; [| | | | | inversion E];
        eexists; (split; [reflexivity|]); (split; [discriminate | congruence]).
    + destruct E5 as [-> | [-> | [-> | [-> | [-> | E]]]]]; [| | | | | inversion E];
        eexists; (split; [reflexivity|]); (split; [discriminate | congruence]).
    + destruct E5 as [-> | [-> | [-> | [-> | [-> | E]]]]]; [| | | | | inversion E];
        eexists; (split; [reflexivity|]); (split; [discriminate | congruence]).
    + destruct E3 as [-> | [-> | [-> | E]]]; [| | | inversion E];
        eexists; (split; [reflexivity|]); (split; [discriminate|]);
        intros _ _ _; rewrite !elem_of_cons; tauto.
    + destruct E3 as [-> | [-> | [-> | E]]]; [| | | inversion E];
        eexists; (split; [reflexivity|]); (split; [discriminate|]);
        intros _ _ _; rewrite !elem_of_cons; tauto.
Qed.

(** The theorem on an agent without a table and on the name
    [constructor]. *)
Lemma getRandomOutput_in_table_witness :
  (exists line,
      getRandomOutput (1 - (1 # 9007199254740992)) "shell" = Some line
      /\ line ∈ ["Executing command..."; "Processing output..."; "Waiting for response..."])
  /\ getRandomOutput (1 # 2) "constructor" = None.
Proof.
  assert (Hd1 : is_draw (1 - (1 # 9007199254740992))).
  { split; [vm_compute; reflexivity | split; [discriminate | reflexivity]]. }
  assert (Hd2 : is_draw (1 # 2)).
  { split; [vm_compute; reflexivity | split; [discriminate | reflexivity]]. }
  split.
  - destruct (proj2 (getRandomOutput_in_table _ "shell" Hd1)) as (line & H1 & _ & H2).
    + unfold object_prototype_members. rewrite !elem_of_cons, elem_of_nil.
      intros H. repeat (destruct H as [H|H]; [discriminate H|]). exact H.
    + exists line. split; [exact H1|]. apply H2; discriminate.
  - apply (proj1 (getRandomOutput_in_table _ "constructor" Hd2)).
    unfold object_prototype_members. apply list_elem_of_here.
Defined.

End Draws.

(** ** The progress of running forks over a session *)

Section RunningProgress.

Lemma progress_in_range_mapFork (id : string) (g : Fork.t -> Fork.t) (l : list Fork.t) :
  (forall f, progress_in_range f -> progress_in_range (g f)) ->
  Forall progress_in_range l -> Forall progress_in_range (mapFork id g l).
Proof.
  intros Hg H. unfold mapFork. apply Forall_fmap.
  eapply Forall_impl; [exact H|]. intros f Hf. simpl.
  destruct (decide (Fork.id f = id)); [by apply Hg | exact Hf].
Qed.

Lemma progress_in_range_created (cap : State.t) (specs : list LaunchSpec) (now : Z)
    (c : nat) :
  Forall progress_in_range (fst (createLocalForks cap specs now c)).
Proof.
  rewrite createLocalForks_imap. cbn [fst]. apply Forall_forall. intros f Hf.
  apply list_elem_of_lookup in Hf as [i Hi]. rewrite list_lookup_imap in Hi.
  destruct (specs !! i) as [s|]; [|discriminate]. simpl in Hi. injection Hi as <-.
  intros E. discriminate E.
Qed.

Lemma perform_keeps_progress (a : Action) (st : State.t) :
  action_draws_nonneg a ->
  Forall progress_in_range (State.localForks st) ->
  Forall progress_in_range (State.localForks (perform a st)).
Proof.
  intros Hd H.
  destruct a as [now|fork now|now|workflow now|cap fork now|fork resp r now|o|now|now|id| |resp];
    cbn [perform].
  - unfold launchSingleFork_begin. destruct (blank (State.prompt st)); [exact H|].
    unfold createLocalFork. cbn. apply Forall_cons. split; [|exact H].
    intros E. discriminate E.
  - unfold retryFork_begin.
    destruct (createLocalFork_throws st (Fork.agent fork)); [exact H|].
    unfold createLocalFork. cbn. apply Forall_cons. split; [|exact H].
    intros E. discriminate E.
  - unfold launchMultiFork_begin.
    destruct (State.multiForkQueue st) as [|q0 q]; [exact H|]. cbv iota.
    pose proof (progress_in_range_created st (spec_of_queue_item <$> q0 :: q) now
                  (State.forkIdCounter st)) as Hnew.
    destruct (createLocalForks st (spec_of_queue_item <$> q0 :: q) now
                (State.forkIdCounter st)) as [fs n]. cbn [fst] in Hnew. cbn.
    apply Forall_app. by split.
  - unfold launchWorkflow_begin.
    pose proof (progress_in_range_created st
                  (spec_of_workflow_fork (WorkflowTemplate.id workflow)
                     <$> WorkflowTemplate.forks workflow) now
                  (State.forkIdCounter st)) as Hnew.
    destruct (createLocalForks st
                (spec_of_workflow_fork (WorkflowTemplate.id workflow)
                   <$> WorkflowTemplate.forks workflow) now
                (State.forkIdCounter st)) as [fs n]. cbn [fst] in Hnew. cbn.
    apply Forall_app. by split.
  - unfold launchFork_begin. destruct (canLaunchFork cap); cbn; [|exact H].
    apply progress_in_range_mapFork; [|exact H]. intros f _ E. discriminate E.
  - unfold launchFork_resume, apiCreateFork.
    destruct (success resp); [destruct (data resp) as [res|]|];
      cbn; apply progress_in_range_mapFork; try exact H.
    + intros f _ _. cbn. split; lra.
    + intros f _ E. discriminate E.
    + intros f _ E. discriminate E.
  - destruct o as [id resp now|id resp|m now|rnd]; cbn; try exact H.
    + unfold cancelFork_local. apply Forall_fmap.
      eapply Forall_impl; [exact H|]. intros f Hf. simpl.
      destruct (bool_decide (Fork.id f = id) && is_active (Fork.status f)); [|exact Hf].
      intros E. discriminate E.
    + apply Forall_forall. intros f' Hf'.
      apply list_elem_of_lookup in Hf' as [i Hi].
      rewrite list_lookup_imap in Hi.
      destruct (State.localForks st !! i) as [f|] eqn:Hfi; [|discriminate].
      simpl in Hi. injection Hi as <-.
      rewrite Forall_forall in H.
      assert (Hf : progress_in_range f)
        by (apply H; eapply list_elem_of_lookup_2; exact Hfi).
      cbn in Hd. specialize (Hd i).
      destruct (tickFork_cases (rnd i) f)
        as [[_ ->]|[(_ & _ & _ & ->)|(Hs & Hlt & -> & Hm)]]; [exact Hf| |].
      * intros E. cbn in E. destruct (Qltb (fl 0.1) (r_outcome (rnd i))); discriminate E.
      * intros _. cbn [Fork.progress]. rewrite Hm. destruct (Hf Hs) as [H5 _].
        split; [|exact Hlt].
        pose proof (increment_ge_2 _ Hd) as Hinc.
        apply Qle_trans with (fl 5); [rewrite double_5; lra | apply fl_mono; lra].
  - cbn. apply Forall_forall. intros f Hf.
    apply list_elem_of_filter in Hf as [_ Hf].
    rewrite Forall_forall in H. by apply H.
  - unfold addToQueue. destruct (blank (State.prompt st)); cbn; exact H.
  - exact H.
  - exact H.
  - exact H.
Qed.

(** X29. Over any session whose increment draws are not negative, every
    running fork of the local registry shows a progress of at least 5 and
    below 100, whatever the order of launches, answers, ticks, cancels
    and clearings: a launch sets 5, a tick only adds, and a tick that
    reaches 100 ends the fork.  So the [progress < 100] guard of the tick
    never holds a running local fork back. *)
Theorem running_progress_stays_in_range :
  forall (acts : list Action) (st : State.t),
    Forall action_draws_nonneg acts ->
    Forall progress_in_range (State.localForks st) ->
    Forall progress_in_range (State.localForks (session acts st)).
Proof.
  intros acts. unfold session.
  induction acts as [|a acts IH]; intros st Hd H; [exact H|].
  apply Forall_cons in Hd as [Ha Hd]. cbn [foldl].
  apply IH; [exact Hd|]. by apply perform_keeps_progress.
Qed.

(** The theorem on a session from the freshly mounted component: a
    launch is begun and accepted, and the fork is ticked twice. *)
Lemma running_progress_stays_in_range_witness :
  let rnd := fun _ : nat => mkTickRandom (1 # 2) 0 0 1 4 4 4 in
  let acts := [ActLaunchSingleBegin 1;
               ActLaunchForkBegin (setPrompt "review" (initialState 0))
                 (sampleFork "local-1" queued []) 2;
               ActLaunchForkResume (sampleFork "local-1" queued [])
                 (accepted "g0" (Some 4242)) 0 3;
               ActOp (OpTick rnd); ActOp (OpTick rnd)] in
  let st := session acts (setPrompt "review" (initialState 0)) in
  Forall progress_in_range (State.localForks st)
  /\ (Fork.status <$> State.localForks st) = [running].
Proof.
  intros rnd acts st. split; [|vm_compute; reflexivity].
  apply running_progress_stays_in_range.
  - unfold acts. repeat (apply Forall_cons; split); try exact I; try by constructor.
    + intros i. cbn. lra.
    + intros i. cbn. lra.
  - constructor.
Defined.

End RunningProgress.

(** ** A launch seen through the merged view *)

Section LaunchMerged.

(** A record in front of the local registry hides nothing of a Gateway
    list that does not carry its id. *)
Lemma filter_unmasked (x : Fork.t) (l api : list Fork.t) :
  Fork.id x ∉ Fork.id <$> api ->
  filter (fun a => ~ Exists (fun lf => Fork.id lf = Fork.id a) (x :: l)) api
  = filter (fun a => ~ Exists (fun lf => Fork.id lf = Fork.id a) l) api.
Proof.
  induction api as [|a api IH]; intros Hout; [reflexivity|].
  rewrite fmap_cons, not_elem_of_cons in Hout. destruct Hout as [Hne Hout].
  rewrite !filter_cons, (IH Hout).
  destruct (decide (~ Exists (fun lf => Fork.id lf = Fork.id a) (x :: l))) as [H1|H1];
    destruct (decide (~ Exists (fun lf => Fork.id lf = Fork.id a) l)) as [H2|H2];
    try reflexivity; exfalso.
  - apply H2. intros H. apply H1. by apply Exists_cons_tl.
  - apply H1. intros H. apply Exists_cons in H as [H|H]; [congruence | by apply H2].
Qed.

(** X30. A single launch that passes the admission check, on a registry
    whose placeholders are all behind the counter, and that the Gateway
    accepts under an id neither list carries yet, adds exactly one entry
    to the merged view: the local record, [running] under the Gateway's
    id, in front.  The record the Gateway answered with enters the hook's
    list but is hidden by the local one, so the monitor does not show the
    new fork twice.  (When a local record already carries the placeholder
    the launch draws, both become the Gateway's fork and the view shows
    it twice.) *)
Theorem accepted_launch_shows_once :
  forall (now : Z) (inp : LaunchInput) (st : State.t) (res : Fork.t),
    blank (State.prompt st) = false ->
    canLaunchFork st = true ->
    ids_below (State.forkIdCounter st) (State.localForks st) ->
    success (response inp) = true -> data (response inp) = Some res ->
    Fork.id res ∉ Fork.id <$> State.localForks st ->
    Fork.id res ∉ Fork.id <$> apiForks st ->
    exists settled,
      allForks (fst (launchSingleFork now inp st)) = settled :: allForks st
      /\ Fork.id settled = Fork.id res
      /\ Fork.status settled = running
      /\ res ∈ apiForks (fst (launchSingleFork now inp st)).
Proof.
  intros now inp st res Hb Hcan Hids Hs Hd Hloc Hapi.
  unfold launchSingleFork, launchSingleFork_begin. rewrite Hb.
  unfold createLocalFork. cbv beta iota.
  set (fork := Fork.mk (local_id (State.forkIdCounter st)) _ _ _ _ _ _ _ _ _ _ _ _ _ _).
  set (st1 := setLocalForks (cons fork) _).
  unfold launchSingleFork_timer.
  pose proof (launchFork_settles st fork inp st1 [] (State.localForks st) fork Hcan
                eq_refl eq_refl (Forall_nil_2 _)
                (ids_below_fresh _ _ Hids _ (Nat.le_refl _))) as Hl.
  pose proof (launchFork_hook st fork inp st1 Hcan) as Hu.
  destruct (launchFork st fork inp st1) as [st2 req]. cbn [fst] in Hl, Hu |- *.
  exists (settle inp fork).
  unfold allForks, apiForks.
  cbn [State.useForks State.localForks setPrompt setShowLaunchAnimation].
  rewrite Hl, Hu. unfold settle, apiCreateFork. rewrite Hs, Hd.
  cbn [fst setForks UseForks.forks State.useForks st1 setLocalForks setForkIdCounter
       setShowLaunchAnimation].
  set (settled := to_running _ _ _).
  split; [|split; [reflexivity | split; [reflexivity | by left]]].
  cbn [app]. f_equal. f_equal.
  rewrite filter_cons.
  destruct (decide (~ Exists (fun lf => Fork.id lf = Fork.id res)
                        (settled :: State.localForks st))) as [H|_].
  - exfalso. apply H. by apply Exists_cons_hd.
  - apply filter_unmasked. exact Hapi.
Qed.

(** The theorem on the freshly mounted component with a prompt and a
    Gateway that accepts under the id [g0]. *)
Lemma accepted_launch_shows_once_witness :
  Fork.id <$> allForks (fst (launchSingleFork 1
                               (mkLaunchInput 2 (accepted "g0" (Some 4242)) 0 3)
                               (setPrompt "review" (initialState 0))))
  = ["g0"].
Proof.
  assert (Hout : forall l : list Fork.t, l = [] -> "g0" ∉ Fork.id <$> l).
  { intros l -> H. inversion H. }
  destruct (accepted_launch_shows_once 1 (mkLaunchInput 2 (accepted "g0" (Some 4242)) 0 3)
              (setPrompt "review" (initialState 0))
              (Fork.mk "g0" "claude" "opus" default running "x" "x" 0 None None 0%Q
                 (Some 4242) [] false None)
              eq_refl eq_refl (Forall_nil_2 _) eq_refl eq_refl
              (Hout _ eq_refl) (Hout _ eq_refl))
    as (settled & E & Eid & _).
  rewrite E, fmap_cons, Eid. reflexivity.
Defined.

End LaunchMerged.
